(** * GAE-Go-image-optimizer: a Rocq model of [optimg.go]

    The development embeds the package [optimg]
    (src/github.com/tomihiltunen/gae-go-image-optimizer/optimg.go):
    the mime-type gate [validateMimeType], the two-pass aspect scaler
    inlined in [handleBlob], the per-object replacement [handleBlob]
    and the batch walk [handleBlobSlice] / [ParseBlobs].

    The Go runtime and the App Engine blobstore are collaborators of the
    package.  They are modelled explicitly: IEEE-754 binary64 arithmetic
    through the Standard Library's [SpecFloat], the blobstore as a finite
    map with a script of injected faults, the Go heap (slices and maps) as
    finite maps from locations to contents, so that aliasing is visible.

    The file optimg.go also keeps the first revision of the package, which
    slugify/slugify.go repeats; it is embedded beside the current one and
    compared with it.  [DashedSlug] of slugify.go is not embedded: it is
    unfinished (it calls [strings.TrimSpace] without an argument, declares
    [re] twice and returns nothing), so it has no behaviour to model. *)

From Stdlib Require Import ZArith Lia Floats.SpecFloat Strings.Ascii Strings.String.
From stdpp Require Import base tactics option list gmap strings.

Open Scope Z_scope.

(* ================================================================== *)
(** * Part I.  The model                                               *)
(* ================================================================== *)

(** ** float64: IEEE-754 binary64 *)

Definition prec : Z := 53.
Definition emax : Z := 1024.

(** [float64(n)] for an [int] n: correctly rounded conversion. *)
Definition f64_of_int (z : Z) : spec_float := binary_normalize prec emax z 0 false.
Definition f64_mul : spec_float -> spec_float -> spec_float := SFmul prec emax.
Definition f64_div : spec_float -> spec_float -> spec_float := SFdiv prec emax.

(** Go's [int] is 64 bits wide on the platforms the package runs on. *)
Definition min_int : Z := - 2 ^ 63.
Definition max_int : Z := 2 ^ 63 - 1.

(** The integer part [floor (±m * 2^e)] of a finite float. *)
Definition floorZ (s : bool) (m : positive) (e : Z) : Z :=
  if 0 <=? e then cond_Zopp s (Zpos m) * 2 ^ e else cond_Zopp s (Zpos m) / 2 ^ (- e).

(** [math.Floor]: zeros, infinities and NaN are returned unchanged. *)
Definition math_Floor (f : spec_float) : spec_float :=
  match f with
  | S754_finite s m e => binary_normalize prec emax (floorZ s m e) 0 s
  | _ => f
  end.

(** [int(f)]: truncation toward zero.  A value that does not fit (and NaN,
    infinities) converts to the most negative integer, as on amd64. *)
Definition int_of_float64 (f : spec_float) : Z :=
  match f with
  | S754_zero _ => 0
  | S754_finite s m e =>
      let t := cond_Zopp s (if 0 <=? e then Zpos m * 2 ^ e else Zpos m / 2 ^ (- e)) in
      if (min_int <=? t) && (t <=? max_int) then t else min_int
  | _ => min_int
  end.

(** ** The aspect scaler (optimg.go, lines 297-310) *)

(** [int(math.Floor(float64(dim) * float64(float64(num)/float64(den))))]:
    the expression of lines 303 and 308. *)
Definition scaleDim (dim num den : Z) : Z :=
  int_of_float64 (math_Floor
    (f64_mul (f64_of_int dim) (f64_div (f64_of_int num) (f64_of_int den)))).

(** The body of the [if] of line 297, on [img.Bounds().Max]: [Some] of the
    arguments handed to [resize.Resize], [None] when the guard is false. *)
Definition targetSize (Size MaxX MaxY : Z) : option (Z * Z) :=
  if (Size >? 0) && ((MaxX >? Size) || (MaxY >? Size)) then
    let size_x := MaxX in
    let size_y := MaxY in
    let '(size_x, size_y) :=
      if size_x >? Size then
        let size_x_before := size_x in
        let size_x := Size in
        (size_x, scaleDim size_y size_x size_x_before)
      else (size_x, size_y) in
    let '(size_x, size_y) :=
      if size_y >? Size then
        let size_y_before := size_y in
        let size_y := Size in
        (scaleDim size_x size_y size_y_before, size_y)
      else (size_x, size_y) in
    Some (size_x, size_y)
  else None.

(** The scaler as the specification words it, to be compared with
    [targetSize]: the same two passes with [floor (dim * num / den)], exact
    on the integers, in the place of [scaleDim]. *)
Definition exactScale (dim num den : Z) : Z := dim * num / den.

Definition specTargetSize (maxDimension width height : Z) : option (Z * Z) :=
  if (maxDimension >? 0) && ((width >? maxDimension) || (height >? maxDimension)) then
    let '(w1, h1) :=
      if width >? maxDimension
      then (maxDimension, exactScale height maxDimension width)
      else (width, height) in
    let '(w2, h2) :=
      if h1 >? maxDimension
      then (exactScale w1 maxDimension h1, maxDimension)
      else (w1, h1) in
    Some (w2, h2)
  else None.

(** ** Images, blobs and the blobstore *)

(** A decoded image: only [Bounds().Max] is observed by the package
    (decoders produce rectangles with [Min = (0,0)]). *)
Record Image := mkImage { MaxX : Z; MaxY : Z }.

(** The bytes of a stored object, seen through [image.Decode]: an encoding of
    an image in one of the three registered formats, or anything else. *)
Inductive BlobData :=
  | JpegBytes (quality : Z) (img : Image)
  | PngBytes (img : Image)
  | GifBytes (img : Image)
  | OtherBytes.

Definition decodeBytes (d : BlobData) : option Image :=
  match d with
  | JpegBytes _ img | PngBytes img | GifBytes img => Some img
  | OtherBytes => None
  end.

Record StoredBlob := mkStored { blob_type : string; blob_data : BlobData }.

(** [blobstore.BlobInfo], with the fields the package reads. *)
Record BlobInfo := mkBlobInfo { BlobKey : string; ContentType : string }.

(** A slice header [[]*blobstore.BlobInfo]: backing array, offset, length. *)
Record Slice := mkSlice { sl_array : nat; sl_offset : nat; sl_len : nat }.

(** Calls to the collaborators, in the order they are made. *)
Inductive Event :=
  | EvDecode (key : string) (ok : bool)
  | EvResize (w h : Z)
  | EvCreate (mime : string) (ok : bool)
  | EvEncode (quality : Z) (img : Image) (ok : bool)
  | EvClose (ok : bool)
  | EvKey (ok : bool)
  | EvStat (key : string) (ok : bool)
  | EvDelete (key : string) (ok : bool).

(** The state the package runs against.
    - [store]: the blobstore;
    - [arrays], [gomaps]: the Go heap (backing arrays of slices, map objects);
    - [faults]: the outcome of the coming collaborator calls ([true]: the call
      fails), consumed one per call; past its end calls succeed;
    - [range_seed]: decides the order in which [range] visits a map;
    - [trace]: the collaborator calls made so far, oldest first. *)
Record World := mkWorld {
  store : gmap string StoredBlob;
  arrays : gmap nat (list BlobInfo);
  gomaps : gmap nat (gmap string Slice);
  faults : list bool;
  range_seed : list nat;
  trace : list Event
}.

Definition set_store (f : gmap string StoredBlob -> gmap string StoredBlob) (w : World) : World :=
  mkWorld (f (store w)) (arrays w) (gomaps w) (faults w) (range_seed w) (trace w).
Definition set_arrays (f : gmap nat (list BlobInfo) -> gmap nat (list BlobInfo)) (w : World) : World :=
  mkWorld (store w) (f (arrays w)) (gomaps w) (faults w) (range_seed w) (trace w).
Definition set_gomaps (f : gmap nat (gmap string Slice) -> gmap nat (gmap string Slice)) (w : World) : World :=
  mkWorld (store w) (arrays w) (f (gomaps w)) (faults w) (range_seed w) (trace w).
Definition set_faults (f : list bool -> list bool) (w : World) : World :=
  mkWorld (store w) (arrays w) (gomaps w) (f (faults w)) (range_seed w) (trace w).
Definition set_trace (f : list Event -> list Event) (w : World) : World :=
  mkWorld (store w) (arrays w) (gomaps w) (faults w) (range_seed w) (f (trace w)).

(** Computations: state passing; [None] is a run-time panic. *)
Definition M (A : Type) : Type := World -> option (A * World).

#[global] Instance M_ret : MRet M := fun A a w => Some (a, w).
#[global] Instance M_bind : MBind M := fun A B f m w =>
  match m w with
  | Some (a, w') => f a w'
  | None => None
  end.

Definition ok_of {A} (r : option A) : bool :=
  match r with Some _ => true | None => false end.
Definition emit (ev : Event) : M unit := fun w => Some (tt, set_trace (fun t => t ++ [ev]) w).
Definition next_fault : M bool :=
  fun w => Some (hd false (faults w), set_faults (@tail bool) w).
Definition get_store : M (gmap string StoredBlob) := fun w => Some (store w, w).
Definition modify_store (f : gmap string StoredBlob -> gmap string StoredBlob) : M unit :=
  fun w => Some (tt, set_store f w).

Fixpoint for_each {A} (l : list A) (body : A -> M unit) : M unit :=
  match l with
  | [] => mret tt
  | x :: l' => body x ;; for_each l' body
  end.

(** *** The collaborators *)

(** [image.Decode(blobstore.NewReader(ctx, key))]. *)
Definition image_Decode (key : string) : M (option Image) :=
  failed ← next_fault;
  st ← get_store;
  let r := if failed : bool then None
           else blob ← st !! key; decodeBytes (blob_data blob) in
  emit (EvDecode key (ok_of r)) ;; mret r.

(** [resize.Resize(img, img.Bounds(), w, h)]: an image of the requested size. *)
Definition resize_Resize (img : Image) (w h : Z) : M Image :=
  emit (EvResize w h) ;; mret (mkImage w h).

(** A [*blobstore.Writer]: the content type it was created with, what has
    been written to it, and the key it got when it was closed. *)
Record Writer := mkWriter {
  wr_type : string;
  wr_data : BlobData;
  wr_key : option string
}.

(** [blobstore.Create(ctx, mimeType)]. *)
Definition blobstore_Create (mime : string) : M (option Writer) :=
  failed ← next_fault;
  emit (EvCreate mime (negb failed)) ;;
  mret (if failed : bool then None else Some (mkWriter mime OtherBytes None)).

(** [jpeg.Encode(writer, img, &jpeg.Options{Quality: q})]: the writer after
    the call, and whether the call failed. *)
Definition jpeg_Encode (writer : Writer) (img : Image) (q : Z) : M (Writer * bool) :=
  failed ← next_fault;
  emit (EvEncode q img (negb failed)) ;;
  mret (if failed : bool then (writer, true)
        else (mkWriter (wr_type writer) (JpegBytes q img) (wr_key writer), false)).

(** [writer.Close()]: on success the object is stored under a key the store
    did not use. *)
Definition writer_Close (writer : Writer) : M (Writer * bool) :=
  failed ← next_fault;
  emit (EvClose (negb failed)) ;;
  if failed : bool then mret (writer, true)
  else
    st ← get_store;
    let key := fresh (dom st) in
    modify_store (insert key (mkStored (wr_type writer) (wr_data writer))) ;;
    mret (mkWriter (wr_type writer) (wr_data writer) (Some key), false).

(** [writer.Key()]. *)
Definition writer_Key (writer : Writer) : M (option string) :=
  failed ← next_fault;
  let r := if failed : bool then None else wr_key writer in
  emit (EvKey (ok_of r)) ;; mret r.

(** [blobstore.Stat(ctx, key)]. *)
Definition blobstore_Stat (key : string) : M (option BlobInfo) :=
  failed ← next_fault;
  st ← get_store;
  let r := if failed : bool then None
           else blob ← st !! key; Some (mkBlobInfo key (blob_type blob)) in
  emit (EvStat key (ok_of r)) ;; mret r.

(** [blobstore.Delete(ctx, key)]: returns whether the call failed. *)
Definition blobstore_Delete (key : string) : M bool :=
  failed ← next_fault;
  emit (EvDelete key (negb failed)) ;;
  if failed : bool then mret true
  else modify_store (delete key) ;; mret false.

(** *** The Go heap *)

(** [s[i]]: panics when [i] is out of range. *)
Definition slice_get (s : Slice) (i : nat) : M BlobInfo :=
  fun w =>
    if decide (i < sl_len s)%nat then
      arr ← arrays w !! sl_array s;
      b ← arr !! (sl_offset s + i)%nat;
      Some (b, w)
    else None.

(** [s[i] = b]: writes through to the backing array. *)
Definition slice_set (s : Slice) (i : nat) (b : BlobInfo) : M unit :=
  fun w =>
    if decide (i < sl_len s)%nat then
      arr ← arrays w !! sl_array s;
      if decide (sl_offset s + i < length arr)%nat then
        Some (tt, set_arrays (insert (sl_array s) (<[(sl_offset s + i)%nat := b]> arr)) w)
      else None
    else None.

Definition nil_slice : Slice := mkSlice 0 0 0.

(** [m[k]]: the zero value when the key is absent. *)
Definition map_get (mref : nat) (k : string) : M Slice :=
  fun w =>
    m ← gomaps w !! mref;
    Some (default nil_slice (m !! k), w).

(** [m[k] = s]. *)
Definition map_set (mref : nat) (k : string) (s : Slice) : M unit :=
  fun w =>
    m ← gomaps w !! mref;
    Some (tt, set_gomaps (insert mref (<[k := s]> m)) w).

(** The order of a [range] over a map is not specified: every permutation
    of the keys is possible; [seed] picks one. *)
Fixpoint shuffle {A} (seed : list nat) (l : list A) : list A :=
  match l with
  | [] => []
  | x :: l' =>
      let r := shuffle (tail seed) l' in
      let i := Nat.modulo (hd 0%nat seed) (S (length r)) in
      take i r ++ x :: drop i r
  end.

Definition map_range (mref : nat) : M (list string) :=
  fun w =>
    m ← gomaps w !! mref;
    Some (shuffle (range_seed w) (map_to_list m).*1, w).

Definition alloc_array (xs : list BlobInfo) : M nat :=
  fun w =>
    let l := fresh (dom (arrays w)) in
    Some (l, set_arrays (insert l xs) w).

Definition alloc_map (m : gmap string Slice) : M nat :=
  fun w =>
    let l := fresh (dom (gomaps w)) in
    Some (l, set_gomaps (insert l m) w).

(** *** The upload collaborator *)

Definition url_Values := gmap string (list string).
Definition error := string.

(** What [blobstore.ParseUpload] finds in the request: the uploaded objects by
    field name, in upload order, and the other form values. *)
Record http_Request := mkRequest {
  req_blobs : gmap string (list BlobInfo);
  req_other : url_Values
}.

Fixpoint alloc_fields (fields : list (string * list BlobInfo)) (acc : gmap string Slice)
  : M (gmap string Slice) :=
  match fields with
  | [] => mret acc
  | (name, xs) :: rest =>
      l ← alloc_array xs;
      alloc_fields rest (<[name := mkSlice l 0 (length xs)]> acc)
  end.

(** [blobstore.ParseUpload(req)]: a fresh map holding one fresh slice per
    field, or [(nil, nil, err)]. *)
Definition blobstore_ParseUpload (req : http_Request)
  : M (option nat * url_Values * option error) :=
  failed ← next_fault;
  if failed : bool then mret (None, ∅, Some "blobstore: cannot parse upload"%string)
  else
    m ← alloc_fields (map_to_list (req_blobs req)) ∅;
    mref ← alloc_map m;
    mret (Some mref, req_other req, None).

(** ** The package [optimg] *)

(** *** [strings.ToLower] *)

Definition is_upper (c : ascii) : bool :=
  (65 <=? nat_of_ascii c)%nat && (nat_of_ascii c <=? 90)%nat.

(** ['A'..'Z'] to ['a'..'z'], every other byte unchanged. *)
Definition lower_byte (c : ascii) : ascii :=
  if is_upper c then ascii_of_nat (nat_of_ascii c + 32) else c.

Fixpoint is_ascii (s : string) : bool :=
  match s with
  | EmptyString => true
  | String c s' => (nat_of_ascii c <? 128)%nat && is_ascii s'
  end.

Fixpoint map_bytes (f : ascii -> ascii) (s : string) : string :=
  match s with
  | EmptyString => EmptyString
  | String c s' => String (f c) (map_bytes f s')
  end.

(** The instance used to run the model on ASCII inputs, where the
    parameter below is not consulted. *)
Definition ascii_only : string -> string := fun s => s.

Section Optimg.

(** The case mapping [strings.ToLower] applies to a string that holds a byte
    outside ASCII (UTF-8 decoding and the Unicode tables of the Go runtime):
    a parameter of the development. *)
Variable unicode_ToLower : string -> string.

Definition ToLower (s : string) : string :=
  if is_ascii s then map_bytes lower_byte s else unicode_ToLower s.

(** *** optimg.go, lines 203-210 *)
Definition allowedMimeTypes : gmap string bool :=
  <["image/jpeg"%string := true]>
  (<["image/jpg"%string := true]>
  (<["image/png"%string := true]>
  (<["image/gif"%string := true]> ∅))).

(** *** optimg.go, lines 220-225.  [Context] is the handle on the
    blobstore, here the [World] the computation runs in. *)
Record compressionOptions := mkOptions {
  Quality : Z;
  Size : Z;
  Request : http_Request
}.

(** *** optimg.go, lines 234-241 *)
Definition NewCompressionOptions (r : http_Request) : compressionOptions :=
  {| Quality := 75; Size := 0; Request := r |}.

(** *** optimg.go, lines 348-351.  A map read of an absent key yields the
    zero value [false]. *)
Definition validateMimeType (blob : BlobInfo) : bool :=
  let mimeType := ToLower (ContentType blob) in
  default false (allowedMimeTypes !! mimeType).

(** *** optimg.go, lines 354-356: the error of [Delete] is discarded. *)
Definition deleteOldBlob (options : compressionOptions) (blobkey : string) : M unit :=
  _ ← blobstore_Delete blobkey; mret tt.

(** *** optimg.go, lines 282-345 *)
Definition handleBlob (options : compressionOptions) (blobOriginal : BlobInfo) : M BlobInfo :=
  let blob := blobOriginal in
  (* Check that the blob is of supported mime-type *)
  if negb (validateMimeType blob) then mret blob else
  (* Instantiate the image object *)
  decoded ← image_Decode (BlobKey blob);
  match decoded with
  | None => mret blob
  | Some img =>
    (* Resize if necessary *)
    img ← match targetSize (Size options) (MaxX img) (MaxY img) with
          | Some (size_x, size_y) => resize_Resize img size_x size_y
          | None => mret img
          end;
    (* JPEG options *)
    let o := Quality options in
    (* Open writer *)
    created ← blobstore_Create "image/jpeg";
    match created with
    | None => mret blob
    | Some writer =>
      (* Write to blobstore *)
      '(writer, err) ← jpeg_Encode writer img o;
      if err : bool then (_ ← writer_Close writer; mret blob) else
      (* Close writer *)
      '(writer, err) ← writer_Close writer;
      if err : bool then mret blob else
      (* Get key *)
      newKey ← writer_Key writer;
      match newKey with
      | None => mret blob
      | Some newKey =>
        (* Get new BlobInfo *)
        newBlobInfo ← blobstore_Stat newKey;
        match newBlobInfo with
        | None => mret blob
        | Some newBlobInfo =>
          (* All good!  Now replace the old blob and delete it *)
          deleteOldBlob options (BlobKey blob) ;;
          mret newBlobInfo
        end
      end
    end
  end.

(** *** optimg.go, lines 268-270: the body of the loop. *)
Definition slice_body (options : compressionOptions) (blobSlice : Slice) (index : nat) : M unit :=
  blobInfo ← slice_get blobSlice index;
  b ← handleBlob options blobInfo;
  slice_set blobSlice index b.

(** *** optimg.go, lines 265-272.  [range] evaluates the slice once and
    visits the indices [0 .. len-1] in order. *)
Definition handleBlobSlice (options : compressionOptions) (blobSliceOriginal : Slice) : M Slice :=
  let blobSlice := blobSliceOriginal in
  for_each (seq 0 (sl_len blobSlice)) (slice_body options blobSlice) ;;
  mret blobSlice.

(** *** optimg.go, lines 256-258: the body of the loop. *)
Definition field_body (options : compressionOptions) (blobs : nat) (keyName : string) : M unit :=
  blobSlice ← map_get blobs keyName;
  s ← handleBlobSlice options blobSlice;
  map_set blobs keyName s.

(** *** optimg.go, lines 250-260.  A [range] over a nil map runs no
    iteration. *)
Definition ParseBlobs (options : compressionOptions)
  : M (option nat * url_Values * option error) :=
  '(blobs, other, err) ← blobstore_ParseUpload (Request options);
  match err with
  | Some _ => mret (blobs, other, err)
  | None =>
    match blobs with
    | None => mret tt
    | Some mref =>
      keys ← map_range mref;
      for_each keys (field_body options mref)
    end ;;
    mret (blobs, other, err)
  end.

(** ** Vocabulary of the statements *)

(** The supported content types, lower case. *)
Definition supportedTypes : list string :=
  ["image/jpeg"; "image/jpg"; "image/png"; "image/gif"]%string.

(** Bounds a decoder can produce: non-negative and within 31 bits. *)
Definition decodable (img : Image) : Prop :=
  0 <= MaxX img < 2 ^ 31 /\ 0 <= MaxY img < 2 ^ 31.

(** The image [image.Decode] reads from the object stored under [key]. *)
Definition stored_image (w : World) (key : string) : option Image :=
  blob ← store w !! key; decodeBytes (blob_data blob).

(** A collaborator call that reports an error the package reacts to. *)
Definition failed_step (ev : Event) : bool :=
  match ev with
  | EvDecode _ ok | EvCreate _ ok | EvEncode _ _ ok | EvClose ok | EvKey ok | EvStat _ ok => negb ok
  | EvResize _ _ | EvDelete _ _ => false
  end.

Definition is_delete (ev : Event) : bool :=
  match ev with EvDelete _ _ => true | _ => false end.

(** The batch as the specification words it, to be compared with
    [handleBlobSlice] and [ParseBlobs]: "for every field name, for every
    index in its object sequence, replace the entry at that index with
    replace(entry, options), preserving order and field identity".  The
    entries of a sequence are taken in order, each in the state the one
    before it left. *)
Fixpoint specReplaceEach (options : compressionOptions) (xs : list BlobInfo)
  : M (list BlobInfo) :=
  match xs with
  | [] => mret []
  | x :: xs' =>
      y ← handleBlob options x;
      ys ← specReplaceEach options xs';
      mret (y :: ys)
  end.

(** The fields are taken in the order of the list [fields]. *)
Fixpoint specProcess (options : compressionOptions) (fields : list (string * list BlobInfo))
  : M (list (string * list BlobInfo)) :=
  match fields with
  | [] => mret []
  | (keyName, xs) :: rest =>
      ys ← specReplaceEach options xs;
      out ← specProcess options rest;
      mret ((keyName, ys) :: out)
  end.

(** Two states with the same blobstore, the same script of faults and the
    same trace: they differ in the Go heap at most. *)
Definition same_service (w w' : World) : Prop :=
  store w = store w' /\ faults w = faults w' /\ trace w = trace w'.

(** The objects a slice denotes in a heap. *)
Definition slice_elems (w : World) (s : Slice) : option (list BlobInfo) :=
  match arrays w !! sl_array s with
  | Some arr =>
      if decide (sl_offset s + sl_len s <= length arr)%nat
      then Some (take (sl_len s) (drop (sl_offset s) arr))
      else None
  | None => None
  end.

(** The field-name to object-sequence mapping a map object denotes. *)
Definition map_elems (w : World) (mref : nat) : option (gmap string (list BlobInfo)) :=
  match gomaps w !! mref with
  | Some m => Some (omap (slice_elems w) m)
  | None => None
  end.

(** The slices of a map object lie in different backing arrays. *)
Definition separate (m : gmap string Slice) : Prop :=
  forall k1 k2 s1 s2,
    m !! k1 = Some s1 -> m !! k2 = Some s2 -> sl_array s1 = sl_array s2 -> k1 = k2.

(** In the heap of [w], the slices of [m] denote the sequences of [F]. *)
Definition denotes (w : World) (m : gmap string Slice) (F : gmap string (list BlobInfo)) : Prop :=
  (forall k s, m !! k = Some s -> exists xs, slice_elems w s = Some xs /\ F !! k = Some xs) /\
  (forall k, m !! k = None -> F !! k = None).

(** What is encoded: the decoded image, resized when the scaler says so. *)
Definition resized (options : compressionOptions) (img : Image) : Image :=
  match targetSize (Size options) (MaxX img) (MaxY img) with
  | Some (size_x, size_y) => mkImage size_x size_y
  | None => img
  end.

Definition resize_events (options : compressionOptions) (img : Image) : list Event :=
  match targetSize (Size options) (MaxX img) (MaxY img) with
  | Some (size_x, size_y) => [EvResize size_x size_y]
  | None => []
  end.

(** The collaborator calls of a replacement that goes through. *)
Definition success_events (options : compressionOptions) (blob : BlobInfo)
    (img : Image) (newKey : string) (deleted : bool) : list Event :=
  [EvDecode (BlobKey blob) true] ++ resize_events options img ++
  [EvCreate "image/jpeg" true; EvEncode (Quality options) (resized options img) true;
   EvClose true; EvKey true; EvStat newKey true; EvDelete (BlobKey blob) deleted].

Definition Image_eqb (a b : Image) : bool :=
  (MaxX a =? MaxX b) && (MaxY a =? MaxY b).

(** The calls that may follow the decoding and resizing of [img']: the
    writer is created for image/jpeg, [img'] is encoded at the quality of the
    options, and only the key handed to [handleBlob] is deleted. *)
Definition tail_event_ok (options : compressionOptions) (blob : BlobInfo)
    (img' : Image) (ev : Event) : bool :=
  match ev with
  | EvCreate mime _ => String.eqb mime "image/jpeg"
  | EvEncode q i _ => (q =? Quality options) && Image_eqb i img'
  | EvClose _ | EvKey _ | EvStat _ _ => true
  | EvDelete k _ => String.eqb k (BlobKey blob)
  | EvDecode _ _ | EvResize _ _ => false
  end.

(** The shape of the calls of one run of [handleBlob]. *)
Definition run_shape (options : compressionOptions) (blob : BlobInfo) (w : World)
    (evs : list Event) : Prop :=
  (validateMimeType blob = false /\ evs = []) \/
  (validateMimeType blob = true /\ evs = [EvDecode (BlobKey blob) false] /\
   (hd false (faults w) = true \/ stored_image w (BlobKey blob) = None)) \/
  (validateMimeType blob = true /\ hd false (faults w) = false /\
   exists img rest,
     stored_image w (BlobKey blob) = Some img /\
     evs = EvDecode (BlobKey blob) true :: resize_events options img ++ rest /\
     forallb (tail_event_ok options blob (resized options img)) rest = true).

(** Whether one of the next [n] collaborator calls is scripted to fail, and
    whether the call after [n] calls is. *)
Fixpoint any_fault (n : nat) (l : list bool) : bool :=
  match n with
  | O => false
  | S n' => hd false l || any_fault n' (tail l)
  end.

Fixpoint nth_fault (n : nat) (l : list bool) : bool :=
  match n with
  | O => hd false l
  | S n' => nth_fault n' (tail l)
  end.

(** No collaborator call is scripted to fail. *)
Definition no_faults (w : World) : Prop := Forall (fun b => b = false) (faults w).

(** ** The scenarios of the specification *)

Definition photo_key : string := "blob-photo-1".
Definition photo_info : BlobInfo := mkBlobInfo photo_key "image/jpeg".

Definition photo_request : http_Request :=
  mkRequest {[ "photo"%string := [photo_info] ]} ∅.

Definition photo_options : compressionOptions :=
  {| Quality := 75; Size := 1600; Request := photo_request |}.

(** A store holding one 3000x2000 JPEG, an empty heap, no faults. *)
Definition photo_world : World :=
  mkWorld {[ photo_key := mkStored "image/jpeg" (JpegBytes 90 (mkImage 3000 2000)) ]}
          ∅ ∅ [] [] [].

(** ** The first revision of the package

    optimg.go keeps, in its lines 1-156, the first revision of the package,
    and slugify/slugify.go repeats its functions (lines 91-203).  It differs
    from the revision modelled above in four places: [handleBlob] returns on
    a failed [jpeg.Encode] without closing the writer, [validateMimeType]
    tests the map entry with an [if], the walk over a slice is called
    [handleBlobArray], and [NewCompressionOptions] takes no request (it sets
    the same [Quality] and [Size], and is not repeated here). *)

(** *** optimg.go, lines 144-150 *)
Definition validateMimeType_rev1 (blob : BlobInfo) : bool :=
  let mimeType := ToLower (ContentType blob) in
  let match_ := default false (allowedMimeTypes !! mimeType) in
  if match_ then true else false.

(** *** optimg.go, lines 78-140 *)
Definition handleBlob_rev1 (options : compressionOptions) (blobOriginal : BlobInfo) : M BlobInfo :=
  let blob := blobOriginal in
  (* Check that the blob is of supported mime-type *)
  if negb (validateMimeType_rev1 blob) then mret blob else
  (* Instantiate the image object *)
  decoded ← image_Decode (BlobKey blob);
  match decoded with
  | None => mret blob
  | Some img =>
    (* Resize if necessary *)
    img ← match targetSize (Size options) (MaxX img) (MaxY img) with
          | Some (size_x, size_y) => resize_Resize img size_x size_y
          | None => mret img
          end;
    (* JPEG options *)
    let o := Quality options in
    (* Open writer *)
    created ← blobstore_Create "image/jpeg";
    match created with
    | None => mret blob
    | Some writer =>
      (* Write to blobstore *)
      '(writer, err) ← jpeg_Encode writer img o;
      if err : bool then mret blob else
      (* Close writer *)
      '(writer, err) ← writer_Close writer;
      if err : bool then mret blob else
      (* Get key *)
      newKey ← writer_Key writer;
      match newKey with
      | None => mret blob
      | Some newKey =>
        (* Get new BlobInfo *)
        newBlobInfo ← blobstore_Stat newKey;
        match newBlobInfo with
        | None => mret blob
        | Some newBlobInfo =>
          (* All good!  Now replace the old blob and delete it *)
          deleteOldBlob options (BlobKey blob) ;;
          mret newBlobInfo
        end
      end
    end
  end.

(** *** optimg.go, lines 70-72: the body of the loop. *)
Definition array_body (options : compressionOptions) (blobArray : Slice) (index : nat) : M unit :=
  blobInfo ← slice_get blobArray index;
  b ← handleBlob_rev1 options blobInfo;
  slice_set blobArray index b.

(** *** optimg.go, lines 67-74 *)
Definition handleBlobArray (options : compressionOptions) (blobArrayOriginal : Slice) : M Slice :=
  let blobArray := blobArrayOriginal in
  for_each (seq 0 (sl_len blobArray)) (array_body options blobArray) ;;
  mret blobArray.

(** *** optimg.go, lines 59-61: the body of the loop. *)
Definition field_body_rev1 (options : compressionOptions) (blobs : nat) (keyName : string) : M unit :=
  blobArray ← map_get blobs keyName;
  s ← handleBlobArray options blobArray;
  map_set blobs keyName s.

(** *** optimg.go, lines 53-63 *)
Definition ParseBlobs_rev1 (options : compressionOptions)
  : M (option nat * url_Values * option error) :=
  '(blobs, other, err) ← blobstore_ParseUpload (Request options);
  match err with
  | Some _ => mret (blobs, other, err)
  | None =>
    match blobs with
    | None => mret tt
    | Some mref =>
      keys ← map_range mref;
      for_each keys (field_body_rev1 options mref)
    end ;;
    mret (blobs, other, err)
  end.

(** ** Further vocabulary *)

(** A writer successfully created, and a call of [Close] on a writer
    (whatever it returns). *)
Definition is_open (ev : Event) : bool :=
  match ev with EvCreate _ ok => ok | _ => false end.

Definition is_close (ev : Event) : bool :=
  match ev with EvClose _ => true | _ => false end.

(** The writers a sequence of calls leaves open, starting from [n] open
    ones: [None] when a writer is closed that is not open. *)
Fixpoint open_writers (n : nat) (evs : list Event) : option nat :=
  match evs with
  | [] => Some n
  | ev :: evs' =>
      if is_open ev then open_writers (S n) evs'
      else if is_close ev then
        match n with
        | O => None
        | S n' => open_writers n' evs'
        end
      else open_writers n evs'
  end.

(** The place of a call in the sequence decode, resize, create, encode,
    close, key, stat, delete. *)
Definition rank (ev : Event) : nat :=
  match ev with
  | EvDecode _ _ => 0
  | EvResize _ _ => 1
  | EvCreate _ _ => 2
  | EvEncode _ _ _ => 3
  | EvClose _ => 4
  | EvKey _ => 5
  | EvStat _ _ => 6
  | EvDelete _ _ => 7
  end%nat.

(** Each number is smaller than the next one. *)
Fixpoint increasing (l : list nat) : Prop :=
  match l with
  | [] => True
  | a :: l' =>
      match l' with
      | [] => True
      | b :: _ => (a < b)%nat /\ increasing l'
      end
  end.

(** A store holding one PDF, declared as such, and the upload of it. *)
Definition pdf_key : string := "blob-pdf-1".
Definition pdf_info : BlobInfo := mkBlobInfo pdf_key "application/pdf".

Definition pdf_request : http_Request :=
  mkRequest {[ "document"%string := [pdf_info] ]} ∅.

Definition pdf_world : World :=
  mkWorld {[ pdf_key := mkStored "application/pdf" OtherBytes ]} ∅ ∅ [] [] [].

(** The store of [photo_world], with a script of faults. *)
Definition photo_world_failing (script : list bool) : World :=
  mkWorld (store photo_world) ∅ ∅ script [] [].

(** A PNG and a GIF in one slice that spans its backing array, in a store
    that holds a PDF as well. *)
Definition album : list BlobInfo :=
  [mkBlobInfo "blob-a" "image/png"; mkBlobInfo "blob-b" "IMAGE/GIF"].

Definition album_slice : Slice := mkSlice 0 0 2.

Definition album_world : World :=
  mkWorld {[ "blob-a"%string := mkStored "image/png" (PngBytes (mkImage 800 600));
             "blob-b"%string := mkStored "IMAGE/GIF" (GifBytes (mkImage 4000 1000));
             "blob-c"%string := mkStored "application/pdf" OtherBytes ]}
          {[ 0%nat := album ]} ∅ [] [] [].

(** The upload of the two images and of a PDF, one to a field. *)
Definition album_request : http_Request :=
  mkRequest {[ "front"%string := [mkBlobInfo "blob-a" "image/png"];
               "back"%string := [mkBlobInfo "blob-b" "IMAGE/GIF"];
               "notes"%string := [mkBlobInfo "blob-c" "application/pdf"] ]} ∅.

Definition album_options : compressionOptions :=
  {| Quality := 60; Size := 1024; Request := album_request |}.

(** ** The invariants of the walk over a slice *)

(** No entry of the slice [s] of [arr0] that is of a supported type has
    the key [k]. *)
Definition image_free (s : Slice) (arr0 : list BlobInfo) (k : string) : Prop :=
  forall i x, (i < sl_len s)%nat -> arr0 !! (sl_offset s + i)%nat = Some x ->
    validateMimeType x = true -> BlobKey x <> k.

(** The entry at index [i] of the slice [s] has been dealt with: [arr0] and
    [w0] are the backing array and the state before the walk, [arr] and [w]
    those of now.  An entry of an unsupported type is as it was.  An entry
    of a supported type is a reference of type image/jpeg to the JPEG of the
    resized source, under a key that is none of the keys of the images
    further on in the slice, none of the new keys at the indices before it,
    and none of the keys of the objects the slice has no image for. *)
Definition entry_done (options : compressionOptions) (s : Slice) (arr0 : list BlobInfo)
    (w0 w : World) (arr : list BlobInfo) (i : nat) : Prop :=
  exists x y,
    arr0 !! (sl_offset s + i)%nat = Some x /\ arr !! (sl_offset s + i)%nat = Some y /\
    (validateMimeType x = false -> y = x) /\
    (validateMimeType x = true ->
     ContentType y = "image/jpeg"%string /\
     (exists img, stored_image w0 (BlobKey x) = Some img /\
        store w !! BlobKey y =
          Some (mkStored "image/jpeg" (JpegBytes (Quality options) (resized options img)))) /\
     (forall j x', (i < j < sl_len s)%nat -> arr0 !! (sl_offset s + j)%nat = Some x' ->
        validateMimeType x' = true -> BlobKey y <> BlobKey x') /\
     (forall i' x' y', (i' < i)%nat -> arr0 !! (sl_offset s + i')%nat = Some x' ->
        validateMimeType x' = true -> arr !! (sl_offset s + i')%nat = Some y' ->
        BlobKey y' <> BlobKey y) /\
     (forall k, is_Some (store w0 !! k) -> image_free s arr0 k -> BlobKey y <> k)).

(** What the batch makes of the reference [x] when no call fails, [w] being
    the state before and [w'] the state after: a reference of a supported
    type is replaced by a reference of type image/jpeg to the JPEG of the
    resized source, any other reference is as it was. *)
Definition batch_result (options : compressionOptions) (w w' : World) (x y : BlobInfo) : Prop :=
  if validateMimeType x then
    ContentType y = "image/jpeg"%string /\
    exists img, stored_image w (BlobKey x) = Some img /\
      store w' !! BlobKey y =
        Some (mkStored "image/jpeg" (JpegBytes (Quality options) (resized options img)))
  else y = x /\ store w' !! BlobKey x = store w !! BlobKey x.


(* ================================================================== *)
(** * Part II.  Properties                                             *)
(* ================================================================== *)

(** ** Rounding in binary64

    [binary_round_aux] is faithful: for a mantissa of at least 53 bits, in
    the normal range, it returns one of the two 53-bit neighbours of its
    argument.  This is all the scaler needs. *)

Lemma fexp_eq e : fexp prec emax e = Z.max (e - 53) (-1074).
Proof. reflexivity. Qed.

Lemma pow2_pos n : 0 <= n -> 0 < 2 ^ n.
Proof. intros. apply Z.pow_pos_nonneg; lia. Qed.

Lemma pow2_split n : 0 < n -> 2 ^ n = 2 * 2 ^ (n - 1).
Proof. intros. rewrite <- Z.pow_succ_r by lia. f_equal. lia. Qed.

Lemma digits2_bounds p :
  2 ^ (Zpos (digits2_pos p) - 1) <= Zpos p < 2 ^ Zpos (digits2_pos p).
Proof.
  induction p as [p IH|p IH|]; cbn [digits2_pos]; [| |simpl; lia];
    rewrite Pos2Z.inj_succ;
    replace (Z.succ (Zpos (digits2_pos p)) - 1) with (Zpos (digits2_pos p)) by lia;
    rewrite Z.pow_succ_r by lia;
    rewrite (pow2_split (Zpos (digits2_pos p))) in * by lia; lia.
Qed.

Lemma Zdigits2_bounds m :
  0 < m -> 2 ^ (Zdigits2 m - 1) <= m < 2 ^ Zdigits2 m.
Proof. destruct m as [|p|p]; try lia. intros _. apply digits2_bounds. Qed.

Lemma Zdigits2_pos m : 0 < m -> 0 < Zdigits2 m.
Proof. destruct m; simpl; lia. Qed.

Lemma Zdigits2_unique m d :
  0 < m -> 2 ^ (d - 1) <= m < 2 ^ d -> Zdigits2 m = d.
Proof.
  intros Hm [Hlo Hhi].
  pose proof (Zdigits2_bounds m Hm) as [Hlo' Hhi'].
  pose proof (Zdigits2_pos m Hm) as Hd'.
  assert (0 < d) as Hd.
  { destruct (Z_lt_le_dec 0 d); [done|]. 
    assert (2 ^ d <= 1); [|lia].
    destruct (Z.eq_dec d 0) as [->|]; [simpl; lia|].
    rewrite Z.pow_neg_r by lia. lia. }
  destruct (Z_lt_le_dec (Zdigits2 m) d) as [Hlt|Hge].
  - assert (2 ^ Zdigits2 m <= 2 ^ (d - 1)) by (apply Z.pow_le_mono_r; lia). lia.
  - destruct (Z_lt_le_dec d (Zdigits2 m)) as [Hlt|Hge']; [|lia].
    assert (2 ^ d <= 2 ^ (Zdigits2 m - 1)) by (apply Z.pow_le_mono_r; lia). lia.
Qed.

Lemma shr_1_m mrs : 0 <= shr_m mrs -> shr_m (shr_1 mrs) = shr_m mrs / 2.
Proof.
  destruct mrs as [m r s]; simpl. intros Hm.
  destruct m as [|[p|p|]|p]; simpl; try lia; try reflexivity.
  - apply Z.div_unique with 1; lia.
  - apply Z.div_unique with 0; lia.
Qed.

Lemma iter_shr_1_m p : forall mrs,
  0 <= shr_m mrs -> shr_m (SpecFloat.iter_pos shr_1 p mrs) = shr_m mrs / 2 ^ Zpos p.
Proof.
  induction p as [p IH|p IH|]; intros mrs Hm; cbn [SpecFloat.iter_pos].
  - assert (0 <= shr_m (shr_1 mrs)) as H1 by (rewrite shr_1_m by done; apply Z.div_pos; lia).
    assert (0 <= shr_m (SpecFloat.iter_pos shr_1 p (shr_1 mrs))) as H2.
    { rewrite IH by done. apply Z.div_pos; [done|apply pow2_pos; lia]. }
    rewrite IH, IH, shr_1_m by done.
    rewrite !Z.div_div by (try apply pow2_pos; lia).
    f_equal. replace (Zpos p~1) with (1 + Zpos p + Zpos p) by lia.
    rewrite !Z.pow_add_r by lia. lia.
  - assert (0 <= shr_m (SpecFloat.iter_pos shr_1 p mrs)) as H2.
    { rewrite IH by done. apply Z.div_pos; [done|apply pow2_pos; lia]. }
    rewrite IH, IH by done.
    rewrite !Z.div_div by (try apply pow2_pos; lia).
    f_equal. replace (Zpos p~0) with (Zpos p + Zpos p) by lia.
    rewrite !Z.pow_add_r by lia. lia.
  - rewrite shr_1_m by done. done.
Qed.

Lemma shr_m_shr mrs e n :
  0 <= shr_m mrs ->
  shr_m (fst (shr mrs e n)) = shr_m mrs / 2 ^ Z.max 0 n /\ snd (shr mrs e n) = e + Z.max 0 n.
Proof.
  intros Hm. destruct n as [|p|p]; simpl.
  - rewrite Z.div_1_r. split; [done|lia].
  - rewrite iter_shr_1_m by done. done.
  - rewrite Z.div_1_r. split; [done|lia].
Qed.

Lemma shr_m_record_of_loc m l : shr_m (shr_record_of_loc m l) = m.
Proof. by destruct l as [|[]]. Qed.

Lemma round_nearest_even_range m l :
  m <= round_nearest_even m l <= m + 1.
Proof. destruct l as [|[]]; simpl; try lia. destruct (Z.even m); lia. Qed.

Lemma shr_fexp_m m e l :
  0 <= m ->
  let n := Z.max 0 (fexp prec emax (Zdigits2 m + e) - e) in
  shr_m (fst (shr_fexp prec emax m e l)) = m / 2 ^ n /\
  snd (shr_fexp prec emax m e l) = e + n.
Proof.
  intros Hm n. unfold shr_fexp.
  pose proof (shr_m_shr (shr_record_of_loc m l) e (fexp prec emax (Zdigits2 m + e) - e)) as H.
  rewrite shr_m_record_of_loc in H. by apply H.
Qed.

Lemma div_pow2_bounds mx d k :
  0 <= k -> 0 <= d -> 2 ^ (d + k) <= mx < 2 ^ (d + 1 + k) ->
  2 ^ d <= mx / 2 ^ k < 2 ^ (d + 1).
Proof.
  intros Hk Hd [Hlo Hhi].
  pose proof (pow2_pos k Hk) as Hp.
  rewrite Z.pow_add_r in Hlo, Hhi by lia.
  split.
  - apply Z.div_le_lower_bound; lia.
  - apply Z.div_lt_upper_bound; lia.
Qed.

Lemma binary_round_aux_faithful sx mx ex lx :
  let k := Zdigits2 mx - prec in
  0 < mx -> 0 <= k -> -1074 <= ex -> ex + k < emax - prec ->
  exists m e m1,
    binary_round_aux prec emax sx mx ex lx = S754_finite sx m e /\
    2 ^ 52 <= Zpos m < 2 ^ 53 /\
    mx / 2 ^ k <= m1 <= mx / 2 ^ k + 1 /\
    (Zpos m = m1 /\ e = ex + k \/ Zpos m * 2 = m1 /\ e = ex + k + 1) /\
    (k = 0 -> lx = loc_Exact -> Zpos m = mx /\ e = ex).
Proof.
  intros k Hmx Hk Hex Hov.
  pose proof (Zdigits2_bounds mx Hmx) as Hd.
  assert (2 ^ 52 <= mx / 2 ^ k < 2 ^ 53) as Hm'.
  { apply (div_pow2_bounds mx 52 k); [lia..|].
    replace (52 + k) with (Zdigits2 mx - 1) by (unfold k, prec; lia).
    replace (52 + 1 + k) with (Zdigits2 mx) by (unfold k, prec; lia). done. }
  unfold binary_round_aux.
  destruct (shr_fexp prec emax mx ex lx) as [mrs' e'] eqn:E1.
  pose proof (shr_fexp_m mx ex lx ltac:(lia)) as [Hs1 He1].
  rewrite E1 in Hs1, He1. cbn [fst snd] in Hs1, He1.
  rewrite fexp_eq in Hs1, He1.
  replace (Z.max 0 (Z.max (Zdigits2 mx + ex - 53) (-1074) - ex)) with k in Hs1, He1
    by (unfold k, prec in *; lia).
  set (m1 := round_nearest_even (shr_m mrs') (loc_of_shr_record mrs')).
  pose proof (round_nearest_even_range (shr_m mrs') (loc_of_shr_record mrs')) as Hm1.
  fold m1 in Hm1. rewrite Hs1 in Hm1.
  assert (k = 0 -> lx = loc_Exact -> m1 = mx) as Hexact.
  { intros Hk0 ->. unfold shr_fexp in E1. rewrite fexp_eq in E1.
    replace (Z.max (Zdigits2 mx + ex - 53) (-1074) - ex) with 0 in E1
      by (unfold k, prec in *; lia).
    simpl in E1. injection E1 as <- <-. done. }
  destruct (shr_fexp prec emax m1 e' loc_Exact) as [mrs'' e''] eqn:E2.
  pose proof (shr_fexp_m m1 e' loc_Exact ltac:(lia)) as [Hs2 He2].
  rewrite E2 in Hs2, He2. cbn [fst snd] in Hs2, He2.
  rewrite fexp_eq in Hs2, He2.
  destruct (Z_lt_le_dec m1 (2 ^ 53)) as [Hlt|Hge].
  - assert (Zdigits2 m1 = 53) as Hd1 by (apply Zdigits2_unique; [lia|]; split; [change (53 - 1) with 52|]; lia).
    rewrite Hd1 in Hs2, He2.
    replace (Z.max 0 (Z.max (53 + e' - 53) (-1074) - e')) with 0 in Hs2, He2 by lia.
    rewrite Z.div_1_r in Hs2. rewrite Hs2.
    destruct m1 as [|p|p] eqn:Ep; [lia| |lia].
    replace (e'' <=? emax - prec) with true by (symmetry; apply Z.leb_le; unfold emax, prec in *; lia).
    exists p, e'', (Zpos p). split; [done|]. split; [lia|]. split; [lia|]. split; [left; lia|].
    intros Hk0 Hl. specialize (Hexact Hk0 Hl). lia.
  - assert (m1 = 2 ^ 53) as Hm1eq by lia.
    assert (Zdigits2 m1 = 54) as Hd1 by (rewrite Hm1eq; reflexivity).
    rewrite Hd1 in Hs2, He2.
    replace (Z.max 0 (Z.max (54 + e' - 53) (-1074) - e')) with 1 in Hs2, He2 by lia.
    rewrite Hs2, Hm1eq. change (2 ^ 53 / 2 ^ 1) with (Zpos (2 ^ 52)).
    replace (e'' <=? emax - prec) with true by (symmetry; apply Z.leb_le; unfold emax, prec in *; lia).
    exists (2 ^ 52)%positive, e'', m1. split; [done|]. split; [done|]. split; [lia|].
    split; [right; split; [rewrite Hm1eq; reflexivity|lia]|].
    intros Hk0 Hl. specialize (Hexact Hk0 Hl).
    rewrite Hk0, Z.div_1_r in Hm'. lia.
Qed.

Lemma round_aux_ulp sx mx ex lx :
  0 < mx -> prec <= Zdigits2 mx -> -1074 <= ex -> ex + (Zdigits2 mx - prec) < emax - prec ->
  exists m e,
    binary_round_aux prec emax sx mx ex lx = S754_finite sx m e /\
    2 ^ 52 <= Zpos m < 2 ^ 53 /\
    ex <= e /\
    (Zpos m - 1) * 2 ^ (e - ex) <= mx < (Zpos m + 1) * 2 ^ (e - ex) /\
    (Zdigits2 mx = prec -> lx = loc_Exact -> Zpos m = mx /\ e = ex).
Proof.
  intros Hmx Hd Hex Hov.
  destruct (binary_round_aux_faithful sx mx ex lx Hmx ltac:(lia) Hex Hov)
    as (m & e & m1 & Hr & Hn & Hm1 & Hcase & Hexact).
  set (k := Zdigits2 mx - prec) in *.
  exists m, e. split; [done|]. split; [done|].
  assert (0 <= k) as Hk by lia.
  pose proof (pow2_pos k Hk) as Hp.
  pose proof (Z.div_mod mx (2 ^ k) ltac:(lia)) as Hdm.
  pose proof (Z.mod_pos_bound mx (2 ^ k) Hp) as Hmod.
  split; [lia|]. split.
  - destruct Hcase as [[Hm He]|[Hm He]].
    + replace (e - ex) with k by lia. nia.
    + replace (e - ex) with (k + 1) by lia. rewrite Z.pow_add_r, Z.pow_1_r by lia. nia.
  - intros Hd53 Hl. apply Hexact; [lia|done].
Qed.

Lemma Pos_iter_xO p d : Zpos (Pos.iter xO p d) = Zpos p * 2 ^ Zpos d.
Proof.
  induction d as [|d IH] using Pos.peano_ind.
  - simpl. lia.
  - rewrite Pos.iter_succ, Pos2Z.inj_xO, IH, Pos2Z.inj_succ, Z.pow_succ_r by lia. lia.
Qed.

Lemma Zdigits2_ge m n : 0 <= n -> 2 ^ n <= m -> n + 1 <= Zdigits2 m.
Proof.
  intros Hn Hm. pose proof (pow2_pos n Hn).
  pose proof (Zdigits2_bounds m ltac:(lia)) as [_ Hhi].
  destruct (Z_lt_le_dec n (Zdigits2 m)); [lia|].
  assert (2 ^ Zdigits2 m <= 2 ^ n); [|lia].
  apply Z.pow_le_mono_r; [lia|done].
Qed.

Lemma Zdigits2_le m n : 0 < m -> m < 2 ^ n -> Zdigits2 m <= n.
Proof.
  intros Hm Hlt.
  pose proof (Zdigits2_bounds m Hm) as [Hlo _].
  pose proof (Zdigits2_pos m Hm).
  destruct (Z_lt_le_dec n (Zdigits2 m)); [|lia].
  assert (2 ^ n <= 2 ^ (Zdigits2 m - 1)); [|lia].
  destruct (Z_lt_le_dec n 0); [rewrite Z.pow_neg_r in Hlt by lia; lia|].
  apply Z.pow_le_mono_r; lia.
Qed.

Lemma f64_of_int_pos n :
  0 < n < 2 ^ 53 ->
  exists m s,
    f64_of_int n = S754_finite false m (- s) /\
    s = 53 - Zdigits2 n /\ 0 <= s <= 52 /\
    Zpos m = n * 2 ^ s /\ 2 ^ 52 <= Zpos m < 2 ^ 53.
Proof.
  intros [Hn0 Hn].
  destruct n as [|p|p]; try lia.
  pose proof (digits2_bounds p) as Hb.
  pose proof (Zdigits2_le (Zpos p) 53 ltac:(lia) Hn) as Hd. cbn [Zdigits2] in Hd.
  set (d := Zpos (digits2_pos p)) in *.
  assert (0 < d) by (unfold d; lia).
  unfold f64_of_int, binary_normalize, binary_round.
  rewrite Z.add_0_r, fexp_eq. fold d.
  replace (Z.max (d - 53) (-1074)) with (d - 53) by lia.
  assert (exists mz, shl_align p 0 (d - 53) = (mz, d - 53) /\ Zpos mz = Zpos p * 2 ^ (53 - d))
    as (mz & -> & Hmz).
  { unfold shl_align. rewrite Z.sub_0_r.
    destruct (d - 53) as [|q|q] eqn:E; try lia.
    - exists p. split; [done|]. replace (53 - d) with 0 by lia. lia.
    - exists (Pos.iter xO p q). split; [done|]. rewrite Pos_iter_xO. f_equal. f_equal. lia. }
  assert (2 ^ 52 <= Zpos mz < 2 ^ 53) as Hnorm.
  { rewrite Hmz. destruct Hb as [Hlo Hhi]. fold d in Hlo, Hhi.
    assert (2 ^ 52 = 2 ^ (d - 1) * 2 ^ (53 - d)) as ->
      by (rewrite <- Z.pow_add_r by lia; f_equal; lia).
    assert (2 ^ 53 = 2 ^ d * 2 ^ (53 - d)) as ->
      by (rewrite <- Z.pow_add_r by lia; f_equal; lia).
    pose proof (pow2_pos (53 - d) ltac:(lia)). nia. }
  assert (Zdigits2 (Zpos mz) = prec) as Hdz by (apply Zdigits2_unique; [lia|done]).
  destruct (round_aux_ulp false (Zpos mz) (d - 53) loc_Exact) as (m & e & Hr & Hm & _ & _ & Hex);
    [lia|rewrite Hdz; lia|lia|rewrite Hdz; unfold emax, prec; lia|].
  destruct (Hex Hdz eq_refl) as [Hmm ->].
  exists m, (53 - d). rewrite Hr. split; [f_equal; lia|]. split; [done|]. split; [lia|].
  split; [lia|lia].
Qed.

Lemma SFdiv_core_normal m1 e1 m2 e2 :
  Zdigits2 m1 = 53 -> Zdigits2 m2 = 53 -> -1074 <= e1 - e2 - 53 ->
  SFdiv_core_binary prec emax m1 e1 m2 e2 =
    (m1 * 2 ^ 53 / m2, e1 - e2 - 53, new_location m2 ((m1 * 2 ^ 53) mod m2)).
Proof.
  intros H1 H2 He. unfold SFdiv_core_binary. rewrite H1, H2, fexp_eq.
  replace (Z.min (Z.max (53 + e1 - (53 + e2) - 53) (-1074)) (e1 - e2)) with (e1 - e2 - 53) by lia.
  replace (e1 - e2 - (e1 - e2 - 53)) with 53 by lia.
  cbv beta iota. rewrite Z.shiftl_mul_pow2 by lia.
  unfold Z.div, Z.modulo. by destruct (Z.div_eucl (m1 * 2 ^ 53) m2).
Qed.

Lemma pow2_lt_inv a b : 0 <= b -> 2 ^ a < 2 ^ b -> a < b.
Proof. intros Hb H. apply (Z.pow_lt_mono_r_iff 2); [lia|done|done]. Qed.

Lemma f64_div_lt1 b c :
  0 < b < c -> c < 2 ^ 31 ->
  exists m N,
    f64_div (f64_of_int b) (f64_of_int c) = S754_finite false m (- N) /\
    2 ^ 52 <= Zpos m < 2 ^ 53 /\ 53 <= N <= 83 /\
    (Zpos m - 1) * c <= b * 2 ^ N /\ b * 2 ^ N < (Zpos m + 1) * c /\
    Zpos m < 2 ^ N.
Proof.
  intros [Hb Hbc] Hc.
  destruct (f64_of_int_pos b ltac:(lia)) as (mb & sb & -> & Hsb & Hsbr & Hmb & Hnb).
  destruct (f64_of_int_pos c ltac:(lia)) as (mc & sc & -> & Hsc & Hscr & Hmc & Hnc).
  assert (Zdigits2 b <= Zdigits2 c) as Hdd.
  { apply Zdigits2_le; [lia|]. pose proof (Zdigits2_bounds c ltac:(lia)). lia. }
  assert (Zdigits2 c <= 31) as Hdc by (apply Zdigits2_le; lia).
  pose proof (Zdigits2_pos b Hb) as Hdb.
  unfold f64_div, SFdiv.
  rewrite SFdiv_core_normal; [ |by apply Zdigits2_unique; [lia|]..|lia].
  set (Q := Zpos mb * 2 ^ 53 / Zpos mc). set (eQ := - sb - - sc - 53).
  assert (2 ^ 52 <= Q < 2 ^ 54) as HQ.
  { split.
    - apply Z.div_le_lower_bound; [lia|].
      transitivity (2 ^ 53 * 2 ^ 52); [apply Z.mul_le_mono_nonneg_r; lia|].
      rewrite (Z.mul_comm (Zpos mb)). apply Z.mul_le_mono_nonneg_l; lia.
    - apply Z.div_lt_upper_bound; [lia|].
      apply Z.lt_le_trans with (2 ^ 53 * 2 ^ 53); [apply Z.mul_lt_mono_pos_r; lia|].
      change (2 ^ 54) with (2 ^ 52 * 4). change (2 ^ 53 * 2 ^ 53) with (2 ^ 52 * 2 ^ 54).
      lia. }
  pose proof (Zdigits2_ge Q 52 ltac:(lia) ltac:(lia)) as HdQ.
  pose proof (Zdigits2_le Q 54 ltac:(lia) ltac:(lia)) as HdQ'.
  destruct (round_aux_ulp (xorb false false) Q eQ
              (new_location (Zpos mc) ((Zpos mb * 2 ^ 53) mod Zpos mc)))
    as (m & e & Hr & Hm & Hle & [Hlo Hhi] & _);
    [lia|unfold prec; lia|unfold eQ; lia|unfold eQ, emax, prec; lia|].
  set (t := e - eQ) in *.
  assert (0 <= t <= 2) as Ht.
  { split; [lia|]. 
    assert (2 ^ t < 2 ^ 3); [|apply pow2_lt_inv in H; lia].
    change (2 ^ 3) with 8. pose proof (pow2_pos t ltac:(lia)).
    destruct (Z_lt_le_dec (2 ^ t) 8) as [|H8]; [done|exfalso].
    assert ((Zpos m - 1) * 8 <= (Zpos m - 1) * 2 ^ t) by (apply Z.mul_le_mono_nonneg_l; lia).
    lia. }
  exists m, (- e). rewrite Hr, Z.opp_involutive. split; [done|]. split; [done|].
  set (N := - e).
  assert (N = sb + 53 - sc - t) as HN by (unfold N, t, eQ; lia).
  assert (51 <= N <= 83) as HNr by lia.
  pose proof (pow2_pos sc ltac:(lia)) as Hpsc.
  pose proof (pow2_pos t ltac:(lia)) as Hpt.
  pose proof (pow2_pos N ltac:(lia)) as HpN.
  assert (2 ^ sb * 2 ^ 53 = 2 ^ N * (2 ^ t * 2 ^ sc)) as Hpow.
  { rewrite <- !Z.pow_add_r by lia. f_equal. lia. }
  pose proof (Z.div_mod (Zpos mb * 2 ^ 53) (Zpos mc) ltac:(lia)) as Hdm.
  pose proof (Z.mod_pos_bound (Zpos mb * 2 ^ 53) (Zpos mc) ltac:(lia)) as Hmod.
  fold Q in Hdm.
  assert (0 < c * 2 ^ sc) as Hcs by (apply Z.mul_pos_pos; lia).
  assert (Zpos mb * 2 ^ 53 = b * 2 ^ N * (2 ^ t * 2 ^ sc)) as Hnum.
  { rewrite Hmb, <- !Z.mul_assoc, Hpow. ring. }
  assert ((Zpos m - 1) * c <= b * 2 ^ N) as Hup.
  { apply (Z.mul_le_mono_pos_r _ _ (2 ^ t * 2 ^ sc)); [lia|].
    rewrite <- Hnum.
    transitivity (Q * Zpos mc); [|lia].
    replace ((Zpos m - 1) * c * (2 ^ t * 2 ^ sc)) with ((Zpos m - 1) * 2 ^ t * (c * 2 ^ sc)) by ring.
    rewrite Hmc. apply Z.mul_le_mono_nonneg_r; [lia|done]. }
  assert (b * 2 ^ N < (Zpos m + 1) * c) as Hdown.
  { apply (Z.mul_lt_mono_pos_r (2 ^ t * 2 ^ sc)); [lia|].
    rewrite <- Hnum.
    apply Z.lt_le_trans with ((Q + 1) * Zpos mc); [lia|].
    replace ((Zpos m + 1) * c * (2 ^ t * 2 ^ sc)) with ((Zpos m + 1) * 2 ^ t * (c * 2 ^ sc)) by ring.
    rewrite Hmc. apply Z.mul_le_mono_nonneg_r; [lia|lia]. }
  assert (Zpos m < 2 ^ N) as Hlt1.
  { destruct (Z_lt_le_dec (Zpos m) (2 ^ N)) as [|Hge]; [done|exfalso].
    assert (2 ^ 51 <= 2 ^ N) by (apply Z.pow_le_mono_r; lia).
    assert ((2 ^ N - 1) * c <= (Zpos m - 1) * c) by (apply Z.mul_le_mono_nonneg_r; lia).
    assert (b * 2 ^ N <= (c - 1) * 2 ^ N) by (apply Z.mul_le_mono_nonneg_r; lia).
    lia. }
  split; [|done].
  split; [|lia]. assert (52 < N); [|lia]. apply pow2_lt_inv; lia.
Qed.

Lemma int_of_float64_of_int z :
  0 <= z < 2 ^ 53 -> int_of_float64 (binary_normalize prec emax z 0 false) = z.
Proof.
  intros [Hz0 Hz].
  destruct (Z.eq_dec z 0) as [->|Hne]; [done|].
  destruct (f64_of_int_pos z ltac:(lia)) as (m & s & Hf & _ & Hs & Hm & _).
  unfold f64_of_int in Hf. rewrite Hf. unfold int_of_float64, cond_Zopp.
  assert ((if 0 <=? - s then Zpos m * 2 ^ (- s) else Zpos m / 2 ^ (- - s)) = z) as ->.
  { destruct (Z.leb_spec 0 (- s)).
    - replace s with 0 in * by lia. simpl. rewrite Hm. simpl; lia.
    - rewrite Z.opp_involutive, Hm. apply Z.div_mul. pose proof (pow2_pos s); lia. }
  replace (min_int <=? z) with true by (symmetry; apply Z.leb_le; unfold min_int; lia).
  replace (z <=? max_int) with true by (symmetry; apply Z.leb_le; unfold max_int; lia).
  done.
Qed.

Lemma int_floor_pos m R :
  0 <= R -> Zpos m < 2 ^ 53 ->
  int_of_float64 (math_Floor (S754_finite false m (- R))) = Zpos m / 2 ^ R.
Proof.
  intros HR Hm. unfold math_Floor.
  pose proof (pow2_pos R HR) as Hp.
  assert (floorZ false m (- R) = Zpos m / 2 ^ R) as ->.
  { unfold floorZ, cond_Zopp. destruct (Z.leb_spec 0 (- R)).
    - replace R with 0 by lia. simpl. rewrite Z.div_1_r. lia.
    - by rewrite Z.opp_involutive. }
  apply int_of_float64_of_int. split.
  - apply Z.div_pos; lia.
  - apply Z.le_lt_trans with (Zpos m); [|done].
    apply Z.div_le_upper_bound; [lia|]. 
    replace (Zpos m) with (1 * Zpos m) at 1 by lia. apply Z.mul_le_mono_nonneg_r; lia.
Qed.

Lemma f64_mul_int a m N :
  0 < a < 2 ^ 31 -> 2 ^ 52 <= Zpos m < 2 ^ 53 -> 53 <= N <= 83 ->
  exists mr R,
    f64_mul (f64_of_int a) (S754_finite false m (- N)) = S754_finite false mr (- R) /\
    2 ^ 52 <= Zpos mr < 2 ^ 53 /\ 0 <= R /\
    (Zpos mr - 1) * 2 ^ N <= a * Zpos m * 2 ^ R /\
    a * Zpos m * 2 ^ R < (Zpos mr + 1) * 2 ^ N.
Proof.
  intros Ha Hm HN.
  destruct (f64_of_int_pos a ltac:(lia)) as (ma & sa & -> & Hsa & Hsar & Hma & Hna).
  assert (Zdigits2 a <= 31) as Hda by (apply Zdigits2_le; lia).
  change (f64_mul (S754_finite false ma (- sa)) (S754_finite false m (- N)))
    with (binary_round_aux prec emax (xorb false false) (Zpos (ma * m)) (- sa + - N) loc_Exact).
  rewrite Pos2Z.inj_mul. set (P := Zpos ma * Zpos m) in *.
  assert (2 ^ 104 <= P < 2 ^ 106) as HP.
  { unfold P. split.
    - change (2 ^ 104) with (2 ^ 52 * 2 ^ 52).
      transitivity (2 ^ 52 * Zpos m); [apply Z.mul_le_mono_nonneg_l; lia|].
      apply Z.mul_le_mono_nonneg_r; lia.
    - change (2 ^ 106) with (2 ^ 53 * 2 ^ 53).
      apply Z.le_lt_trans with (Zpos ma * 2 ^ 53); [apply Z.mul_le_mono_nonneg_l; lia|].
      apply Z.mul_lt_mono_pos_r; lia. }
  pose proof (Zdigits2_ge P 104 ltac:(lia) ltac:(lia)) as HdP.
  pose proof (Zdigits2_le P 106 ltac:(lia) ltac:(lia)) as HdP'.
  destruct (round_aux_ulp (xorb false false) P (- sa + - N) loc_Exact)
    as (mr & e & Hr & Hmr & Hle & [Hlo Hhi] & _);
    [lia|unfold prec; lia|lia|unfold emax, prec; lia|].
  set (t := e - (- sa + - N)) in *.
  assert (t < 55) as Ht.
  { assert (2 ^ (51 + t) < 2 ^ 106) as H; [|apply pow2_lt_inv in H; lia].
    rewrite Z.pow_add_r by lia.
    assert (2 ^ 51 * 2 ^ t <= (Zpos mr - 1) * 2 ^ t)
      by (apply Z.mul_le_mono_nonneg_r; [pose proof (pow2_pos t); lia|lia]).
    lia. }
  exists mr, (- e). rewrite Hr, Z.opp_involutive. split; [done|]. split; [done|].
  set (R := - e).
  assert (R = sa + N - t) as HR by (unfold R, t; lia).
  assert (0 <= R) as HR0 by lia. split; [done|].
  pose proof (pow2_pos sa ltac:(lia)) as Hpsa.
  pose proof (pow2_pos R HR0) as HpR.
  assert (2 ^ t * 2 ^ R = 2 ^ N * 2 ^ sa) as Hpow.
  { rewrite <- !Z.pow_add_r by lia. f_equal. lia. }
  assert (P * 2 ^ R = a * Zpos m * 2 ^ R * 2 ^ sa) as HPR by (unfold P; rewrite Hma; ring).
  split.
  - apply (Z.mul_le_mono_pos_r _ _ (2 ^ sa)); [lia|]. rewrite <- HPR.
    replace ((Zpos mr - 1) * 2 ^ N * 2 ^ sa) with ((Zpos mr - 1) * (2 ^ N * 2 ^ sa)) by ring.
    rewrite <- Hpow, Z.mul_assoc. apply Z.mul_le_mono_nonneg_r; lia.
  - apply (Z.mul_lt_mono_pos_r (2 ^ sa)); [lia|]. rewrite <- HPR.
    replace ((Zpos mr + 1) * 2 ^ N * 2 ^ sa) with ((Zpos mr + 1) * (2 ^ N * 2 ^ sa)) by ring.
    rewrite <- Hpow, Z.mul_assoc. apply Z.mul_lt_mono_pos_r; lia.
Qed.

(** The scaled dimension as a quotient of the two roundings. *)
Lemma scaleDim_spec a b c :
  0 < a < 2 ^ 31 -> 0 < b < c -> c < 2 ^ 31 ->
  exists m N mr R,
    scaleDim a b c = Zpos mr / 2 ^ R /\
    2 ^ 52 <= Zpos m < 2 ^ 53 /\ 53 <= N <= 83 /\
    (Zpos m - 1) * c <= b * 2 ^ N /\ b * 2 ^ N < (Zpos m + 1) * c /\ Zpos m < 2 ^ N /\
    2 ^ 52 <= Zpos mr < 2 ^ 53 /\ 0 <= R /\
    (Zpos mr - 1) * 2 ^ N <= a * Zpos m * 2 ^ R /\
    a * Zpos m * 2 ^ R < (Zpos mr + 1) * 2 ^ N.
Proof.
  intros Ha Hb Hc.
  destruct (f64_div_lt1 b c Hb Hc) as (m & N & Hq & Hm & HN & Hup & Hdn & Hlt).
  destruct (f64_mul_int a m N Ha Hm HN) as (mr & R & Hr & Hmr & HR & Hup' & Hdn').
  exists m, N, mr, R. unfold scaleDim. rewrite Hq, Hr, int_floor_pos by lia. done.
Qed.

Lemma scaleDim_le a b c :
  0 < a < 2 ^ 31 -> 0 < b < c -> c < 2 ^ 31 -> 0 <= scaleDim a b c <= a.
Proof.
  intros Ha Hb Hc.
  destruct (scaleDim_spec a b c Ha Hb Hc)
    as (m & N & mr & R & -> & Hm & HN & Hup & Hdn & Hlt & Hmr & HR & Hup' & Hdn').
  pose proof (pow2_pos R HR) as HpR. pose proof (pow2_pos N ltac:(lia)) as HpN.
  split; [apply Z.div_pos; lia|].
  apply Z.div_le_upper_bound; [lia|].
  assert (a * Zpos m * 2 ^ R < a * 2 ^ R * 2 ^ N) as H1.
  { replace (a * Zpos m * 2 ^ R) with (a * 2 ^ R * Zpos m) by ring.
    apply Z.mul_lt_mono_pos_l; [apply Z.mul_pos_pos; lia|done]. }
  assert (Zpos mr - 1 < a * 2 ^ R); [|lia].
  apply (Z.mul_lt_mono_pos_r (2 ^ N)); lia.
Qed.

(** The two roundings in relative form: with [K = 2 ^ 52], the mantissa of
    the product is at most [(K / (K - 1)) ^ 2] times the exact value. *)
Lemma scaleDim_rel a b c :
  0 < a < 2 ^ 31 -> 0 < b < c -> c < 2 ^ 31 ->
  exists mr R,
    scaleDim a b c = Zpos mr / 2 ^ R /\ 0 <= R /\
    (2 ^ 52 - 1) * (2 ^ 52 - 1) * Zpos mr * c <= 2 ^ 52 * 2 ^ 52 * a * b * 2 ^ R.
Proof.
  intros Ha Hb Hc.
  destruct (scaleDim_spec a b c Ha Hb Hc)
    as (m & N & mr & R & -> & Hm & HN & Hup & Hdn & Hlt & Hmr & HR & Hup' & Hdn').
  pose proof (pow2_pos R HR) as HpR. pose proof (pow2_pos N ltac:(lia)) as HpN.
  exists mr, R. split; [done|]. split; [done|].
  set (K := 2 ^ 52) in *.
  assert ((K - 1) * Zpos mr <= K * (Zpos mr - 1)) as Hrel' by lia.
  assert ((K - 1) * Zpos m <= K * (Zpos m - 1)) as Hrel by lia.
  assert ((K - 1) * Zpos m * c <= K * b * 2 ^ N) as H2.
  { transitivity (K * (Zpos m - 1) * c); [apply Z.mul_le_mono_nonneg_r; lia|].
    rewrite <- !Z.mul_assoc. apply Z.mul_le_mono_nonneg_l; [unfold K; lia|lia]. }
  assert ((K - 1) * Zpos mr * 2 ^ N <= K * a * Zpos m * 2 ^ R) as H1.
  { transitivity (K * (Zpos mr - 1) * 2 ^ N); [apply Z.mul_le_mono_nonneg_r; lia|].
    rewrite <- !Z.mul_assoc. apply Z.mul_le_mono_nonneg_l; [unfold K; lia|lia]. }
  apply (Z.mul_le_mono_pos_r _ _ (2 ^ N)); [lia|].
  transitivity (K * a * Zpos m * 2 ^ R * ((K - 1) * c)).
  - replace ((K - 1) * (K - 1) * Zpos mr * c * 2 ^ N)
      with ((K - 1) * Zpos mr * 2 ^ N * ((K - 1) * c)) by ring.
    apply Z.mul_le_mono_nonneg_r; [unfold K; lia|done].
  - replace (K * a * Zpos m * 2 ^ R * ((K - 1) * c))
      with (K * a * 2 ^ R * ((K - 1) * Zpos m * c)) by ring.
    replace (K * K * a * b * 2 ^ R * 2 ^ N) with (K * a * 2 ^ R * (K * b * 2 ^ N)) by ring.
    apply Z.mul_le_mono_nonneg_l; [|done].
    apply Z.mul_nonneg_nonneg; [unfold K; lia|lia].
Qed.

Lemma scaleDim_zero a b c :
  0 < a -> 0 < b -> a * (b + 1) <= c -> c < 2 ^ 31 -> scaleDim a b c = 0.
Proof.
  intros Ha Hb Hc Hc31.
  assert (a < 2 ^ 31 /\ b < c /\ b < 2 ^ 31) as (Ha31 & Hbc & Hb31) by nia.
  destruct (scaleDim_rel a b c ltac:(lia) ltac:(lia) Hc31) as (mr & R & -> & HR & H3).
  pose proof (pow2_pos R HR) as HpR.
  apply Z.div_small. split; [lia|].
  destruct (Z_lt_le_dec (Zpos mr) (2 ^ R)) as [|Hge]; [done|exfalso].
  set (K := 2 ^ 52) in *.
  assert ((K - 1) * (K - 1) * c <= K * K * a * b) as H4.
  { apply (Z.mul_le_mono_pos_r _ _ (2 ^ R)); [lia|].
    transitivity ((K - 1) * (K - 1) * Zpos mr * c); [|lia].
    replace ((K - 1) * (K - 1) * Zpos mr * c) with ((K - 1) * (K - 1) * c * Zpos mr) by ring.
    apply Z.mul_le_mono_nonneg_l; [|done]. unfold K. lia. }
  assert ((K - 1) * (K - 1) * (a * (b + 1)) <= K * K * a * b) as H5.
  { transitivity ((K - 1) * (K - 1) * c); [|done].
    apply Z.mul_le_mono_nonneg_l; [unfold K; lia|done]. }
  assert ((K - 1) * (K - 1) * (b + 1) <= K * K * b) as H6.
  { apply (Z.mul_le_mono_pos_r _ _ a); [lia|]. lia. }
  unfold K in H6. lia.
Qed.

(** A zero dimension stays zero. *)
Lemma scaleDim_0 b c : 0 < b < c -> c < 2 ^ 31 -> scaleDim 0 b c = 0.
Proof.
  intros Hb Hc. unfold scaleDim.
  destruct (f64_div_lt1 b c Hb Hc) as (m & N & -> & _). reflexivity.
Qed.

(** The scaled dimension never exceeds the dimension it scales. *)
Lemma scaleDim_bound a b c :
  0 <= a < 2 ^ 31 -> 0 < b < c -> c < 2 ^ 31 -> 0 <= scaleDim a b c <= a.
Proof.
  intros Ha Hb Hc. destruct (Z.eq_dec a 0) as [->|].
  - rewrite scaleDim_0 by done. lia.
  - apply scaleDim_le; lia.
Qed.

(** It is at most one below the exact quotient. *)
Lemma scaleDim_ge a b c :
  0 < a < 2 ^ 31 -> 0 < b < c -> c < 2 ^ 31 -> exactScale a b c - 1 <= scaleDim a b c.
Proof.
  intros Ha Hb Hc. unfold exactScale.
  destruct (scaleDim_spec a b c Ha Hb Hc)
    as (m & N & mr & R & -> & Hm & HN & Hup & Hdn & Hlt & Hmr & HR & Hup' & Hdn').
  pose proof (pow2_pos R HR) as HpR. pose proof (pow2_pos N ltac:(lia)) as HpN.
  set (E := a * b / c).
  assert (E * c <= a * b) as HE.
  { rewrite Z.mul_comm. apply Z.mul_div_le. lia. }
  assert (0 <= E) as HE0 by (apply Z.div_pos; lia).
  apply Z.div_le_lower_bound; [lia|].
  assert (a < 2 ^ N) as HaN.
  { apply Z.lt_le_trans with (2 ^ 31); [lia|]. apply Z.pow_le_mono_r; lia. }
  assert (E * (2 ^ N * 2 ^ R) < (Zpos mr + 1) * 2 ^ N + a * 2 ^ R) as H1.
  { apply (Z.mul_lt_mono_pos_r c); [lia|].
    apply Z.le_lt_trans with (a * b * (2 ^ N * 2 ^ R)).
    - replace (E * (2 ^ N * 2 ^ R) * c) with (E * c * (2 ^ N * 2 ^ R)) by ring.
      apply Z.mul_le_mono_nonneg_r; [lia|done].
    - apply Z.lt_le_trans with (a * 2 ^ R * ((Zpos m + 1) * c)).
      + replace (a * b * (2 ^ N * 2 ^ R)) with (a * 2 ^ R * (b * 2 ^ N)) by ring.
        apply Z.mul_lt_mono_pos_l; [apply Z.mul_pos_pos; lia|done].
      + replace (a * 2 ^ R * ((Zpos m + 1) * c)) with ((a * Zpos m * 2 ^ R + a * 2 ^ R) * c) by ring.
        apply Z.mul_le_mono_nonneg_r; lia. }
  assert (0 <= 2 ^ R * (2 ^ N - a)) as H2 by (apply Z.mul_nonneg_nonneg; lia).
  assert (2 ^ R * (E - 1) * 2 ^ N < (Zpos mr + 1) * 2 ^ N) as H3 by lia.
  apply Z.mul_lt_mono_pos_r in H3; lia.
Qed.

(** It is at most one above the exact quotient. *)
Lemma scaleDim_le_succ a b c :
  0 < a < 2 ^ 31 -> 0 < b < c -> c < 2 ^ 31 -> scaleDim a b c <= exactScale a b c + 1.
Proof.
  intros Ha Hb Hc. unfold exactScale.
  destruct (scaleDim_spec a b c Ha Hb Hc)
    as (m & N & mr & R & -> & Hm & HN & Hup & Hdn & Hlt & Hmr & HR & Hup' & Hdn').
  pose proof (pow2_pos R HR) as HpR. pose proof (pow2_pos N ltac:(lia)) as HpN.
  set (F := Zpos mr / 2 ^ R).
  assert (F * 2 ^ R <= Zpos mr) as HF.
  { rewrite Z.mul_comm. apply Z.mul_div_le. lia. }
  assert (2 * a <= 2 ^ N) as HaN.
  { transitivity (2 ^ 32); [lia|]. apply Z.pow_le_mono_r; lia. }
  (* the exponent of the product is negative *)
  assert (Zpos mr - 1 < a * 2 ^ R) as Hmr'.
  { apply (Z.mul_lt_mono_pos_r (2 ^ N)); [lia|].
    apply Z.le_lt_trans with (a * Zpos m * 2 ^ R); [done|].
    replace (a * Zpos m * 2 ^ R) with (a * 2 ^ R * Zpos m) by ring.
    apply Z.mul_lt_mono_pos_l; [apply Z.mul_pos_pos; lia|done]. }
  assert (1 <= R) as HR1.
  { destruct (Z.eq_dec R 0) as [->|]; [|lia]. change (2 ^ 0) with 1 in Hmr'. lia. }
  assert (2 ^ R = 2 * 2 ^ (R - 1)) as HR2.
  { rewrite <- Z.pow_succ_r by lia. f_equal. lia. }
  pose proof (pow2_pos (R - 1) ltac:(lia)) as HpR1.
  assert (a * 2 ^ R <= (2 ^ R - 1) * 2 ^ N) as Hslack.
  { transitivity (2 ^ (R - 1) * 2 ^ N).
    - rewrite HR2. replace (a * (2 * 2 ^ (R - 1))) with (2 ^ (R - 1) * (2 * a)) by ring.
      apply Z.mul_le_mono_nonneg_l; lia.
    - apply Z.mul_le_mono_nonneg_r; lia. }
  assert (F - 1 <= a * b / c); [|lia].
  apply Z.div_le_lower_bound; [lia|].
  apply (Z.mul_le_mono_pos_r _ _ (2 ^ R * 2 ^ N)); [apply Z.mul_pos_pos; lia|].
  assert (c * (F - 1) * (2 ^ R * 2 ^ N) <= ((Zpos mr - 1) * 2 ^ N - (2 ^ R - 1) * 2 ^ N) * c) as H1.
  { replace (c * (F - 1) * (2 ^ R * 2 ^ N)) with ((F * 2 ^ R - 2 ^ R) * 2 ^ N * c) by ring.
    replace ((Zpos mr - 1) * 2 ^ N - (2 ^ R - 1) * 2 ^ N) with ((Zpos mr - 2 ^ R) * 2 ^ N) by ring.
    apply Z.mul_le_mono_nonneg_r; [lia|]. apply Z.mul_le_mono_nonneg_r; lia. }
  assert (a * 2 ^ R * (Zpos m * c) <= a * 2 ^ R * (b * 2 ^ N + c)) as H2.
  { apply Z.mul_le_mono_nonneg_l; [apply Z.mul_nonneg_nonneg; lia|lia]. }
  assert ((Zpos mr - 1) * 2 ^ N * c <= a * Zpos m * 2 ^ R * c) as H3.
  { apply Z.mul_le_mono_nonneg_r; [lia|done]. }
  assert (a * 2 ^ R * c <= (2 ^ R - 1) * 2 ^ N * c) as H4.
  { apply Z.mul_le_mono_nonneg_r; [lia|done]. }
  replace (a * b * (2 ^ R * 2 ^ N)) with (a * 2 ^ R * (b * 2 ^ N + c) - a * 2 ^ R * c) by ring.
  replace (a * 2 ^ R * (Zpos m * c)) with (a * Zpos m * 2 ^ R * c) in H2 by ring.
  replace (((Zpos mr - 1) * 2 ^ N - (2 ^ R - 1) * 2 ^ N) * c)
    with ((Zpos mr - 1) * 2 ^ N * c - (2 ^ R - 1) * 2 ^ N * c) in H1 by ring.
  lia.
Qed.

(** Below [2 ^ 51] the two roundings cannot lift the product over the next
    integer: the result is the exact quotient or one less. *)
Lemma scaleDim_le_exact a b c :
  0 < a < 2 ^ 31 -> 0 < b < c -> c < 2 ^ 31 -> a * b + c <= 2 ^ 51 ->
  scaleDim a b c <= exactScale a b c.
Proof.
  intros Ha Hb Hc Hsmall. unfold exactScale.
  destruct (scaleDim_rel a b c Ha Hb Hc) as (mr & R & -> & HR & H3).
  pose proof (pow2_pos R HR) as HpR.
  set (F := Zpos mr / 2 ^ R). set (E := a * b / c).
  destruct (Z_le_gt_dec F E) as [|Hgt]; [done|exfalso].
  assert (F * 2 ^ R <= Zpos mr) as HF.
  { rewrite Z.mul_comm. apply Z.mul_div_le. lia. }
  assert (E * c <= a * b) as HE.
  { rewrite Z.mul_comm. apply Z.mul_div_le. lia. }
  assert (a * b < c * Z.succ E) as HE' by (apply Z.mul_succ_div_gt; lia).
  assert (0 <= E) as HE0 by (apply Z.div_pos; lia).
  set (T := (E + 1) * c).
  assert (a * b + 1 <= T <= a * b + c) as HT by (unfold T; lia).
  set (K := 2 ^ 52) in *.
  assert ((K - 1) * (K - 1) * T <= K * K * (a * b)) as H4.
  { apply (Z.mul_le_mono_pos_r _ _ (2 ^ R)); [lia|].
    transitivity ((K - 1) * (K - 1) * Zpos mr * c); [|lia].
    replace ((K - 1) * (K - 1) * T * 2 ^ R)
      with ((K - 1) * (K - 1) * c * ((E + 1) * 2 ^ R)) by (unfold T; ring).
    replace ((K - 1) * (K - 1) * Zpos mr * c) with ((K - 1) * (K - 1) * c * Zpos mr) by ring.
    apply Z.mul_le_mono_nonneg_l; [apply Z.mul_nonneg_nonneg; unfold K; lia|].
    transitivity (F * 2 ^ R); [|done]. apply Z.mul_le_mono_nonneg_r; lia. }
  clearbody T. unfold K in H4. revert HT H4 Hsmall. generalize (a * b). lia.
Qed.

(** ** The two passes of the aspect scaler *)

Lemma targetSize_None S x y :
  targetSize S x y = None <-> S <= 0 \/ (x <= S /\ y <= S).
Proof.
  unfold targetSize.
  destruct (Z.gtb_spec S 0), (Z.gtb_spec x S), (Z.gtb_spec y S); simpl;
    repeat match goal with |- context [?a >? ?b] => destruct (Z.gtb_spec a b) end;
    split; intros Hts; try discriminate; try lia; done.
Qed.

(** Width above the bound: the first pass runs, the second one exactly when
    the recomputed height is still above the bound. *)
Lemma targetSize_wide S w h :
  0 < S -> S < w ->
  targetSize S w h =
    Some (if scaleDim h S w >? S then (scaleDim S S (scaleDim h S w), S)
          else (S, scaleDim h S w)).
Proof.
  intros HS Hw. unfold targetSize.
  destruct (Z.gtb_spec S 0); [|lia]. destruct (Z.gtb_spec w S); [|lia]. simpl.
  by destruct (scaleDim h S w >? S).
Qed.

(** Only the height above the bound: the second pass alone runs. *)
Lemma targetSize_tall S w h :
  0 < S -> w <= S -> S < h ->
  targetSize S w h = Some (scaleDim w S h, S).
Proof.
  intros HS Hw Hh. unfold targetSize.
  destruct (Z.gtb_spec S 0); [|lia]. destruct (Z.gtb_spec w S); [lia|].
  destruct (Z.gtb_spec h S); [|lia]. done.
Qed.

(** What the scaler returns is within the bound. *)
Lemma targetSize_within S w h x y :
  0 <= w < 2 ^ 31 -> 0 <= h < 2 ^ 31 ->
  targetSize S w h = Some (x, y) ->
  0 < S /\ 0 <= x <= S /\ 0 <= y <= S.
Proof.
  intros Hw Hh Hts.
  assert (0 < S) as HS.
  { destruct (Z_lt_le_dec 0 S); [done|].
    assert (targetSize S w h = None) as HN by (apply targetSize_None; lia). congruence. }
  split; [done|].
  destruct (Z_lt_le_dec S w) as [Hlt|Hle].
  - rewrite targetSize_wide in Hts by done.
    pose proof (scaleDim_bound h S w ltac:(lia) ltac:(lia) ltac:(lia)) as Hy1.
    destruct (Z.gtb_spec (scaleDim h S w) S) as [Hgt|Hngt]; injection Hts as <- <-.
    + pose proof (scaleDim_bound S S (scaleDim h S w) ltac:(lia) ltac:(lia) ltac:(lia)). lia.
    + lia.
  - destruct (Z_lt_le_dec S h) as [Hlt|Hle'].
    + rewrite targetSize_tall in Hts by done. injection Hts as <- <-.
      pose proof (scaleDim_bound w S h ltac:(lia) ltac:(lia) ltac:(lia)). lia.
    + assert (targetSize S w h = None) as HN by (apply targetSize_None; lia). congruence.
Qed.

(** Extreme landscape: the height is scaled to zero. *)
Lemma targetSize_zero_height S w h :
  0 < S -> 0 < h -> h * (S + 1) <= w -> w < 2 ^ 31 ->
  targetSize S w h = Some (S, 0).
Proof.
  intros HS Hh Hw Hw31.
  assert (S < w) by nia.
  rewrite targetSize_wide by done.
  rewrite (scaleDim_zero h S w) by lia.
  destruct (Z.gtb_spec 0 S); [lia|done].
Qed.

(** Extreme portrait: the width is scaled to zero. *)
Lemma targetSize_zero_width S w h :
  0 < S -> 0 < w -> w * (S + 2) <= h -> h < 2 ^ 31 ->
  targetSize S w h = Some (0, S).
Proof.
  intros HS Hw Hh Hh31.
  assert (S < h /\ w < 2 ^ 31 /\ S < 2 ^ 31) as (HSh & Hw31 & HS31) by nia.
  destruct (Z_lt_le_dec S w) as [Hlt|Hle].
  - rewrite targetSize_wide by done.
    pose proof (scaleDim_bound h S w ltac:(lia) ltac:(lia) ltac:(lia)) as Hy1.
    pose proof (scaleDim_ge h S w ltac:(lia) ltac:(lia) ltac:(lia)) as Hge.
    assert (S * (S + 2) <= exactScale h S w) as Hex.
    { unfold exactScale. apply Z.div_le_lower_bound; [lia|].
      replace (w * (S * (S + 2))) with (w * (S + 2) * S) by ring.
      apply Z.mul_le_mono_nonneg_r; lia. }
    assert (S * (S + 1) <= scaleDim h S w) as Hbig by nia.
    destruct (Z.gtb_spec (scaleDim h S w) S) as [Hgt|Hngt]; [|nia].
    rewrite (scaleDim_zero S S (scaleDim h S w)) by lia. done.
  - rewrite targetSize_tall by lia.
    rewrite (scaleDim_zero w S h) by nia. done.
Qed.

(** ** One object: the paths of [handleBlob] *)

Lemma fresh_key_ne {A} (m : gmap string A) k : is_Some (m !! k) -> fresh (dom m) <> k.
Proof.
  intros Hk Heq. apply elem_of_dom in Hk. rewrite <- Heq in Hk.
  by apply is_fresh in Hk.
Qed.

Lemma lookup_insert_fresh {A} (m : gmap string A) x k :
  is_Some (m !! k) -> <[fresh (dom m) := x]> m !! k = m !! k.
Proof. intros Hk. apply lookup_insert_ne. by apply fresh_key_ne. Qed.

Ltac hb_leaf :=
  eexists _, _, _; split; [reflexivity|]; cbn;
  split; [rewrite <- ?app_assoc; reflexivity|];
  split; [reflexivity|]; split; [reflexivity|]; split; [reflexivity|].

Ltac hb_tail_ok :=
  cbn; unfold Image_eqb; cbn; rewrite ?Z.eqb_refl, ?String.eqb_refl; reflexivity.

Ltac hb_shape Himg Hts :=
  split;
  [right; right; split; [reflexivity|]; split; [reflexivity|]; eexists _, _;
   split; [exact Himg|];
   split; [unfold resize_events; rewrite Hts; reflexivity
          |unfold resized; rewrite Hts; hb_tail_ok]
  |].

Ltac hb_faults :=
  cbn [any_fault nth_fault];
  repeat match goal with H : hd false _ = _ |- _ => rewrite ?H; clear H end;
  reflexivity.

Ltac hb_unchanged :=
  left; split; [reflexivity|]; split; [right; reflexivity|];
  split; [right; right; hb_faults|];
  split; [reflexivity|];
  intros k Hk; cbn; rewrite ?lookup_insert_fresh by done; reflexivity.

(** Every run of [handleBlob] returns and leaves the Go heap alone.  Its
    calls have the shape [run_shape]; and either it hands back its argument,
    having met an unsupported type or a failed call and having deleted
    nothing, or it goes through the whole sequence decode, (resize), create,
    encode, close, key, stat, delete and returns the new object. *)
Lemma handleBlob_run options blob w :
  exists blob' w' evs,
    handleBlob options blob w = Some (blob', w') /\
    trace w' = trace w ++ evs /\
    arrays w' = arrays w /\ gomaps w' = gomaps w /\ range_seed w' = range_seed w /\
    run_shape options blob w evs /\
    ((blob' = blob /\
      (validateMimeType blob = false \/ existsb failed_step evs = true) /\
      (validateMimeType blob = false \/ stored_image w (BlobKey blob) = None \/
       any_fault 6 (faults w) = true) /\
      forallb (fun ev => negb (is_delete ev)) evs = true /\
      (forall k, is_Some (store w !! k) -> store w' !! k = store w !! k))
     \/
     (exists img deleted,
        let newKey := fresh (dom (store w)) in
        let new := <[newKey := mkStored "image/jpeg" (JpegBytes (Quality options) (resized options img))]> (store w) in
        stored_image w (BlobKey blob) = Some img /\
        blob' = mkBlobInfo newKey "image/jpeg" /\
        evs = success_events options blob img newKey deleted /\
        store w' = (if deleted : bool then delete (BlobKey blob) new else new) /\
        any_fault 6 (faults w) = false /\ deleted = negb (nth_fault 6 (faults w)))).
Proof.
  unfold handleBlob, run_shape.
  destruct (validateMimeType blob) eqn:Hv; cbn [negb].
  2:{ exists blob, w, []. rewrite app_nil_r. repeat split; try done; [by left|].
      left. repeat split; auto. }
  unfold image_Decode, blobstore_Create, jpeg_Encode, writer_Close, writer_Key, blobstore_Stat,
    deleteOldBlob, blobstore_Delete, resize_Resize, next_fault, get_store, modify_store, emit.
  unfold mbind, M_bind, mret, M_ret. cbn.
  destruct (hd false (faults w)) eqn:F1; cbn.
  { hb_leaf. split; [right; left; auto|]. left. split; [done|]. split; [by right|].
    split; [right; right; hb_faults|]. by split. }
  destruct (store w !! BlobKey blob) as [sb|] eqn:Hst; cbn.
  2:{ assert (stored_image w (BlobKey blob) = None) by (unfold stored_image; by rewrite Hst).
      hb_leaf. split; [right; left; repeat split; auto|].
      left. split; [done|]. split; [by right|]. split; [by right; left|]. by split. }
  destruct (decodeBytes (blob_data sb)) as [img|] eqn:Hdec; cbn.
  2:{ assert (stored_image w (BlobKey blob) = None) by (unfold stored_image; by rewrite Hst).
      hb_leaf. split; [right; left; repeat split; auto|].
      left. split; [done|]. split; [by right|]. split; [by right; left|]. by split. }
  assert (stored_image w (BlobKey blob) = Some img) as Himg
    by (unfold stored_image; rewrite Hst; exact Hdec).
  destruct (targetSize (Size options) (MaxX img) (MaxY img)) as [[size_x size_y]|] eqn:Hts; cbn.
  all: destruct (hd false (tail (faults w))) eqn:F2; cbn;
    [hb_leaf; hb_shape Himg Hts; hb_unchanged|].
  all: destruct (hd false (tail (tail (faults w)))) eqn:F3; cbn.
  all: destruct (hd false (tail (tail (tail (faults w))))) eqn:F4; cbn;
    try (hb_leaf; hb_shape Himg Hts; hb_unchanged).
  all: destruct (hd false (tail (tail (tail (tail (faults w)))))) eqn:F5; cbn;
    try (hb_leaf; hb_shape Himg Hts; hb_unchanged).
  all: rewrite lookup_insert_eq; cbn.
  all: destruct (hd false (tail (tail (tail (tail (tail (faults w))))))) eqn:F6; cbn;
    try (hb_leaf; hb_shape Himg Hts; hb_unchanged).
  all: destruct (hd false (tail (tail (tail (tail (tail (tail (faults w)))))))) eqn:F7; cbn.
  all: hb_leaf; hb_shape Himg Hts; right; eexists img, _;
    unfold success_events, resize_events, resized; rewrite Hts; cbn;
    (split; [exact Himg|]); (split; [reflexivity|]); (split; [reflexivity|]);
    (split; [reflexivity|]); split; hb_faults.
Qed.

Lemma resize_events_no_failed options img :
  existsb failed_step (resize_events options img) = false.
Proof. unfold resize_events. by destruct (targetSize _ _ _) as [[??]|]. Qed.

Lemma success_events_no_failed options blob img key deleted :
  existsb failed_step (success_events options blob img key deleted) = false.
Proof.
  unfold success_events. rewrite !existsb_app, resize_events_no_failed. reflexivity.
Qed.

Lemma existsb_elem_of {A} (f : A -> bool) (l : list A) :
  existsb f l = true <-> exists x, x ∈ l /\ f x = true.
Proof.
  rewrite existsb_exists. split; intros (x & Hx & Hf); exists x; split; try done;
    by apply list_elem_of_In.
Qed.

Lemma forallb_elem_of {A} (f : A -> bool) (l : list A) :
  forallb f l = true <-> forall x, x ∈ l -> f x = true.
Proof.
  rewrite forallb_forall. split; intros H x Hx; apply H; by apply list_elem_of_In.
Qed.

Lemma no_delete_elem_of evs :
  forallb (fun ev => negb (is_delete ev)) evs = true -> forall k ok, EvDelete k ok ∉ evs.
Proof.
  intros H k ok Hin. rewrite forallb_elem_of in H. by specialize (H _ Hin).
Qed.

Lemma success_events_lookup options blob img key deleted i ev :
  success_events options blob img key deleted !! i = Some ev ->
  match ev with
  | EvDelete k ok =>
      k = BlobKey blob /\ exists j, i = S j /\
      success_events options blob img key deleted !! j = Some (EvStat key true)
  | _ => failed_step ev = false
  end.
Proof.
  unfold success_events, resize_events.
  destruct (targetSize _ _ _) as [[x y]|]; cbn;
    do 8 (destruct i as [|i]; cbn; [intros [= <-]; cbn; eauto|]);
    try (destruct i as [|i]; cbn; [intros [= <-]; cbn; eauto|]);
    intros H; try discriminate; by destruct i.
Qed.

(** ** C4: [handleBlob] never fails its caller *)

(** C4.  For every options, reference and state, [handleBlob] returns (no
    panic, and it has no error result); the Go heap of the caller is left as
    it was; and on every failure path, that is when the content type is not
    supported or a collaborator call (decode, create, encode, close, key,
    stat) reports an error, the reference handed in is returned, no delete
    is issued and every object the store held is still there, unchanged. *)
Theorem handleBlob_never_fails options blob w :
  exists blob' w' evs,
    handleBlob options blob w = Some (blob', w') /\
    trace w' = trace w ++ evs /\
    arrays w' = arrays w /\ gomaps w' = gomaps w /\
    ((validateMimeType blob = false \/ exists ev, ev ∈ evs /\ failed_step ev = true) ->
     blob' = blob /\
     (forall k ok, EvDelete k ok ∉ evs) /\
     (forall k, is_Some (store w !! k) -> store w' !! k = store w !! k)).
Proof.
  destruct (handleBlob_run options blob w)
    as (blob' & w' & evs & Hrun & Htr & Harr & Hmaps & _ & Hshape & Hout).
  exists blob', w', evs. repeat (split; [done|]).
  intros Hfail. destruct Hout as [(-> & _ & _ & Hnd & Hst)|(img & deleted & Himg & _ & -> & _)].
  - split; [done|]. split; [by apply no_delete_elem_of|done].
  - exfalso. destruct Hfail as [Hv|Hex].
    + destruct Hshape as [[_ Hnil]|[(_ & Hone & _)|(Hv' & _)]]; [discriminate..|congruence].
    + apply existsb_elem_of in Hex. by rewrite success_events_no_failed in Hex.
Qed.

(** ** C3: the old object is deleted only after the new one is confirmed *)

(** C3.  In every run of [handleBlob], a delete is issued only for the key of
    the reference handed in, directly after the successful stat of the new
    object, and after calls that all succeeded; if any of decode, create,
    encode, close, key or stat fails, no delete is issued at all and the old
    object is still in the store. *)
Theorem delete_only_after_stat options blob w :
  exists blob' w' evs,
    handleBlob options blob w = Some (blob', w') /\
    trace w' = trace w ++ evs /\
    (forall i k ok, evs !! i = Some (EvDelete k ok) ->
       k = BlobKey blob /\
       (exists j, i = S j /\ evs !! j = Some (EvStat (BlobKey blob') true)) /\
       (forall j ev, (j < i)%nat -> evs !! j = Some ev -> failed_step ev = false)) /\
    (forall ev, ev ∈ evs -> failed_step ev = true ->
       (forall k ok, EvDelete k ok ∉ evs) /\
       (forall old, store w !! BlobKey blob = Some old ->
                    store w' !! BlobKey blob = Some old)).
Proof.
  destruct (handleBlob_run options blob w)
    as (blob' & w' & evs & Hrun & Htr & _ & _ & _ & Hshape & Hout).
  exists blob', w', evs. repeat (split; [done|]).
  destruct Hout as [(-> & _ & _ & Hnd & Hst)|(img & deleted & Himg & -> & -> & _)].
  - split.
    + intros i k ok Hi. exfalso.
      apply (no_delete_elem_of _ Hnd k ok). by apply list_elem_of_lookup_2 in Hi.
    + intros ev _ _. split; [by apply no_delete_elem_of|].
      intros old Hold. rewrite Hst; [done|by rewrite Hold].
  - split.
    + intros i k ok Hi. pose proof (success_events_lookup _ _ _ _ _ _ _ Hi) as (-> & j & -> & Hj).
      cbn. split; [done|]. split; [by exists j|].
      intros j' ev Hlt Hev. pose proof (success_events_lookup _ _ _ _ _ _ _ Hev) as Hok.
      by destruct ev.
    + intros ev Hin Hf. exfalso.
      assert (existsb failed_step (success_events options blob img (fresh (dom (store w))) deleted) = true)
        as Hex by (apply existsb_elem_of; eauto).
      by rewrite success_events_no_failed in Hex.
Qed.

(** ** C8: the replacement is always a JPEG at the quality of the options *)

Lemma run_shape_tail options blob w evs ev :
  run_shape options blob w evs -> ev ∈ evs ->
  ev = EvDecode (BlobKey blob) false \/ ev = EvDecode (BlobKey blob) true \/
  exists img, stored_image w (BlobKey blob) = Some img /\ hd false (faults w) = false /\
    (ev ∈ resize_events options img \/ tail_event_ok options blob (resized options img) ev = true).
Proof.
  intros [[_ ->]|[(_ & -> & _)|(_ & Hf & img & rest & Himg & -> & Hok)]] Hin.
  - by apply elem_of_nil in Hin.
  - apply list_elem_of_singleton in Hin. by left.
  - apply elem_of_cons in Hin as [->|Hin]; [by right; left|].
    right. right. exists img. split; [done|]. split; [done|].
    apply elem_of_app in Hin as [Hin|Hin]; [by left|right].
    rewrite forallb_elem_of in Hok. by apply Hok.
Qed.

Lemma resize_events_elem options img ev :
  ev ∈ resize_events options img ->
  exists x y, ev = EvResize x y /\ targetSize (Size options) (MaxX img) (MaxY img) = Some (x, y).
Proof.
  unfold resize_events. destruct (targetSize _ _ _) as [[x y]|]; intros Hin.
  - apply list_elem_of_singleton in Hin. eauto.
  - by apply elem_of_nil in Hin.
Qed.

(** What every run creates and encodes, and what a replacement stores. *)
Lemma handleBlob_output options blob w :
  exists blob' w' evs,
    handleBlob options blob w = Some (blob', w') /\
    trace w' = trace w ++ evs /\
    (forall mime ok, EvCreate mime ok ∈ evs -> mime = "image/jpeg"%string) /\
    (forall q img ok, EvEncode q img ok ∈ evs -> q = Quality options) /\
    (blob' <> blob ->
     ContentType blob' = "image/jpeg"%string /\
     exists src,
       stored_image w (BlobKey blob) = Some src /\
       store w' !! BlobKey blob' =
         Some (mkStored "image/jpeg" (JpegBytes (Quality options) (resized options src)))).
Proof.
  destruct (handleBlob_run options blob w)
    as (blob' & w' & evs & Hrun & Htr & _ & _ & _ & Hshape & Hout).
  exists blob', w', evs. repeat (split; [done|]).
  split; [|split].
  - intros mime ok Hin.
    destruct (run_shape_tail _ _ _ _ _ Hshape Hin) as [?|[?|(img & _ & _ & [Hr|Hok])]];
      try discriminate.
    + apply resize_events_elem in Hr as (? & ? & ? & _). discriminate.
    + cbn in Hok. by apply String.eqb_eq in Hok.
  - intros q img ok Hin.
    destruct (run_shape_tail _ _ _ _ _ Hshape Hin) as [?|[?|(img' & _ & _ & [Hr|Hok])]];
      try discriminate.
    + apply resize_events_elem in Hr as (? & ? & ? & _). discriminate.
    + cbn in Hok. apply andb_true_iff in Hok as [Hq _]. by apply Z.eqb_eq in Hq.
  - intros Hne. destruct Hout as [(-> & _)|(img & deleted & Himg & -> & _ & Hst & _)]; [done|].
    cbn. split; [done|]. exists img. split; [done|].
    assert (fresh (dom (store w)) <> BlobKey blob) as Hfresh.
    { apply fresh_key_ne. unfold stored_image in Himg.
      destruct (store w !! BlobKey blob); [done|discriminate]. }
    rewrite Hst. destruct deleted.
    + rewrite lookup_delete_ne by done. apply lookup_insert_eq.
    + apply lookup_insert_eq.
Qed.

(** A reference of a supported type to an object that holds an image is
    replaced whenever none of the six calls up to [blobstore.Stat] fails. *)
Lemma handleBlob_replaces options blob w img :
  validateMimeType blob = true -> stored_image w (BlobKey blob) = Some img ->
  any_fault 6 (faults w) = false ->
  exists blob' w' deleted,
    handleBlob options blob w = Some (blob', w') /\
    trace w' = trace w ++ success_events options blob img (BlobKey blob') deleted /\
    blob' <> blob /\ ContentType blob' = "image/jpeg"%string /\
    store w' !! BlobKey blob' =
      Some (mkStored "image/jpeg" (JpegBytes (Quality options) (resized options img))).
Proof.
  intros Hv Himg Hany.
  destruct (handleBlob_run options blob w)
    as (blob' & w' & evs & Hrun & Htr & _ & _ & _ & _ & Hout).
  destruct Hout as [(_ & _ & [?|[?|?]] & _)|(img' & deleted & Himg' & -> & -> & Hst & _)];
    [congruence..|].
  rewrite Himg in Himg'. injection Himg' as <-.
  assert (fresh (dom (store w)) <> BlobKey blob) as Hfresh.
  { apply fresh_key_ne. unfold stored_image in Himg.
    destruct (store w !! BlobKey blob); [done|discriminate]. }
  eexists _, w', deleted. split; [exact Hrun|]. split; [exact Htr|].
  split; [intros Heq; apply Hfresh; by rewrite <- Heq|]. split; [done|].
  rewrite Hst. cbn. destruct deleted.
  - rewrite lookup_delete_ne by done. apply lookup_insert_eq.
  - apply lookup_insert_eq.
Qed.

(** C8.  Whatever the format of the source (the statement holds for every
    stored object, so for JPEG, PNG and GIF bytes alike), every writer
    [handleBlob] opens is opened for image/jpeg and every encoding is made at
    [options.Quality]; the object that replaces the original has content type
    image/jpeg and holds the JPEG encoding, at that quality, of the decoded
    and possibly resized source: never PNG or GIF bytes.  And a reference of
    a supported type to an object that holds PNG, GIF or JPEG bytes is
    replaced, when none of the six collaborator calls up to [blobstore.Stat]
    fails: the writer is created for image/jpeg, the image is encoded at
    [options.Quality], and the reference returned is a new one, of type
    image/jpeg, to the object that holds this encoding. *)
Theorem replacement_is_jpeg options blob w :
  exists blob' w' evs,
    handleBlob options blob w = Some (blob', w') /\
    trace w' = trace w ++ evs /\
    (forall mime ok, EvCreate mime ok ∈ evs -> mime = "image/jpeg"%string) /\
    (forall q img ok, EvEncode q img ok ∈ evs -> q = Quality options) /\
    (blob' <> blob ->
     ContentType blob' = "image/jpeg"%string /\
     exists src,
       stored_image w (BlobKey blob) = Some src /\
       store w' !! BlobKey blob' =
         Some (mkStored "image/jpeg" (JpegBytes (Quality options) (resized options src))) /\
       (forall img, store w' !! BlobKey blob' <> Some (mkStored "image/jpeg" (PngBytes img))) /\
       (forall img, store w' !! BlobKey blob' <> Some (mkStored "image/jpeg" (GifBytes img)))) /\
    (forall sb img,
       validateMimeType blob = true ->
       store w !! BlobKey blob = Some sb ->
       (blob_data sb = PngBytes img \/ blob_data sb = GifBytes img \/
        exists q, blob_data sb = JpegBytes q img) ->
       any_fault 6 (faults w) = false ->
       blob' <> blob /\ ContentType blob' = "image/jpeg"%string /\
       EvCreate "image/jpeg" true ∈ evs /\
       EvEncode (Quality options) (resized options img) true ∈ evs /\
       store w' !! BlobKey blob' =
         Some (mkStored "image/jpeg" (JpegBytes (Quality options) (resized options img)))).
Proof.
  destruct (handleBlob_output options blob w) as (blob' & w' & evs & Hrun & Htr & Hc & He & Hnew).
  exists blob', w', evs. repeat (split; [done|]). split.
  - intros Hne. destruct (Hnew Hne) as (Hct & src & Hsrc & Hst).
    split; [done|]. exists src. rewrite Hst. by repeat split.
  - intros sb img Hv Hsb Hdata Hany.
    assert (stored_image w (BlobKey blob) = Some img) as Himg.
    { unfold stored_image. rewrite Hsb. cbn.
      destruct Hdata as [->|[->|[q ->]]]; reflexivity. }
    destruct (handleBlob_replaces options blob w img Hv Himg Hany)
      as (blob2 & w2 & deleted & Hrun2 & Htr2 & Hne & Hct & Hst).
    rewrite Hrun in Hrun2. injection Hrun2 as <- <-.
    rewrite Htr in Htr2. apply app_inv_head in Htr2. subst evs.
    split; [done|]. split; [done|]. unfold success_events.
    split; [|split; [|done]].
    + apply elem_of_app. right. apply elem_of_app. right. apply elem_of_cons. by left.
    + apply elem_of_app. right. apply elem_of_app. right.
      apply elem_of_cons. right. apply elem_of_cons. by left.
Qed.

(** ** C7: running the replacement again does not scale again *)

(** A decodable image that the scaler has handled is within the bound. *)
Lemma resized_within options img :
  decodable img ->
  targetSize (Size options) (MaxX (resized options img)) (MaxY (resized options img)) = None.
Proof.
  intros [Hx Hy]. unfold resized.
  destruct (targetSize (Size options) (MaxX img) (MaxY img)) as [[x y]|] eqn:Hts; [|done].
  apply targetSize_within in Hts as (HS & Hx' & Hy'); [|done..].
  apply targetSize_None. cbn. lia.
Qed.

Lemma resized_id options img :
  targetSize (Size options) (MaxX img) (MaxY img) = None -> resized options img = img.
Proof. unfold resized. by intros ->. Qed.

(** C7.  Let a first run of [handleBlob] replace a (decodable) image.  The
    object it stored is a JPEG at [options.Quality] whose dimensions satisfy
    the bound: the scaler reports no change for them.  Running [handleBlob]
    again on the new reference, with the same options, in any state that
    still holds that object, requests no resize; and if this second run
    replaces the object, what it stores is again image/jpeg, JPEG-encoded at
    the same quality, with the same dimensions. *)
Theorem replace_again_is_stable options blob w blob1 w1 :
  (forall img, stored_image w (BlobKey blob) = Some img -> decodable img) ->
  handleBlob options blob w = Some (blob1, w1) ->
  blob1 <> blob ->
  exists img1,
    store w1 !! BlobKey blob1 = Some (mkStored "image/jpeg" (JpegBytes (Quality options) img1)) /\
    ContentType blob1 = "image/jpeg"%string /\
    targetSize (Size options) (MaxX img1) (MaxY img1) = None /\
    forall w2, store w2 !! BlobKey blob1 = store w1 !! BlobKey blob1 ->
      exists blob2 w3 evs,
        handleBlob options blob1 w2 = Some (blob2, w3) /\
        trace w3 = trace w2 ++ evs /\
        (forall x y, EvResize x y ∉ evs) /\
        (forall q img ok, EvEncode q img ok ∈ evs -> q = Quality options /\ img = img1) /\
        (blob2 <> blob1 ->
         ContentType blob2 = "image/jpeg"%string /\
         store w3 !! BlobKey blob2 =
           Some (mkStored "image/jpeg" (JpegBytes (Quality options) img1))).
Proof.
  intros Hdec Hrun1 Hne.
  destruct (handleBlob_output options blob w)
    as (blob' & w' & evs & Hrun & _ & _ & _ & Hnew).
  rewrite Hrun1 in Hrun. injection Hrun as <- <-.
  destruct (Hnew Hne) as (Hct & src & Hsrc & Hst1).
  exists (resized options src). split; [done|]. split; [done|].
  pose proof (resized_within options src (Hdec _ Hsrc)) as Hnone.
  split; [done|].
  intros w2 Hw2.
  assert (stored_image w2 (BlobKey blob1) = Some (resized options src)) as Himg2.
  { unfold stored_image. by rewrite Hw2, Hst1. }
  destruct (handleBlob_run options blob1 w2)
    as (blob2 & w3 & evs2 & Hrun2 & Htr2 & _ & _ & _ & Hshape2 & _).
  destruct (handleBlob_output options blob1 w2)
    as (blob2' & w3' & evs2' & Hrun2' & _ & _ & _ & Hnew2).
  rewrite Hrun2 in Hrun2'. injection Hrun2' as <- <-.
  exists blob2, w3, evs2. repeat (split; [done|]).
  split; [|split].
  - intros x y Hin.
    destruct (run_shape_tail _ _ _ _ _ Hshape2 Hin) as [?|[?|(img & Himg & _ & [Hr|Hok])]];
      try discriminate.
    rewrite Himg2 in Himg. injection Himg as <-.
    apply resize_events_elem in Hr as (x' & y' & _ & Hts). congruence.
  - intros q img ok Hin.
    destruct (run_shape_tail _ _ _ _ _ Hshape2 Hin) as [?|[?|(img' & Himg & _ & [Hr|Hok])]];
      try discriminate.
    + apply resize_events_elem in Hr as (? & ? & ? & _). discriminate.
    + rewrite Himg2 in Himg. injection Himg as <-.
      cbn in Hok. apply andb_true_iff in Hok as [Hq Hi]. apply Z.eqb_eq in Hq.
      split; [done|]. rewrite resized_id in Hi by done.
      unfold Image_eqb in Hi. apply andb_true_iff in Hi as [Hx Hy].
      apply Z.eqb_eq in Hx, Hy. destruct img, (resized options src); cbn in *; congruence.
  - intros Hne2. destruct (Hnew2 Hne2) as (Hct2 & src2 & Hsrc2 & Hst2).
    split; [done|]. rewrite Himg2 in Hsrc2. injection Hsrc2 as <-.
    by rewrite resized_id in Hst2.
Qed.

(** ** C1: the two passes, as the code computes them *)

(** C1 (amended).  For an image whose width and height both exceed a
    positive [Size] (and fit in 31 bits), the first pass sets the width to
    [Size] and the height to [scaleDim height Size width], the binary64 value
    of [float64(height) * (float64(Size) / float64(width))] rounded down; this
    is within one of the exact [floor (height * Size / width)], never above it
    when [height * Size + width <= 2 ^ 51], and at most [height].  If and only
    if that height still exceeds [Size], the second pass sets the height to
    [Size] and the width to [scaleDim Size Size height1], which is at most
    [Size].  In both cases the larger resulting dimension is [Size]. *)
Theorem targetSize_two_pass S w h :
  0 < S -> S < w < 2 ^ 31 -> S < h < 2 ^ 31 ->
  let h1 := scaleDim h S w in
  exactScale h S w - 1 <= h1 <= exactScale h S w + 1 /\
  (h * S + w <= 2 ^ 51 -> h1 <= exactScale h S w) /\
  h1 <= h /\
  (h1 <= S -> targetSize S w h = Some (S, h1)) /\
  (S < h1 -> targetSize S w h = Some (scaleDim S S h1, S) /\ 0 <= scaleDim S S h1 <= S) /\
  (forall x y, targetSize S w h = Some (x, y) -> Z.max x y = S).
Proof.
  intros HS Hw Hh h1.
  pose proof (scaleDim_bound h S w ltac:(lia) ltac:(lia) ltac:(lia)) as Hb. fold h1 in Hb.
  pose proof (scaleDim_ge h S w ltac:(lia) ltac:(lia) ltac:(lia)) as Hge. fold h1 in Hge.
  pose proof (scaleDim_le_succ h S w ltac:(lia) ltac:(lia) ltac:(lia)) as Hle1. fold h1 in Hle1.
  pose proof (targetSize_wide S w h HS ltac:(lia)) as Hts. fold h1 in Hts.
  split; [lia|]. split; [|split; [lia|split; [|split]]].
  - intros Hsmall. apply scaleDim_le_exact; lia.
  - intros Hle. rewrite Hts. destruct (Z.gtb_spec h1 S); [lia|done].
  - intros Hgt. rewrite Hts. destruct (Z.gtb_spec h1 S); [|lia].
    split; [done|]. apply scaleDim_bound; lia.
  - intros x y Hxy. rewrite Hts in Hxy.
    destruct (Z.gtb_spec h1 S); injection Hxy as <- <-.
    + pose proof (scaleDim_bound S S h1 ltac:(lia) ltac:(lia) ltac:(lia)). lia.
    + lia.
Qed.

(** ** C9: a target dimension can be zero *)

(** C9.  For a positive [Size], an image at least [Size + 1] times as wide
    as it is high gets the target height 0; an image of width at most [Size]
    that is at least [Size + 1] times as high as it is wide, and any image at
    least [Size + 2] times as high as it is wide, gets the target width 0.
    Whatever size the scaler computes is the size [handleBlob] asks
    [resize.Resize] for and then encodes: no lower bound is applied. *)
Theorem zero_target_dimension :
  (forall S w h, 0 < S -> 0 < h -> h * (S + 1) <= w -> w < 2 ^ 31 ->
     targetSize S w h = Some (S, 0)) /\
  (forall S w h, 0 < S -> 0 < w <= S -> w * (S + 1) <= h -> h < 2 ^ 31 ->
     targetSize S w h = Some (0, S)) /\
  (forall S w h, 0 < S -> 0 < w -> w * (S + 2) <= h -> h < 2 ^ 31 ->
     targetSize S w h = Some (0, S)) /\
  (forall options blob w img x y,
     validateMimeType blob = true -> hd false (faults w) = false ->
     stored_image w (BlobKey blob) = Some img ->
     targetSize (Size options) (MaxX img) (MaxY img) = Some (x, y) ->
     exists blob' w' evs,
       handleBlob options blob w = Some (blob', w') /\
       trace w' = trace w ++ evs /\
       EvResize x y ∈ evs /\
       (forall q i ok, EvEncode q i ok ∈ evs -> i = mkImage x y)).
Proof.
  split; [|split; [|split]].
  - intros. by apply targetSize_zero_height.
  - intros S w h HS Hw Hh Hh31.
    assert (S < h) by nia.
    rewrite targetSize_tall by lia. rewrite (scaleDim_zero w S h) by lia. done.
  - intros. by apply targetSize_zero_width.
  - intros options blob w img x y Hv Hf Himg Hts.
    destruct (handleBlob_run options blob w)
      as (blob' & w' & evs & Hrun & Htr & _ & _ & _ & Hshape & _).
    exists blob', w', evs. repeat (split; [done|]).
    destruct Hshape as [[Hv' _]|[(_ & _ & [Hf'|Hn])|(_ & _ & img' & rest & Himg' & -> & Hok)]];
      [congruence..|].
    rewrite Himg in Himg'. injection Himg' as <-.
    unfold resize_events, resized in *. rewrite Hts in *. split.
    + apply elem_of_cons. right. apply elem_of_app. left. apply list_elem_of_singleton. done.
    + intros q i ok Hin. apply elem_of_cons in Hin as [?|Hin]; [discriminate|].
      apply elem_of_app in Hin as [Hin|Hin];
        [apply list_elem_of_singleton in Hin; discriminate|].
      rewrite forallb_elem_of in Hok. specialize (Hok _ Hin). cbn in Hok.
      apply andb_true_iff in Hok as [_ Hi]. unfold Image_eqb in Hi. cbn in Hi.
      apply andb_true_iff in Hi as [Hx Hy]. apply Z.eqb_eq in Hx, Hy.
      destruct i; cbn in *; congruence.
Qed.

(** ** C5: the mime-type gate *)

Lemma allowedMimeTypes_lookup s :
  default false (allowedMimeTypes !! s) = true <-> s ∈ supportedTypes.
Proof.
  unfold allowedMimeTypes, supportedTypes.
  rewrite !lookup_insert, lookup_empty.
  rewrite !elem_of_cons, elem_of_nil.
  repeat case_decide; subst; cbn; split; intros Hs; try done; try tauto.
  destruct Hs as [->|[->|[->|[->|[]]]]]; congruence.
Qed.

Lemma ToLower_ascii s : is_ascii s = true -> ToLower s = map_bytes lower_byte s.
Proof. unfold ToLower. by intros ->. Qed.

Lemma validateMimeType_true blob :
  validateMimeType blob = true <-> ToLower (ContentType blob) ∈ supportedTypes.
Proof. apply allowedMimeTypes_lookup. Qed.

Lemma validateMimeType_supported key t :
  t ∈ supportedTypes -> validateMimeType (mkBlobInfo key t) = true.
Proof.
  intros Ht. apply validateMimeType_true. cbn.
  unfold supportedTypes in Ht. rewrite !elem_of_cons, elem_of_nil in Ht.
  destruct Ht as [->|[->|[->|[->|[]]]]]; rewrite ToLower_ascii by reflexivity;
    unfold supportedTypes; rewrite !elem_of_cons;
    repeat (first [left; reflexivity | right]).
Qed.

(** C5.  [validateMimeType] is a total boolean function.  It returns [true]
    exactly when the lower-cased content type is one of image/jpeg,
    image/jpg, image/png, image/gif, and [false] for every other string; for
    an ASCII content type the lower-casing maps ['A'..'Z'] to ['a'..'z'] and
    nothing else, so the four types are accepted in any letter case; and the
    four types themselves are accepted. *)
Theorem validateMimeType_exact :
  (forall blob, validateMimeType blob = true <-> ToLower (ContentType blob) ∈ supportedTypes) /\
  (forall blob, validateMimeType blob = false <-> ToLower (ContentType blob) ∉ supportedTypes) /\
  (forall blob, is_ascii (ContentType blob) = true ->
     (validateMimeType blob = true <->
      map_bytes lower_byte (ContentType blob) ∈ supportedTypes)) /\
  (forall key t, t ∈ supportedTypes -> validateMimeType (mkBlobInfo key t) = true).
Proof.
  split; [apply validateMimeType_true|]. split; [|split].
  - intros blob. rewrite <- validateMimeType_true. by destruct (validateMimeType blob).
  - intros blob Hascii. by rewrite validateMimeType_true, ToLower_ascii.
  - apply validateMimeType_supported.
Qed.

(** ** The batch: slices *)

Lemma bind_Some {A B} (m : M A) (f : A -> M B) w r :
  (m ≫= f) w = Some r <-> exists a w1, m w = Some (a, w1) /\ f a w1 = Some r.
Proof.
  unfold mbind, M_bind. destruct (m w) as [[a w1]|]; split.
  - intros H. by exists a, w1.
  - by intros (? & ? & [= <- <-] & H).
  - done.
  - by intros (? & ? & ? & _).
Qed.

Lemma handleBlob_frame options blob w :
  exists blob' w',
    handleBlob options blob w = Some (blob', w') /\
    arrays w' = arrays w /\ gomaps w' = gomaps w /\ range_seed w' = range_seed w.
Proof.
  destruct (handleBlob_run options blob w) as (blob' & w' & evs & H & _ & ? & ? & ? & _).
  by exists blob', w'.
Qed.

(** One iteration: it overwrites the entry at its own index, with what
    [handleBlob] returns for the entry that was there. *)
Lemma slice_body_Some options s i w w' :
  slice_body options s i w = Some (tt, w') <->
  exists arr x y w1,
    (i < sl_len s)%nat /\
    arrays w !! sl_array s = Some arr /\
    arr !! (sl_offset s + i)%nat = Some x /\
    handleBlob options x w = Some (y, w1) /\
    w' = set_arrays (insert (sl_array s) (<[(sl_offset s + i)%nat := y]> arr)) w1.
Proof.
  unfold slice_body. rewrite bind_Some. split.
  - intros (x0 & w0 & Hget & Hrest). apply bind_Some in Hrest as (y & w1 & Hhb & Hset).
    unfold slice_get in Hget. case_decide as Hi; [|done].
    destruct (arrays w !! sl_array s) as [arr|] eqn:Harr; [|done]. cbn in Hget.
    destruct (arr !! (sl_offset s + i)%nat) as [x|] eqn:Hx; [|done]. cbn in Hget.
    injection Hget as <- <-.
    destruct (handleBlob_frame options x w) as (y' & w1' & Hhb' & Ha & _).
    rewrite Hhb in Hhb'. injection Hhb' as <- <-.
    unfold slice_set in Hset. case_decide; [|done]. rewrite Ha, Harr in Hset. cbn in Hset.
    case_decide as Hlen; [|done]. injection Hset as <-.
    by exists arr, x, y, w1.
  - intros (arr & x & y & w1 & Hi & Harr & Hx & Hhb & ->).
    exists x, w. split.
    + unfold slice_get. case_decide; [|done]. rewrite Harr. cbn. by rewrite Hx.
    + apply bind_Some. exists y, w1. split; [done|].
      destruct (handleBlob_frame options x w) as (y' & w1' & Hhb' & Ha & _).
      rewrite Hhb in Hhb'. injection Hhb' as <- <-.
      unfold slice_set. case_decide; [|done]. rewrite Ha, Harr. cbn.
      apply lookup_lt_Some in Hx. by case_decide.
Qed.

(** Whenever the loop returns, it has touched nothing but entries of its own
    backing array, at the indices it ranged over. *)
Lemma slice_loop_frame options s cnt : forall start w w',
  for_each (seq start cnt) (slice_body options s) w = Some (tt, w') ->
  gomaps w' = gomaps w /\
  dom (arrays w') = dom (arrays w) /\
  (forall l, l <> sl_array s -> arrays w' !! l = arrays w !! l) /\
  (forall arr, arrays w !! sl_array s = Some arr ->
     exists arr', arrays w' !! sl_array s = Some arr' /\ length arr' = length arr /\
       forall j, (j < sl_offset s + start \/ sl_offset s + start + cnt <= j)%nat ->
                 arr' !! j = arr !! j).
Proof.
  induction cnt as [|cnt IH]; intros start w w' Hloop.
  - cbn in Hloop. injection Hloop as <-. repeat split; try done.
    intros arr Harr. by exists arr.
  - cbn [seq for_each] in Hloop. apply bind_Some in Hloop as ([] & w2 & Hbody & Hloop).
    apply slice_body_Some in Hbody as (arr & x & y & w1 & Hi & Harr & Hx & Hhb & ->).
    destruct (handleBlob_frame options x w) as (y' & w1' & Hhb' & Ha1 & Hm1 & _).
    rewrite Hhb in Hhb'. injection Hhb' as <- <-.
    apply IH in Hloop as (Hm & Hdom & Hother & Hown). cbn in *.
    split; [congruence|]. split.
    { rewrite Hdom, Ha1. apply dom_insert_lookup_L. by rewrite Harr. }
    split.
    { intros l Hl. rewrite Hother by done. rewrite Ha1. by apply lookup_insert_ne. }
    intros arr_ Harr_. rewrite Harr in Harr_. injection Harr_ as <-.
    destruct (Hown (<[(sl_offset s + start)%nat := y]> arr)) as (arr' & Harr' & Hlen' & Hsame').
    { apply lookup_insert_eq. }
    exists arr'. split; [done|]. split; [by rewrite Hlen', length_insert|].
    intros j Hj. rewrite Hsame' by lia. apply list_lookup_insert_ne. lia.
Qed.

Lemma handleBlobSlice_unfold options s w :
  handleBlobSlice options s w =
  match for_each (seq 0 (sl_len s)) (slice_body options s) w with
  | Some (_, w') => Some (s, w')
  | None => None
  end.
Proof. reflexivity. Qed.

(** ** The batch against the wording of the specification *)

Lemma same_service_refl w : same_service w w.
Proof. by repeat split. Qed.

Lemma same_service_sym w v : same_service w v -> same_service v w.
Proof. intros (? & ? & ?). by repeat split. Qed.

Lemma same_service_trans w v u : same_service w v -> same_service v u -> same_service w u.
Proof. intros (? & ? & ?) (? & ? & ?). repeat split; congruence. Qed.

Lemma same_service_set_arrays f w : same_service (set_arrays f w) w.
Proof. by repeat split. Qed.

(** [handleBlob] reads and writes the blobstore, the script of faults and
    the trace, and nothing of the Go heap. *)
Lemma handleBlob_heap options x st f t a g r a' g' r' :
  handleBlob options x (mkWorld st a' g' f r' t) =
  match handleBlob options x (mkWorld st a g f r t) with
  | Some (y, w1) => Some (y, mkWorld (store w1) a' g' (faults w1) r' (trace w1))
  | None => None
  end.
Proof.
  unfold handleBlob.
  destruct (validateMimeType x) eqn:Hv; cbn [negb]; [|reflexivity].
  unfold image_Decode, blobstore_Create, jpeg_Encode, writer_Close, writer_Key, blobstore_Stat,
    deleteOldBlob, blobstore_Delete, resize_Resize, next_fault, get_store, modify_store, emit.
  unfold mbind, M_bind, mret, M_ret. cbn.
  destruct (hd false f) eqn:F1; cbn; [reflexivity|].
  destruct (st !! BlobKey x) as [sb|] eqn:Hst; cbn; [|reflexivity].
  destruct (decodeBytes (blob_data sb)) as [img|] eqn:Hdec; cbn; [|reflexivity].
  destruct (targetSize (Size options) (MaxX img) (MaxY img)) as [[size_x size_y]|] eqn:Hts; cbn.
  all: destruct (hd false (tail f)) eqn:F2; cbn; [reflexivity|].
  all: destruct (hd false (tail (tail f))) eqn:F3; cbn;
    [destruct (hd false (tail (tail (tail f)))) eqn:F4; cbn; reflexivity|].
  all: destruct (hd false (tail (tail (tail f)))) eqn:F4; cbn; [reflexivity|].
  all: destruct (hd false (tail (tail (tail (tail f))))) eqn:F5; cbn; [reflexivity|].
  all: rewrite !lookup_insert_eq; cbn.
  all: destruct (hd false (tail (tail (tail (tail (tail f)))))) eqn:F6; cbn; [reflexivity|].
  all: destruct (hd false (tail (tail (tail (tail (tail (tail f))))))) eqn:F7; cbn; reflexivity.
Qed.

Lemma handleBlob_service options x w v y w1 :
  same_service w v -> handleBlob options x w = Some (y, w1) ->
  exists v1, handleBlob options x v = Some (y, v1) /\ same_service w1 v1.
Proof.
  destruct w as [st a g f r t], v as [st' a' g' f' r' t'].
  intros (Hs & Hf & Ht) Hrun. cbn in Hs, Hf, Ht. subst st' f' t'.
  rewrite (handleBlob_heap options x st f t a g r a' g' r'), Hrun.
  eexists. split; [reflexivity|]. by repeat split.
Qed.

Lemma specReplaceEach_service options xs : forall w v ys w',
  same_service w v -> specReplaceEach options xs w = Some (ys, w') ->
  exists v', specReplaceEach options xs v = Some (ys, v') /\ same_service w' v'.
Proof.
  induction xs as [|x xs IH]; intros w v ys w' Hwv Hrun.
  - cbn in Hrun. injection Hrun as <- <-. by exists v.
  - cbn [specReplaceEach] in *. apply bind_Some in Hrun as (y & w1 & Hhb & Hrest).
    apply bind_Some in Hrest as (ys' & w2 & Hxs & Hret). injection Hret as <- <-.
    destruct (handleBlob_service _ _ _ _ _ _ Hwv Hhb) as (v1 & Hhb' & Hwv1).
    destruct (IH _ _ _ _ Hwv1 Hxs) as (v2 & Hxs' & Hwv2).
    exists v2. split; [|done].
    apply bind_Some. exists y, v1. split; [done|].
    apply bind_Some. by exists ys', v2.
Qed.

Lemma specProcess_service options fields : forall w v out w',
  same_service w v -> specProcess options fields w = Some (out, w') ->
  exists v', specProcess options fields v = Some (out, v') /\ same_service w' v'.
Proof.
  induction fields as [|[k xs] fields IH]; intros w v out w' Hwv Hrun.
  - cbn in Hrun. injection Hrun as <- <-. by exists v.
  - cbn [specProcess] in *. apply bind_Some in Hrun as (ys & w1 & Hxs & Hrest).
    apply bind_Some in Hrest as (out' & w2 & Hfs & Hret). injection Hret as <- <-.
    destruct (specReplaceEach_service _ _ _ _ _ _ Hwv Hxs) as (v1 & Hxs' & Hwv1).
    destruct (IH _ _ _ _ Hwv1 Hfs) as (v2 & Hfs' & Hwv2).
    exists v2. split; [|done].
    apply bind_Some. exists ys, v1. split; [done|].
    apply bind_Some. by exists out', v2.
Qed.

(** The loop over the indices [start .. start + cnt - 1] of a slice that
    lies within its backing array: it returns, and what it leaves in these
    entries is what the specification asks for, the sequence of the entries
    that were there replaced one after the other. *)
Lemma slice_loop_exact options s cnt : forall start w arr,
  arrays w !! sl_array s = Some arr ->
  (start + cnt <= sl_len s)%nat ->
  (sl_offset s + sl_len s <= length arr)%nat ->
  exists ys w' w'',
    for_each (seq start cnt) (slice_body options s) w = Some (tt, w') /\
    specReplaceEach options (take cnt (drop (sl_offset s + start) arr)) w = Some (ys, w'') /\
    length ys = cnt /\
    same_service w' w'' /\
    gomaps w' = gomaps w /\ range_seed w' = range_seed w /\
    arrays w' =
      <[sl_array s := take (sl_offset s + start) arr ++ ys ++
                      drop (sl_offset s + start + cnt) arr]> (arrays w).
Proof.
  induction cnt as [|cnt IH]; intros start w arr Harr Hcnt Hin.
  - exists [], w, w. cbn. rewrite Nat.add_0_r, take_drop, insert_id by done.
    split; [done|]. split; [by rewrite take_0|]. split; [done|].
    split; [apply same_service_refl|]. done.
  - cbn [seq for_each].
    destruct (lookup_lt_is_Some_2 arr (sl_offset s + start)%nat ltac:(lia)) as [x Hx].
    destruct (handleBlob_frame options x w) as (y & w1 & Hhb & Ha1 & Hm1 & Hr1).
    set (arr1 := <[(sl_offset s + start)%nat := y]> arr).
    set (w2 := set_arrays (insert (sl_array s) arr1) w1).
    assert (slice_body options s start w = Some (tt, w2)) as Hbody.
    { apply slice_body_Some. exists arr, x, y, w1. repeat split; try done. lia. }
    destruct (IH (S start) w2 arr1) as (ys & w' & w'' & Hloop & Hspec & Hlen & Hsame & Hm' & Hr' & Harr').
    + cbn. apply lookup_insert_eq.
    + lia.
    + unfold arr1. by rewrite length_insert.
    + assert (take cnt (drop (sl_offset s + S start) arr1) =
              take cnt (drop (S (sl_offset s + start)) arr)) as Hrest.
      { unfold arr1. rewrite Nat.add_succ_r. by rewrite drop_insert_lt by lia. }
      rewrite Hrest in Hspec.
      destruct (specReplaceEach_service _ _ _ _ _ _ (same_service_set_arrays _ w1) Hspec)
        as (v'' & Hspec1 & Hsame1).
      exists (y :: ys), w', v''. split; [apply bind_Some; by exists tt, w2|].
      split.
      { rewrite (drop_S _ _ _ Hx). cbn [take specReplaceEach].
        apply bind_Some. exists y, w1. split; [done|].
        apply bind_Some. by exists ys, v''. }
      split; [cbn; by rewrite Hlen|].
      split; [by apply (same_service_trans _ w'')|].
      split; [by rewrite Hm'|]. split; [by rewrite Hr'|].
      rewrite Harr'. cbn. rewrite Ha1, insert_insert_eq. f_equal.
      unfold arr1. rewrite Nat.add_succ_r.
      rewrite (take_S_r _ _ y) by (apply list_lookup_insert_eq; by apply lookup_lt_Some in Hx).
      rewrite take_insert_ge by lia. rewrite drop_insert_lt by lia.
      rewrite <- !app_assoc. cbn. do 3 f_equal. f_equal. lia.
Qed.

(** [handleBlobSlice] on a slice that denotes [xs]: it returns the slice it
    was given, which now denotes what the specification asks for, in the
    array it lay in; and but for the heap the state is the one the
    replacements left. *)
Lemma handleBlobSlice_exact options s w xs :
  slice_elems w s = Some xs ->
  exists ys w' w'',
    handleBlobSlice options s w = Some (s, w') /\
    specReplaceEach options xs w = Some (ys, w'') /\
    length ys = length xs /\
    same_service w' w'' /\
    slice_elems w' s = Some ys /\
    gomaps w' = gomaps w /\ range_seed w' = range_seed w /\
    dom (arrays w') = dom (arrays w) /\
    (forall l, l <> sl_array s -> arrays w' !! l = arrays w !! l) /\
    (forall arr, arrays w !! sl_array s = Some arr ->
       arrays w' !! sl_array s =
         Some (take (sl_offset s) arr ++ ys ++ drop (sl_offset s + sl_len s) arr)).
Proof.
  unfold slice_elems. destruct (arrays w !! sl_array s) as [arr|] eqn:Harr; [|done].
  case_decide as Hin; [|done]. intros [= <-].
  destruct (slice_loop_exact options s (sl_len s) 0 w arr Harr ltac:(lia) Hin)
    as (ys & w' & w'' & Hloop & Hspec & Hlen & Hsame & Hm & Hr & Harr').
  rewrite Nat.add_0_r in Hspec, Harr'.
  exists ys, w', w''. rewrite handleBlobSlice_unfold, Hloop.
  split; [done|]. split; [done|].
  split; [rewrite Hlen, length_take, length_drop; lia|]. split; [done|].
  rewrite Harr', lookup_insert_eq.
  assert (length (take (sl_offset s) arr) = sl_offset s) as Hoff by (rewrite length_take; lia).
  split.
  { case_decide as Hin'.
    - f_equal. rewrite drop_app_length' by done. by apply take_app_length'.
    - exfalso. apply Hin'. rewrite !length_app, Hoff, Hlen, length_drop. lia. }
  split; [done|]. split; [done|]. split.
  { apply dom_insert_lookup_L. by rewrite Harr. }
  split; [intros l Hl; by apply lookup_insert_ne|].
  by intros arr_ [= <-].
Qed.

(** ** The batch: the upload collaborator and the map *)

Lemma slice_elems_arrays w w' s :
  arrays w' !! sl_array s = arrays w !! sl_array s -> slice_elems w' s = slice_elems w s.
Proof. unfold slice_elems. by intros ->. Qed.

Lemma slice_elems_allocated w s xs :
  slice_elems w s = Some xs -> is_Some (arrays w !! sl_array s).
Proof. unfold slice_elems. destruct (arrays w !! sl_array s); [eauto|done]. Qed.

Lemma fresh_loc_ne {A} (m : gmap nat A) l : is_Some (m !! l) -> fresh (dom m) <> l.
Proof.
  intros Hl Heq. apply elem_of_dom in Hl. rewrite <- Heq in Hl. by apply is_fresh in Hl.
Qed.

(** [alloc_fields] gives every field a slice of its own that denotes the
    uploaded sequence, and touches nothing but the heap of arrays. *)
Lemma alloc_fields_spec fields : forall acc Facc w,
  NoDup fields.*1 ->
  (forall k, k ∈ fields.*1 -> Facc !! k = None) ->
  denotes w acc Facc -> separate acc ->
  exists m w',
    alloc_fields fields acc w = Some (m, w') /\
    denotes w' m (list_to_map fields ∪ Facc) /\ separate m /\
    store w' = store w /\ gomaps w' = gomaps w /\ faults w' = faults w /\
    range_seed w' = range_seed w /\ trace w' = trace w.
Proof.
  induction fields as [|[k xs] rest IH]; intros acc Facc w Hnd Hfree Hden Hsep.
  - exists acc, w. cbn. rewrite (left_id_L ∅ (∪)).
    split; [done|]. split; [done|]. split; [done|]. by repeat split.
  - cbn in Hnd. apply NoDup_cons in Hnd as [Hk Hnd].
    cbn [alloc_fields]. unfold mbind at 1, M_bind at 1, alloc_array at 1.
    set (l := fresh (dom (arrays w))).
    set (w1 := set_arrays (insert l xs) w).
    set (sl := mkSlice l 0 (length xs)).
    assert (forall s ys, slice_elems w s = Some ys -> slice_elems w1 s = Some ys) as Hkeep.
    { intros s ys Hs. rewrite <- Hs. apply slice_elems_arrays. cbn.
      apply lookup_insert_ne. apply fresh_loc_ne. by eapply slice_elems_allocated. }
    destruct (IH (<[k := sl]> acc) (<[k := xs]> Facc) w1) as (m & w' & Hrun & Hden' & Hsep' & Hfr).
    + done.
    + intros k' Hk'. rewrite lookup_insert_ne; [|by intros ->].
      apply Hfree. cbn. by apply elem_of_cons; right.
    + destruct Hden as [Hd1 Hd2]. split.
      * intros k' s. rewrite lookup_insert. case_decide as Hkk.
        -- subst k'. intros [= <-]. exists xs. split; [|by rewrite lookup_insert_eq].
           unfold slice_elems. cbn. rewrite lookup_insert_eq.
           case_decide; [|lia]. by rewrite drop_0, firstn_all.
        -- intros Hs. destruct (Hd1 _ _ Hs) as (ys & Hys & HF). exists ys.
           split; [by apply Hkeep|]. by rewrite lookup_insert_ne.
      * intros k'. rewrite lookup_insert. case_decide; [done|].
        intros Hn. rewrite lookup_insert_ne by done. by apply Hd2.
    + intros k1 k2 s1 s2. rewrite !lookup_insert.
      destruct Hden as [Hd1 _].
      repeat case_decide; subst; try done.
      * intros [= <-] Hs2 Heq. exfalso. destruct (Hd1 _ _ Hs2) as (ys & Hys & _).
        apply slice_elems_allocated in Hys. cbn in Heq. rewrite <- Heq in Hys.
        by apply (fresh_loc_ne _ _ Hys).
      * intros Hs1 [= <-] Heq. exfalso. destruct (Hd1 _ _ Hs1) as (ys & Hys & _).
        apply slice_elems_allocated in Hys. cbn in Heq. rewrite Heq in Hys.
        by apply (fresh_loc_ne _ _ Hys).
      * apply Hsep.
    + exists m, w'. split; [done|]. split; [|done].
      replace (list_to_map ((k, xs) :: rest) ∪ Facc)
        with (list_to_map rest ∪ <[k := xs]> Facc); [done|].
      cbn. rewrite <- insert_union_l. symmetry. apply insert_union_r.
      by apply not_elem_of_list_to_map_1.
Qed.

(** [blobstore.ParseUpload]: either it fails, or it hands back a new map
    whose slices, in separate arrays, denote the uploaded sequences. *)
Lemma ParseUpload_spec req w :
  (hd false (faults w) = true /\
   exists e, blobstore_ParseUpload req w = Some ((None, ∅, Some e), set_faults (@tail bool) w)) \/
  (hd false (faults w) = false /\
   exists mref m w1,
     blobstore_ParseUpload req w = Some ((Some mref, req_other req, None), w1) /\
     gomaps w1 !! mref = Some m /\ gomaps w !! mref = None /\
     denotes w1 m (req_blobs req) /\ separate m /\
     store w1 = store w /\ trace w1 = trace w /\ range_seed w1 = range_seed w /\
     faults w1 = tail (faults w)).
Proof.
  unfold blobstore_ParseUpload, next_fault. unfold mbind at 1, M_bind at 1.
  destruct (hd false (faults w)) eqn:Hf; [left; split; [done|]; eexists; reflexivity|right].
  split; [done|].
  destruct (alloc_fields_spec (map_to_list (req_blobs req)) ∅ ∅ (set_faults (@tail bool) w))
    as (m & w1 & Hrun & Hden & Hsep & Hst & Hm & Hfl & Hr & Ht).
  - apply NoDup_fst_map_to_list.
  - intros k _. apply lookup_empty.
  - split; [intros k s Hs; by rewrite lookup_empty in Hs|done].
  - intros k1 k2 s1 s2 Hs. by rewrite lookup_empty in Hs.
  - rewrite list_to_map_to_list, (right_id_L ∅ (∪)) in Hden.
    unfold mbind, M_bind. rewrite Hf. cbv beta. rewrite Hrun. unfold alloc_map, mret, M_ret. cbn.
    eexists _, m, _. split; [reflexivity|]. cbn.
    split; [apply lookup_insert_eq|].
    split. { rewrite Hm. cbn. apply not_elem_of_dom. apply is_fresh. }
    split. { destruct Hden as [Hd1 Hd2]. split; [|done]. intros k s Hs.
             destruct (Hd1 _ _ Hs) as (xs & Hxs & HF). by exists xs. }
    by rewrite Hst, Ht, Hr, Hfl.
Qed.

Lemma shuffle_Permutation {A} (seed : list nat) (l : list A) : shuffle seed l ≡ₚ l.
Proof.
  revert seed. induction l as [|x l IH]; intros seed; [done|].
  cbn. rewrite <- Permutation_middle, take_drop. by constructor.
Qed.

(** What one run of the specification's process returns: the field names
    it was given, in their order, each with as many objects as before. *)
Lemma specReplaceEach_length options xs : forall w ys w',
  specReplaceEach options xs w = Some (ys, w') -> length ys = length xs.
Proof.
  induction xs as [|x xs IH]; intros w ys w' Hrun.
  - cbn in Hrun. by injection Hrun as <- <-.
  - cbn [specReplaceEach] in Hrun. apply bind_Some in Hrun as (y & w1 & _ & Hrest).
    apply bind_Some in Hrest as (ys' & w2 & Hxs & Hret). injection Hret as <- <-.
    cbn. f_equal. by apply (IH w1 ys' w2).
Qed.

Lemma specProcess_shape options fields : forall w out w',
  specProcess options fields w = Some (out, w') ->
  Forall2 (fun a b => a.1 = b.1 /\ length a.2 = length b.2) fields out.
Proof.
  induction fields as [|[k xs] fields IH]; intros w out w' Hrun.
  - cbn in Hrun. injection Hrun as <- <-. constructor.
  - cbn [specProcess] in Hrun. apply bind_Some in Hrun as (ys & w1 & Hxs & Hrest).
    apply bind_Some in Hrest as (out' & w2 & Hfs & Hret). injection Hret as <- <-.
    constructor; [|by apply (IH w1 out' w2)].
    cbn. split; [done|]. symmetry. by apply (specReplaceEach_length _ _ _ _ _ Hxs).
Qed.

(** The loop of [ParseBlobs] over the keys of a map whose slices lie in
    different arrays: it returns, leaves the map object as it is and
    allocates nothing; the slices of the visited keys then denote what the
    process of the specification returns for these fields, taken in the
    order of the visit, and the others what they denoted before. *)
Lemma field_loop_exact options mref m keys : forall w (F : gmap string (list BlobInfo)),
  NoDup keys -> (forall k, k ∈ keys -> is_Some (m !! k)) ->
  gomaps w !! mref = Some m -> separate m -> denotes w m F ->
  exists w' out w'',
    for_each keys (field_body options mref) w = Some (tt, w') /\
    specProcess options ((fun k => (k, default [] (F !! k))) <$> keys) w = Some (out, w'') /\
    out.*1 = keys /\
    same_service w' w'' /\
    gomaps w' = gomaps w /\ dom (arrays w') = dom (arrays w) /\
    range_seed w' = range_seed w /\
    denotes w' m (list_to_map out ∪ F).
Proof.
  induction keys as [|k keys IH]; intros w F Hnd Hin Hm Hsep Hden.
  - exists w, [], w. cbn. rewrite (left_id_L ∅ (∪)).
    repeat split; try done; apply Hden.
  - apply NoDup_cons in Hnd as [Hk Hnd].
    destruct (Hin k ltac:(by apply elem_of_cons; left)) as [s Hs].
    destruct Hden as [Hd1 Hd2]. destruct (Hd1 _ _ Hs) as (xs & Hxs & HF).
    destruct (handleBlobSlice_exact options s w xs Hxs)
      as (ys & w1 & v1 & Hrun & Hspec & Hlen & Hsame1 & Hys & Hm1 & Hr1 & Hdom1 & Hother1 & _).
    set (w2 := set_gomaps (insert mref (<[k := s]> m)) w1).
    assert (gomaps w2 = gomaps w) as Hm2.
    { cbn. rewrite Hm1, (insert_id m) by done. by apply insert_id. }
    assert (field_body options mref k w = Some (tt, w2)) as Hbody.
    { unfold field_body. apply bind_Some. exists s, w. split.
      - unfold map_get. rewrite Hm. cbn. by rewrite Hs.
      - apply bind_Some. exists s, w1. split; [done|].
        unfold map_set. by rewrite Hm1, Hm. }
    destruct (IH w2 (<[k := ys]> F))
      as (w' & out & w'' & Hloop & Hproc & Hkeys & Hsame & Hm' & Hdom' & Hr' & Hden').
    + done.
    + intros k' Hk'. apply Hin. by apply elem_of_cons; right.
    + by rewrite Hm2.
    + done.
    + split.
      * intros k' s'. destruct (decide (k' = k)) as [->|Hne]; intros Hs'.
        -- rewrite Hs in Hs'. injection Hs' as <-. exists ys.
           split; [|by rewrite lookup_insert_eq]. rewrite <- Hys. by apply slice_elems_arrays.
        -- destruct (Hd1 _ _ Hs') as (xs' & Hxs' & HF'). exists xs'.
           split; [|by rewrite lookup_insert_ne].
           rewrite <- Hxs'. apply slice_elems_arrays. cbn. apply Hother1.
           intros Heq. apply Hne. by apply (Hsep _ _ _ _ Hs' Hs).
      * intros k' Hn. rewrite lookup_insert_ne; [by apply Hd2|]. intros ->. congruence.
    + assert ((fun k' => (k', default [] (<[k := ys]> F !! k'))) <$> keys =
              (fun k' => (k', default [] (F !! k'))) <$> keys) as Hsame_keys.
      { apply list_fmap_ext. intros i k' Hk'. rewrite lookup_insert_ne; [done|].
        intros <-. apply Hk. by apply list_elem_of_lookup_2 in Hk'. }
      rewrite Hsame_keys in Hproc.
      assert (same_service w2 v1) as Hsame2 by (by destruct Hsame1 as (? & ? & ?)).
      destruct (specProcess_service _ _ _ _ _ _ Hsame2 Hproc) as (v'' & Hproc' & Hsame').
      exists w', ((k, ys) :: out), v''.
      split; [apply bind_Some; by exists tt, w2|].
      split.
      { cbn [fmap list_fmap specProcess]. rewrite HF. cbn [default].
        apply bind_Some. exists ys, v1. split; [done|].
        apply bind_Some. by exists out, v''. }
      split; [cbn; by rewrite Hkeys|].
      split; [by apply (same_service_trans _ w'')|].
      split; [congruence|]. split; [by rewrite Hdom'; cbn|]. split; [by rewrite Hr'; cbn|].
      assert (list_to_map ((k, ys) :: out) ∪ F =
              (list_to_map out : gmap string (list BlobInfo)) ∪ <[k := ys]> F) as ->; [|done].
      rewrite list_to_map_cons, <- insert_union_l. apply insert_union_r.
      apply not_elem_of_list_to_map. by rewrite Hkeys.
Qed.

Lemma ParseBlobs_unfold options w :
  ParseBlobs options w =
  match blobstore_ParseUpload (Request options) w with
  | Some (blobs, other, Some e, w1) => Some (blobs, other, Some e, w1)
  | Some (None, other, None, w1) => Some (None, other, None, w1)
  | Some (Some mref, other, None, w1) =>
      match (keys ← map_range mref; for_each keys (field_body options mref)) w1 with
      | Some (_, w') => Some (Some mref, other, None, w')
      | None => None
      end
  | None => None
  end.
Proof.
  unfold ParseBlobs. unfold mbind at 1, M_bind at 1.
  destruct (blobstore_ParseUpload (Request options) w) as [[[[[mref|] other] [e|]] w1]|];
    reflexivity.
Qed.

Lemma map_range_keys mref m w :
  gomaps w !! mref = Some m ->
  exists keys,
    map_range mref w = Some (keys, w) /\ NoDup keys /\ forall k, k ∈ keys <-> is_Some (m !! k).
Proof.
  intros Hm. unfold map_range. rewrite Hm. cbn. eexists. split; [reflexivity|].
  pose proof (shuffle_Permutation (range_seed w) (map_to_list m).*1) as Hp.
  split.
  - rewrite Hp. apply NoDup_fst_map_to_list.
  - intros k. rewrite Hp. rewrite list_elem_of_fmap. split.
    + intros ([k' s] & -> & Hin). apply elem_of_map_to_list in Hin. by exists s.
    + intros [s Hs]. exists (k, s). split; [done|]. by apply elem_of_map_to_list.
Qed.

(** What the specification's replacement of a sequence does at one index:
    the entry there is replaced by what [handleBlob] returns for it, in the
    state the replacements of the entries before it have left. *)
Lemma specReplaceEach_index options xs : forall w ys w' i x,
  specReplaceEach options xs w = Some (ys, w') -> xs !! i = Some x ->
  exists y v v',
    ys !! i = Some y /\
    specReplaceEach options (take i xs) w = Some (take i ys, v) /\
    handleBlob options x v = Some (y, v').
Proof.
  induction xs as [|x0 xs IH]; intros w ys w' i x Hrun Hi; [done|].
  cbn [specReplaceEach] in Hrun. apply bind_Some in Hrun as (y0 & w1 & Hhb & Hrest).
  apply bind_Some in Hrest as (ys' & w2 & Hxs & Hret). injection Hret as <- <-.
  destruct i as [|i].
  - injection Hi as <-. exists y0, w, w1. by repeat split.
  - cbn in Hi. destruct (IH _ _ _ _ _ Hxs Hi) as (y & v & v' & Hy & Htake & Hhb').
    exists y, v, v'. split; [done|]. split; [|done].
    cbn [take specReplaceEach]. apply bind_Some. exists y0, w1. split; [done|].
    apply bind_Some. by exists (take i ys'), v.
Qed.

(** The whole walk of [ParseBlobs] after a successful parse: the slices of
    the collaborator's map end up denoting what the process of the
    specification returns for the uploaded fields, taken in the order of the
    [range] over the map. *)
Lemma ParseBlobs_exact options w mref m w1 :
  blobstore_ParseUpload (Request options) w =
    Some (Some mref, req_other (Request options), None, w1) ->
  gomaps w1 !! mref = Some m -> separate m -> denotes w1 m (req_blobs (Request options)) ->
  exists w' order out w'',
    ParseBlobs options w = Some (Some mref, req_other (Request options), None, w') /\
    order ≡ₚ map_to_list (req_blobs (Request options)) /\
    specProcess options order w1 = Some (out, w'') /\
    same_service w' w'' /\
    gomaps w' = gomaps w1 /\ dom (arrays w') = dom (arrays w1) /\
    denotes w' m (list_to_map out).
Proof.
  intros Hpu Hm Hsep Hden.
  destruct (map_range_keys mref m w1 Hm) as (keys & Hkeys & Hnd & Hin).
  destruct (field_loop_exact options mref m keys w1 (req_blobs (Request options)))
    as (w' & out & w'' & Hloop & Hproc & Hout & Hsame & Hm' & Hdom & _ & Hden'); try done.
  { intros k. apply Hin. }
  set (F := req_blobs (Request options)) in *.
  destruct Hden as [Hd1 Hd2].
  assert (forall k, is_Some (F !! k) -> k ∈ keys) as Hdomain.
  { intros k [xs HF]. apply Hin. destruct (m !! k) as [s|] eqn:Hs; [eauto|].
    rewrite (Hd2 _ Hs) in HF. discriminate. }
  exists w', ((fun k => (k, default [] (F !! k))) <$> keys), out, w''.
  split. { rewrite ParseBlobs_unfold, Hpu. unfold mbind, M_bind. by rewrite Hkeys, Hloop. }
  split.
  { apply NoDup_Permutation.
    - apply (NoDup_fmap_1 fst). rewrite <- list_fmap_compose.
      rewrite (list_fmap_ext _ id keys) by done. by rewrite list_fmap_id.
    - apply NoDup_map_to_list.
    - intros [k xs]. rewrite elem_of_map_to_list, list_elem_of_fmap. split.
      + intros (k' & Heq & Hk'). injection Heq as -> ->.
        apply Hin in Hk' as [s Hs]. destruct (Hd1 _ _ Hs) as (xs & _ & ->). done.
      + intros HF. exists k. split; [by rewrite HF|]. apply Hdomain. by rewrite HF. }
  split; [done|]. split; [done|]. split; [done|]. split; [done|].
  assert (list_to_map out ∪ F = (list_to_map out : gmap string (list BlobInfo))) as <-; [|done].
  apply map_eq. intros k. rewrite lookup_union.
  destruct (list_to_map out !! k) as [ys|] eqn:Hk; [by destruct (F !! k)|].
  destruct (F !! k) as [xs|] eqn:HF; [|done].
  exfalso. apply not_elem_of_list_to_map in Hk. apply Hk. rewrite Hout.
  apply Hdomain. by rewrite HF.
Qed.

(** The result of the specification's process holds the field names it was
    given, each with a sequence of the length it had. *)
Lemma specProcess_lengths options order (F : gmap string (list BlobInfo)) w out w' :
  order ≡ₚ map_to_list F -> specProcess options order w = Some (out, w') ->
  forall k, option_Forall2 (fun xs ys => length ys = length xs)
              (F !! k) ((list_to_map out : gmap string (list BlobInfo)) !! k).
Proof.
  intros Hperm Hrun k. apply specProcess_shape in Hrun.
  assert (NoDup order.*1) as Hnd by (rewrite Hperm; apply NoDup_fst_map_to_list).
  assert (forall xs, (k, xs) ∈ order <-> F !! k = Some xs) as Hin
    by (intros xs; by rewrite Hperm, elem_of_map_to_list).
  clear Hperm. revert F Hin.
  induction Hrun as [|[k1 xs1] [k2 ys2] order out [Hk Hl] Hrest IH]; intros F Hin.
  - cbn. destruct (F !! k) as [xs|] eqn:HF; [|constructor].
    pose proof (proj2 (Hin xs) eq_refl) as Hc. by apply elem_of_nil in Hc.
  - cbn in Hk, Hl. subst k2. apply NoDup_cons in Hnd as [Hk1 Hnd].
    rewrite list_to_map_cons. destruct (decide (k = k1)) as [->|Hne].
    + rewrite lookup_insert_eq.
      assert (F !! k1 = Some xs1) as -> by (apply Hin; by left).
      by constructor.
    + rewrite lookup_insert_ne by done.
      rewrite <- (lookup_delete_ne F k1 k) by done.
      apply (IH Hnd (delete k1 F)). intros xs. rewrite lookup_delete_ne by done.
      rewrite <- Hin, elem_of_cons. split; [tauto|].
      intros [Heq|?]; [|done]. congruence.
Qed.

Lemma denotes_map_elems w m F mref :
  gomaps w !! mref = Some m -> denotes w m F -> map_elems w mref = Some F.
Proof.
  intros Hm [Hd1 Hd2]. unfold map_elems. rewrite Hm. f_equal.
  apply map_eq. intros k. rewrite lookup_omap.
  destruct (m !! k) as [s|] eqn:Hs; cbn.
  - destruct (Hd1 _ _ Hs) as (xs & -> & ->). done.
  - by rewrite Hd2.
Qed.

(** ** C6: the batch keeps the shape of the upload *)

(** C6.  [ParseBlobs] returns for every request and every state.  When the
    upload collaborator fails, its error is handed on and nothing is
    processed.  Otherwise the other form values are returned as the
    collaborator gave them, and the returned map denotes a mapping with the
    same field names as the upload, where each field holds a sequence of the
    same length as the uploaded one.  This mapping is the one the process of
    the specification returns, [specProcess]: every uploaded sequence with
    its entries replaced, one index after the other, by what [handleBlob]
    returns for the entry at that index, the fields being taken in some
    order, the one of the [range] over the map; and the blobstore and the
    record of the calls made are those this process leaves. *)
Theorem ParseBlobs_preserves_shape options w :
  exists blobs other err w',
    ParseBlobs options w = Some (blobs, other, err, w') /\
    (hd false (faults w) = true ->
     blobs = None /\ is_Some err /\ trace w' = trace w /\ store w' = store w) /\
    (hd false (faults w) = false ->
     err = None /\ other = req_other (Request options) /\
     exists mref F' w1 order out w'',
       blobs = Some mref /\ map_elems w' mref = Some F' /\
       (forall k, option_Forall2 (fun xs ys => length ys = length xs)
                    (req_blobs (Request options) !! k) (F' !! k)) /\
       blobstore_ParseUpload (Request options) w = Some (Some mref, other, None, w1) /\
       store w1 = store w /\ trace w1 = trace w /\
       order ≡ₚ map_to_list (req_blobs (Request options)) /\
       specProcess options order w1 = Some (out, w'') /\
       F' = list_to_map out /\
       store w' = store w'' /\ trace w' = trace w'').
Proof.
  destruct (ParseUpload_spec (Request options) w)
    as [(Hf & e & Hpu)|(Hf & mref & m & w1 & Hpu & Hm & _ & Hden & Hsep & Hst & Htr & _)].
  - exists None, ∅, (Some e), (set_faults (@tail bool) w).
    rewrite ParseBlobs_unfold, Hpu. split; [done|]. split; [|congruence].
    intros _. by repeat split.
  - destruct (ParseBlobs_exact options w mref m w1 Hpu Hm Hsep Hden)
      as (w' & order & out & w'' & Hrun & Hperm & Hproc & (Hs & _ & Ht) & Hm' & _ & Hden').
    exists (Some mref), (req_other (Request options)), None, w'.
    split; [done|]. split; [congruence|]. intros _. split; [done|]. split; [done|].
    exists mref, (list_to_map out), w1, order, out, w''.
    split; [done|].
    split; [apply (denotes_map_elems _ m); [congruence|done]|].
    split; [by apply (specProcess_lengths options order _ w1 out w'')|].
    by repeat split.
Qed.

(** ** C10: the batch works in place *)

(** C10.  Whenever [handleBlobSlice] returns, it returns the very slice
    header it was given; it allocates no array and touches no map; outside the
    backing array of that slice the heap is as before, and in that array only
    the positions of the slice can differ.  On a slice that lies within its
    backing array it does return, and that array, the caller's, then holds,
    at the positions of the slice, the entries [handleBlob] returned for the
    entries that were there, index by index, the rest of the array being as it
    was: the slice the caller holds denotes the replaced sequence.  Whenever
    [ParseBlobs] returns, the map reference (with the other values and the
    error) is the one the upload collaborator returned; after the
    collaborator's call no map object is created or changed, so the slice
    headers stored in the map are the collaborator's, and no array is
    allocated.  And when the collaborator succeeds, the slices it stored in
    its map, unchanged as headers, denote the uploaded sequences after its
    call and the replaced sequences after [ParseBlobs]: the entries are
    overwritten in the collaborator's own arrays. *)
Theorem batch_works_in_place :
  (forall options s w r w',
     handleBlobSlice options s w = Some (r, w') ->
     r = s /\ gomaps w' = gomaps w /\ dom (arrays w') = dom (arrays w) /\
     (forall l, l <> sl_array s -> arrays w' !! l = arrays w !! l) /\
     (forall arr, arrays w !! sl_array s = Some arr ->
        exists arr', arrays w' !! sl_array s = Some arr' /\ length arr' = length arr /\
          forall j, (j < sl_offset s \/ sl_offset s + sl_len s <= j)%nat ->
                    arr' !! j = arr !! j)) /\
  (forall options s w arr,
     arrays w !! sl_array s = Some arr ->
     (sl_offset s + sl_len s <= length arr)%nat ->
     exists ys w' w'',
       handleBlobSlice options s w = Some (s, w') /\
       specReplaceEach options (take (sl_len s) (drop (sl_offset s) arr)) w = Some (ys, w'') /\
       length ys = sl_len s /\
       arrays w' !! sl_array s =
         Some (take (sl_offset s) arr ++ ys ++ drop (sl_offset s + sl_len s) arr) /\
       slice_elems w' s = Some ys /\
       store w' = store w'' /\ trace w' = trace w'') /\
  (forall options w blobs other err w',
     ParseBlobs options w = Some (blobs, other, err, w') ->
     exists w1,
       blobstore_ParseUpload (Request options) w = Some (blobs, other, err, w1) /\
       gomaps w' = gomaps w1 /\ dom (arrays w') = dom (arrays w1)) /\
  (forall options w,
     hd false (faults w) = false ->
     exists mref m other w1 w' order out w'',
       blobstore_ParseUpload (Request options) w = Some (Some mref, other, None, w1) /\
       ParseBlobs options w = Some (Some mref, other, None, w') /\
       gomaps w1 !! mref = Some m /\ gomaps w' !! mref = Some m /\
       denotes w1 m (req_blobs (Request options)) /\
       order ≡ₚ map_to_list (req_blobs (Request options)) /\
       specProcess options order w1 = Some (out, w'') /\
       denotes w' m (list_to_map out) /\
       store w' = store w'' /\ trace w' = trace w'').
Proof.
  split; [|split; [|split]].
  - intros options s w r w' Hrun. rewrite handleBlobSlice_unfold in Hrun.
    destruct (for_each _ _ w) as [[[] w'']|] eqn:Hloop; [|done]. injection Hrun as <- <-.
    apply slice_loop_frame in Hloop as (Hm & Hdom & Hother & Hown).
    repeat (split; [done|]). intros arr Harr.
    destruct (Hown arr Harr) as (arr' & Harr' & Hlen & Hsame).
    exists arr'. repeat (split; [done|]). intros j Hj. apply Hsame. lia.
  - intros options s w arr Harr Hin.
    assert (slice_elems w s = Some (take (sl_len s) (drop (sl_offset s) arr))) as Hxs.
    { unfold slice_elems. rewrite Harr. by rewrite decide_True by done. }
    destruct (handleBlobSlice_exact options s w _ Hxs)
      as (ys & w' & w'' & Hrun & Hspec & Hlen & (Hs & _ & Ht) & Hys & _ & _ & _ & _ & Hown).
    exists ys, w', w''. split; [done|]. split; [done|].
    split; [rewrite Hlen, length_take, length_drop; lia|].
    split; [by apply Hown|]. by repeat split.
  - intros options w blobs other err w' Hrun.
    destruct (ParseUpload_spec (Request options) w)
      as [(Hf & e & Hpu)|(Hf & mref & m & w1 & Hpu & Hm & _ & Hden & Hsep & _)].
    + rewrite ParseBlobs_unfold, Hpu in Hrun. injection Hrun as <- <- <- <-. eauto.
    + destruct (ParseBlobs_exact options w mref m w1 Hpu Hm Hsep Hden)
        as (w'' & order & out & v & Hrun' & _ & _ & _ & Hm' & Hdom & _).
      rewrite Hrun in Hrun'. injection Hrun' as -> -> -> ->. eauto.
  - intros options w Hf.
    destruct (ParseUpload_spec (Request options) w)
      as [(Hf' & _)|(_ & mref & m & w1 & Hpu & Hm & _ & Hden & Hsep & _)]; [congruence|].
    destruct (ParseBlobs_exact options w mref m w1 Hpu Hm Hsep Hden)
      as (w' & order & out & w'' & Hrun & Hperm & Hproc & (Hs & _ & Ht) & Hm' & _ & Hden').
    exists mref, m, (req_other (Request options)), w1, w', order, out, w''.
    split; [done|]. split; [done|]. split; [done|]. split; [congruence|].
    split; [exact Hden|]. split; [done|]. split; [done|].
    split; [done|]. by split.
Qed.

(** ** C2: the end-to-end scenario *)

Lemma no_faults_next n : forall l,
  Forall (fun b => b = false) l -> any_fault n l = false /\ nth_fault n l = false.
Proof.
  induction n as [|n IH]; intros l Hl.
  - cbn. split; [done|]. by destruct Hl.
  - cbn. destruct Hl as [|b l Hb Hl]; cbn.
    + by apply (IH []).
    + subst b. by apply IH.
Qed.

Lemma no_faults_tail w w' : no_faults w -> faults w' = tail (faults w) -> no_faults w'.
Proof. unfold no_faults. intros Hw ->. destruct Hw; cbn; [constructor|done]. Qed.

(** Without faults, a supported and decodable object is replaced: the new
    object is stored under a fresh key and the old one is deleted. *)
Lemma handleBlob_success options blob w img :
  validateMimeType blob = true -> stored_image w (BlobKey blob) = Some img -> no_faults w ->
  let newKey := fresh (dom (store w)) in
  exists w',
    handleBlob options blob w = Some (mkBlobInfo newKey "image/jpeg", w') /\
    store w' = delete (BlobKey blob)
      (<[newKey := mkStored "image/jpeg" (JpegBytes (Quality options) (resized options img))]>
         (store w)) /\
    arrays w' = arrays w /\ gomaps w' = gomaps w.
Proof.
  intros Hv Himg Hnf newKey.
  destruct (no_faults_next 6 (faults w) Hnf) as [Hany Hnth].
  destruct (handleBlob_run options blob w)
    as (blob' & w' & evs & Hrun & _ & Harr & Hmaps & _ & _ & Hout).
  exists w'.
  destruct Hout as [(_ & _ & [?|[?|?]] & _)|(img' & deleted & Himg' & -> & _ & Hst & _ & ->)];
    [congruence..|].
  rewrite Himg in Himg'. injection Himg' as <-.
  rewrite Hnth in Hst. by repeat split.
Qed.

Lemma take_1_drop {A} (l : list A) i x : l !! i = Some x -> take 1 (drop i l) = [x].
Proof. intros Hi. by rewrite (drop_S _ _ _ Hi). Qed.

(** C2 (amended).  Let the upload hold one field "photo" with one object
    declared image/jpeg whose bytes are a 3000x2000 JPEG, let [Size] be 1600
    and let no collaborator call fail.  Then [ParseBlobs] returns a map with
    the single field "photo" holding exactly one object; that object has
    content type image/jpeg and is stored as a JPEG, at [options.Quality], of
    dimensions 1600x1066; and the old object is no longer in the store. *)
Theorem photo_scenario options w key q0 :
  Size options = 1600 ->
  req_blobs (Request options) = {[ "photo"%string := [mkBlobInfo key "image/jpeg"] ]} ->
  store w !! key = Some (mkStored "image/jpeg" (JpegBytes q0 (mkImage 3000 2000))) ->
  no_faults w ->
  exists mref w' new,
    ParseBlobs options w = Some (Some mref, req_other (Request options), None, w') /\
    map_elems w' mref = Some {[ "photo"%string := [new] ]} /\
    ContentType new = "image/jpeg"%string /\
    store w' !! BlobKey new =
      Some (mkStored "image/jpeg" (JpegBytes (Quality options) (mkImage 1600 1066))) /\
    store w' !! key = None.
Proof.
  intros HS HB Hkey Hnf.
  set (info := mkBlobInfo key "image/jpeg") in *.
  destruct (ParseUpload_spec (Request options) w)
    as [(Hf & _)|(_ & mref & m & w1 & Hpu & Hm & _ & [Hd1 Hd2] & _ & Hst1 & _ & _ & Hf1)].
  { destruct (no_faults_next 0 (faults w) Hnf) as [_ Hh]. cbn in Hh. congruence. }
  rewrite HB in Hd1, Hd2.
  (* the map holds the one field, in a slice that denotes the one object *)
  destruct (m !! "photo"%string) as [s|] eqn:Hs;
    [|specialize (Hd2 _ Hs); by rewrite lookup_singleton_eq in Hd2].
  destruct (Hd1 _ _ Hs) as (xs & Hxs & Hphoto). rewrite lookup_singleton_eq in Hphoto.
  injection Hphoto as <-.
  assert (m = {[ "photo"%string := s ]}) as ->.
  { apply map_eq. intros k. destruct (decide (k = "photo"%string)) as [->|Hne].
    - by rewrite lookup_singleton_eq.
    - rewrite lookup_singleton_ne by done. destruct (m !! k) as [s'|] eqn:Hs'; [|done].
      destruct (Hd1 _ _ Hs') as (? & _ & Hk). by rewrite lookup_singleton_ne in Hk. }
  unfold slice_elems in Hxs.
  destruct (arrays w1 !! sl_array s) as [arr|] eqn:Harr; [|done].
  case_decide as Hin; [|done]. injection Hxs as Hxs.
  assert (sl_len s = 1%nat) as Hlen.
  { apply (f_equal length) in Hxs. rewrite length_take, length_drop in Hxs. cbn in Hxs. lia. }
  assert (arr !! (sl_offset s + 0)%nat = Some info) as Hx.
  { rewrite <- lookup_drop, <- (lookup_take_lt _ (sl_len s)) by lia. by rewrite Hxs. }
  (* the one object is replaced *)
  assert (validateMimeType info = true) as Hv.
  { apply validateMimeType_supported. unfold supportedTypes. apply elem_of_cons. by left. }
  destruct (handleBlob_success options info w1 (mkImage 3000 2000) Hv) as (w2 & Hhb & Hst2 & Ha2 & Hm2).
  { unfold stored_image. cbn. by rewrite Hst1, Hkey. }
  { by apply (no_faults_tail w). }
  assert (resized options (mkImage 3000 2000) = mkImage 1600 1066) as Hres
    by (unfold resized; rewrite HS; reflexivity).
  rewrite Hres, Hst1 in Hst2. cbn in Hst2.
  set (new := mkBlobInfo (fresh (dom (store w1))) "image/jpeg") in *.
  set (arr' := <[(sl_offset s + 0)%nat := new]> arr).
  set (w3 := set_arrays (insert (sl_array s) arr') w2).
  set (w4 := set_gomaps (insert mref (<["photo"%string := s]> {[ "photo"%string := s ]})) w3).
  assert (handleBlobSlice options s w1 = Some (s, w3)) as Hslice.
  { rewrite handleBlobSlice_unfold, Hlen. cbn [seq for_each].
    unfold mbind at 1, M_bind at 1.
    assert (slice_body options s 0 w1 = Some (tt, w3)) as ->; [|done].
    apply slice_body_Some. exists arr, info, new, w2. repeat split; try done. lia. }
  assert (field_body options mref "photo" w1 = Some (tt, w4)) as Hfield.
  { unfold field_body. apply bind_Some. exists s, w1. split.
    - unfold map_get. rewrite Hm. cbn. by rewrite lookup_singleton_eq.
    - apply bind_Some. exists s, w3. split; [done|].
      unfold map_set. cbn. by rewrite Hm2, Hm. }
  exists mref, w4, new. split.
  { rewrite ParseBlobs_unfold, Hpu. unfold mbind at 1, M_bind at 1.
    unfold map_range. rewrite Hm. cbn [mbind option_bind].
    rewrite map_to_list_singleton. cbn [fmap list_fmap fst shuffle for_each].
    rewrite take_nil, drop_nil. cbn [app for_each].
    unfold mbind at 1, M_bind at 1. by rewrite Hfield. }
  assert (key <> fresh (dom (store w))) as Hfresh.
  { apply not_eq_sym, fresh_key_ne. by rewrite Hkey. }
  split; [|split; [done|split]].
  - unfold map_elems. cbn. rewrite lookup_insert_eq. f_equal.
    rewrite insert_singleton_eq. apply omap_singleton_Some.
    unfold slice_elems. cbn. rewrite lookup_insert_eq.
    assert (length arr' = length arr) as Hl by (unfold arr'; apply length_insert).
    case_decide; [|lia]. f_equal. rewrite Hlen. apply take_1_drop.
    replace (sl_offset s) with (sl_offset s + 0)%nat at 1 by lia.
    unfold arr'. apply list_lookup_insert_eq. by apply lookup_lt_Some in Hx.
  - cbn. rewrite Hst2, Hst1. rewrite lookup_delete_ne by done. apply lookup_insert_eq.
  - cbn. rewrite Hst2. apply lookup_delete_eq.
Qed.

(* ================================================================== *)
(** * Part II, continued.  Beyond the claims of the specification      *)
(* ================================================================== *)

(** ** The scaler on images of which one side is within the bound *)

(** When the dimension does not exceed the denominator, the result does not
    exceed the numerator. *)
Lemma scaleDim_le_num a b c :
  0 < a <= c -> 0 < b < c -> c < 2 ^ 31 -> scaleDim a b c <= b.
Proof.
  intros Ha Hb Hc.
  destruct (scaleDim_spec a b c ltac:(lia) Hb Hc)
    as (m & N & mr & R & -> & Hm & HN & Hup & Hdn & Hlt & Hmr & HR & Hup' & Hdn').
  pose proof (pow2_pos R HR) as HpR. pose proof (pow2_pos N ltac:(lia)) as HpN.
  assert (Zpos mr - 1 < a * 2 ^ R) as Hmr'.
  { apply (Z.mul_lt_mono_pos_r (2 ^ N)); [lia|].
    apply Z.le_lt_trans with (a * Zpos m * 2 ^ R); [done|].
    replace (a * Zpos m * 2 ^ R) with (a * 2 ^ R * Zpos m) by ring.
    apply Z.mul_lt_mono_pos_l; [apply Z.mul_pos_pos; lia|done]. }
  assert (1 <= R) as HR1.
  { destruct (Z.eq_dec R 0) as [->|]; [|lia]. change (2 ^ 0) with 1 in Hmr'. lia. }
  assert (2 ^ R = 2 * 2 ^ (R - 1)) as HR2.
  { rewrite <- Z.pow_succ_r by lia. f_equal. lia. }
  pose proof (pow2_pos (R - 1) ltac:(lia)) as HpR1.
  assert (4 * c <= 2 ^ N) as HcN.
  { transitivity (2 ^ 33); [lia|]. apply Z.pow_le_mono_r; lia. }
  assert (Zpos mr / 2 ^ R < b + 1); [|lia].
  apply Z.div_lt_upper_bound; [lia|].
  assert ((Zpos mr - 1) * 2 ^ N <= 2 ^ R * (b * 2 ^ N + c)) as H1.
  { apply (Z.mul_le_mono_pos_r _ _ c); [lia|].
    transitivity (a * 2 ^ R * (b * 2 ^ N + c)).
    - transitivity (a * Zpos m * 2 ^ R * c); [apply Z.mul_le_mono_nonneg_r; lia|].
      replace (a * Zpos m * 2 ^ R * c) with (a * 2 ^ R * (Zpos m * c)) by ring.
      apply Z.mul_le_mono_nonneg_l; [apply Z.mul_nonneg_nonneg; lia|lia].
    - replace (2 ^ R * (b * 2 ^ N + c) * c) with (c * (2 ^ R * (b * 2 ^ N + c))) by ring.
      rewrite <- Z.mul_assoc. apply Z.mul_le_mono_nonneg_r; [|lia].
      apply Z.mul_nonneg_nonneg; [lia|]. pose proof (Z.mul_nonneg_nonneg b (2 ^ N)). lia. }
  assert (4 * (c * 2 ^ R) <= 2 ^ N * 2 ^ R) as H2.
  { rewrite Z.mul_assoc. apply Z.mul_le_mono_nonneg_r; lia. }
  assert (2 * 2 ^ N <= 2 ^ N * 2 ^ R) as H3.
  { rewrite (Z.mul_comm 2). apply Z.mul_le_mono_nonneg_l; lia. }
  replace (2 ^ R * (b + 1)) with (2 ^ R * b + 2 ^ R) by ring.
  apply (Z.mul_lt_mono_pos_r (2 ^ N)); [lia|].
  replace ((2 ^ R * b + 2 ^ R) * 2 ^ N) with (2 ^ R * (b * 2 ^ N) + 2 ^ N * 2 ^ R) by ring.
  replace (2 ^ R * (b * 2 ^ N + c)) with (2 ^ R * (b * 2 ^ N) + c * 2 ^ R) in H1 by ring.
  lia.
Qed.

(** X1.  The scaler only ever shrinks.  Whenever it asks for a resize of an
    image whose dimensions fit in 31 bits, both dimensions it asks for are
    non-negative, within [Size], and no larger than the source's; and at least
    one of them is strictly smaller than the source's. *)
Theorem targetSize_shrinks_only S w h x y :
  0 <= w < 2 ^ 31 -> 0 <= h < 2 ^ 31 ->
  targetSize S w h = Some (x, y) ->
  0 <= x <= Z.min w S /\ 0 <= y <= Z.min h S /\ (x < w \/ y < h).
Proof.
  intros Hw Hh Hts.
  assert (0 < S) as HS.
  { destruct (Z_lt_le_dec 0 S); [done|].
    assert (targetSize S w h = None) as HN by (apply targetSize_None; lia). congruence. }
  destruct (Z_lt_le_dec S w) as [Hlt|Hle].
  - rewrite targetSize_wide in Hts by done.
    pose proof (scaleDim_bound h S w ltac:(lia) ltac:(lia) ltac:(lia)) as Hy1.
    destruct (Z.gtb_spec (scaleDim h S w) S) as [Hgt|Hngt]; injection Hts as <- <-.
    + pose proof (scaleDim_bound S S (scaleDim h S w) ltac:(lia) ltac:(lia) ltac:(lia)). lia.
    + lia.
  - destruct (Z_lt_le_dec S h) as [Hlt|Hle'].
    + rewrite targetSize_tall in Hts by done. injection Hts as <- <-.
      pose proof (scaleDim_bound w S h ltac:(lia) ltac:(lia) ltac:(lia)). lia.
    + assert (targetSize S w h = None) as HN by (apply targetSize_None; lia). congruence.
Qed.

(** X2.  An image wider than [Size] and at least as wide as it is high goes
    through the first pass alone: the width becomes [Size], the height the
    scaled height, which is within [Size] already, so that the second pass
    never runs. *)
Theorem landscape_single_pass S w h :
  0 < S < w -> 0 <= h <= w -> w < 2 ^ 31 ->
  targetSize S w h = Some (S, scaleDim h S w) /\
  0 <= scaleDim h S w <= Z.min h S.
Proof.
  intros HS Hh Hw.
  pose proof (scaleDim_bound h S w ltac:(lia) ltac:(lia) ltac:(lia)) as Hb.
  assert (scaleDim h S w <= S) as Hle.
  { destruct (Z.eq_dec h 0) as [->|Hne]; [rewrite scaleDim_0; lia|].
    apply scaleDim_le_num; lia. }
  split; [|lia].
  rewrite targetSize_wide by lia.
  destruct (Z.gtb_spec (scaleDim h S w) S); [lia|done].
Qed.

(** X3.  An image within [Size] in width and above it in height goes through
    the second pass alone: the height becomes [Size] and the width the
    binary64 value of [float64(width) * (float64(Size) / float64(height))]
    rounded down, which is within one of the exact
    [floor (width * Size / height)] and at most the source's width. *)
Theorem portrait_second_pass_only S w h :
  0 < w <= S -> S < h < 2 ^ 31 ->
  targetSize S w h = Some (scaleDim w S h, S) /\
  exactScale w S h - 1 <= scaleDim w S h <= exactScale w S h + 1 /\
  0 <= scaleDim w S h <= w.
Proof.
  intros Hw Hh.
  split; [apply targetSize_tall; lia|].
  pose proof (scaleDim_bound w S h ltac:(lia) ltac:(lia) ltac:(lia)).
  pose proof (scaleDim_ge w S h ltac:(lia) ltac:(lia) ltac:(lia)).
  pose proof (scaleDim_le_succ w S h ltac:(lia) ltac:(lia) ltac:(lia)).
  lia.
Qed.

(** ** The runs of [handleBlob], call by call *)

Ltac tb_leaf :=
  eexists _, _, _; split; [reflexivity|]; cbn;
  split; [rewrite <- ?app_assoc; reflexivity|];
  repeat split; reflexivity.

(** The table of the runs of [handleBlob] on a supported reference whose
    object decodes: the calls made after the decoding and the resizing, the
    reference returned and the store left behind, by the first call that
    fails. *)
Lemma handleBlob_table options blob w img :
  validateMimeType blob = true -> hd false (faults w) = false ->
  stored_image w (BlobKey blob) = Some img ->
  exists blob' w' evs,
    handleBlob options blob w = Some (blob', w') /\
    trace w' = trace w ++ (EvDecode (BlobKey blob) true :: resize_events options img) ++ evs /\
    let key := fresh (dom (store w)) in
    let obj := mkStored "image/jpeg" (JpegBytes (Quality options) (resized options img)) in
    let create := EvCreate "image/jpeg" true in
    let encode := EvEncode (Quality options) (resized options img) true in
    if nth_fault 1 (faults w) then
      blob' = blob /\ store w' = store w /\ evs = [EvCreate "image/jpeg" false]
    else if nth_fault 2 (faults w) then
      blob' = blob /\
      store w' = (if nth_fault 3 (faults w) then store w
                  else <[key := mkStored "image/jpeg" OtherBytes]> (store w)) /\
      evs = [create; EvEncode (Quality options) (resized options img) false;
             EvClose (negb (nth_fault 3 (faults w)))]
    else if nth_fault 3 (faults w) then
      blob' = blob /\ store w' = store w /\ evs = [create; encode; EvClose false]
    else if nth_fault 4 (faults w) then
      blob' = blob /\ store w' = <[key := obj]> (store w) /\
      evs = [create; encode; EvClose true; EvKey false]
    else if nth_fault 5 (faults w) then
      blob' = blob /\ store w' = <[key := obj]> (store w) /\
      evs = [create; encode; EvClose true; EvKey true; EvStat key false]
    else
      blob' = mkBlobInfo key "image/jpeg" /\
      store w' = (if nth_fault 6 (faults w) then <[key := obj]> (store w)
                  else delete (BlobKey blob) (<[key := obj]> (store w))) /\
      evs = [create; encode; EvClose true; EvKey true; EvStat key true;
             EvDelete (BlobKey blob) (negb (nth_fault 6 (faults w)))].
Proof.
  intros Hv F1 Himg. cbv zeta. cbn [nth_fault].
  unfold handleBlob. rewrite Hv. cbn [negb].
  unfold stored_image in Himg.
  destruct (store w !! BlobKey blob) as [sb|] eqn:Hst; [|discriminate]. cbn in Himg.
  unfold image_Decode, blobstore_Create, jpeg_Encode, writer_Close, writer_Key, blobstore_Stat,
    deleteOldBlob, blobstore_Delete, resize_Resize, next_fault, get_store, modify_store, emit.
  unfold mbind, M_bind, mret, M_ret. cbn. rewrite F1, Hst. cbn. rewrite Himg. cbn.
  unfold resize_events, resized.
  destruct (targetSize (Size options) (MaxX img) (MaxY img)) as [[size_x size_y]|] eqn:Hts; cbn.
  all: destruct (hd false (tail (faults w))) eqn:F2; cbn; [tb_leaf|].
  all: destruct (hd false (tail (tail (faults w)))) eqn:F3; cbn;
    [destruct (hd false (tail (tail (tail (faults w))))) eqn:F4; cbn; tb_leaf|].
  all: destruct (hd false (tail (tail (tail (faults w))))) eqn:F4; cbn; [tb_leaf|].
  all: destruct (hd false (tail (tail (tail (tail (faults w)))))) eqn:F5; cbn; [tb_leaf|].
  all: rewrite lookup_insert_eq; cbn.
  all: destruct (hd false (tail (tail (tail (tail (tail (faults w))))))) eqn:F6; cbn; [tb_leaf|].
  all: destruct (hd false (tail (tail (tail (tail (tail (tail (faults w)))))))) eqn:F7; cbn; tb_leaf.
Qed.

(** A reference of an unsupported type, and a reference whose object cannot
    be decoded (the read fails, the object is missing, or its bytes are not
    an image): the run of [handleBlob] in full. *)
Lemma handleBlob_no_image options blob w :
  hd false (faults w) = true \/ stored_image w (BlobKey blob) = None ->
  exists w',
    handleBlob options blob w = Some (blob, w') /\ store w' = store w /\
    arrays w' = arrays w /\ gomaps w' = gomaps w /\
    (validateMimeType blob = false -> w' = w) /\
    (validateMimeType blob = true ->
     trace w' = trace w ++ [EvDecode (BlobKey blob) false] /\ faults w' = tail (faults w)).
Proof.
  intros Himg. unfold handleBlob.
  destruct (validateMimeType blob) eqn:Hv; cbn [negb].
  2:{ exists w. by repeat split. }
  unfold image_Decode, next_fault, get_store, emit.
  unfold mbind, M_bind, mret, M_ret. cbn.
  unfold stored_image in Himg.
  destruct (hd false (faults w)) eqn:F1; cbn.
  { eexists. split; [reflexivity|]. by repeat split. }
  destruct Himg as [?|Himg]; [done|].
  destruct (store w !! BlobKey blob) as [sb|] eqn:Hst; cbn in *.
  - rewrite Himg. cbn. eexists. split; [reflexivity|]. by repeat split.
  - eexists. split; [reflexivity|]. by repeat split.
Qed.

Lemma any_fault_nth n : forall l i,
  any_fault n l = false -> (i < n)%nat -> nth_fault i l = false.
Proof.
  induction n as [|n IH]; intros l i Hany Hi; [lia|].
  cbn in Hany. apply orb_false_iff in Hany as [Hh Ht].
  destruct i as [|i]; cbn; [done|]. apply IH; [done|lia].
Qed.

Lemma handleBlob_unsupported options blob w :
  validateMimeType blob = false -> handleBlob options blob w = Some (blob, w).
Proof. intros Hv. unfold handleBlob. by rewrite Hv. Qed.

Lemma stored_image_store w w' k :
  store w' !! k = store w !! k -> stored_image w' k = stored_image w k.
Proof. unfold stored_image. by intros ->. Qed.

Lemma stored_image_is_Some w k : is_Some (stored_image w k) -> is_Some (store w !! k).
Proof. unfold stored_image. destruct (store w !! k); [eauto|by intros [? ?]]. Qed.

(** ** Default options: no resizing *)

(** X4.  With a [Size] left at the default [NewCompressionOptions] gives it
    (0, "do not resize"), or below it, [handleBlob] never asks for a resize:
    what it encodes is the decoded source itself, at [options.Quality] (75
    unless the caller changed it), and the object that replaces the original
    is the JPEG encoding of the source in its own dimensions. *)
Theorem default_size_keeps_dimensions options blob w :
  Size options <= Size (NewCompressionOptions (Request options)) ->
  exists blob' w' evs,
    handleBlob options blob w = Some (blob', w') /\
    trace w' = trace w ++ evs /\
    (forall x y, EvResize x y ∉ evs) /\
    (forall q img ok, EvEncode q img ok ∈ evs ->
       q = Quality options /\ stored_image w (BlobKey blob) = Some img) /\
    (blob' <> blob ->
     exists src,
       stored_image w (BlobKey blob) = Some src /\
       store w' !! BlobKey blob' =
         Some (mkStored "image/jpeg" (JpegBytes (Quality options) src))).
Proof.
  intros HS. cbn in HS.
  assert (forall img, targetSize (Size options) (MaxX img) (MaxY img) = None) as Hnone
    by (intros img; apply targetSize_None; by left).
  destruct (handleBlob_run options blob w)
    as (blob' & w' & evs & Hrun & Htr & _ & _ & _ & Hshape & _).
  destruct (handleBlob_output options blob w)
    as (blob'' & w'' & evs' & Hrun' & _ & _ & _ & Hnew).
  rewrite Hrun in Hrun'. injection Hrun' as <- <-.
  exists blob', w', evs. repeat (split; [done|]).
  split; [|split].
  - intros x y Hin.
    destruct (run_shape_tail _ _ _ _ _ Hshape Hin) as [?|[?|(img & Himg & _ & [Hr|Hok])]];
      try discriminate.
    apply resize_events_elem in Hr as (x' & y' & _ & Hts). by rewrite Hnone in Hts.
  - intros q img ok Hin.
    destruct (run_shape_tail _ _ _ _ _ Hshape Hin) as [?|[?|(img' & Himg & _ & [Hr|Hok])]];
      try discriminate.
    + apply resize_events_elem in Hr as (? & ? & ? & _). discriminate.
    + cbn in Hok. apply andb_true_iff in Hok as [Hq Hi]. apply Z.eqb_eq in Hq.
      split; [done|]. rewrite resized_id in Hi by done.
      unfold Image_eqb in Hi. apply andb_true_iff in Hi as [Hx Hy].
      apply Z.eqb_eq in Hx, Hy. rewrite Himg. f_equal.
      destruct img, img'; cbn in *; congruence.
  - intros Hne. destruct (Hnew Hne) as (_ & src & Hsrc & Hst).
    exists src. split; [done|]. by rewrite resized_id in Hst.
Qed.

(** ** References that cannot be replaced *)

(** X5.  A reference of a supported type whose object is missing from the
    store, or holds bytes that are not an image, costs one failed decode and
    nothing else: the reference is returned as it is, no writer is created,
    and the store is left exactly as it was. *)
Theorem undecodable_left_alone options blob w :
  validateMimeType blob = true -> stored_image w (BlobKey blob) = None ->
  exists w',
    handleBlob options blob w = Some (blob, w') /\
    store w' = store w /\
    trace w' = trace w ++ [EvDecode (BlobKey blob) false] /\
    faults w' = tail (faults w).
Proof.
  intros Hv Himg.
  destruct (handleBlob_no_image options blob w (or_intror Himg))
    as (w' & Hrun & Hst & _ & _ & _ & Htr).
  destruct (Htr Hv) as [Ht Hf]. by exists w'.
Qed.

(** X6.  Once a reference has been replaced and the delete has gone through,
    its object is gone: handing the same reference to [handleBlob] again, in
    the state the first run left, returns it unchanged after a failed decode
    and stores nothing. *)
Theorem replaced_reference_is_stale options blob w blob1 w1 :
  handleBlob options blob w = Some (blob1, w1) ->
  blob1 <> blob ->
  last (trace w1) = Some (EvDelete (BlobKey blob) true) ->
  store w1 !! BlobKey blob = None /\
  exists w2,
    handleBlob options blob w1 = Some (blob, w2) /\
    store w2 = store w1 /\
    trace w2 = trace w1 ++ [EvDecode (BlobKey blob) false].
Proof.
  intros Hrun1 Hne Hlast.
  destruct (handleBlob_run options blob w)
    as (blob' & w' & evs & Hrun & Htr & _ & _ & _ & Hshape & Hout).
  rewrite Hrun1 in Hrun. injection Hrun as <- <-.
  destruct Hout as [(-> & _)|(img & deleted & Himg & _ & -> & Hst & _)]; [done|].
  assert (validateMimeType blob = true) as Hv.
  { destruct Hshape as [[_ Hnil]|[(Hv & _)|(Hv & _)]]; [discriminate|done..]. }
  assert (deleted = true) as ->.
  { rewrite Htr in Hlast. unfold success_events, resize_events in Hlast.
    rewrite !last_app in Hlast. cbn in Hlast. by injection Hlast. }
  assert (store w1 !! BlobKey blob = None) as Hgone by (rewrite Hst; apply lookup_delete_eq).
  split; [done|].
  assert (stored_image w1 (BlobKey blob) = None) as Himg1
    by (unfold stored_image; by rewrite Hgone).
  destruct (handleBlob_no_image options blob w1 (or_intror Himg1))
    as (w2 & Hrun2 & Hst2 & _ & _ & _ & Htr2).
  destruct (Htr2 Hv) as [Ht _]. by exists w2.
Qed.

(** ** What a late failure leaves behind *)

(** X7.  The error of [blobstore.Delete] is discarded.  When every call up to
    the stat succeeds and the delete fails, [handleBlob] still returns the
    new reference; the old object stays in the store beside the new one, and
    nothing tells the caller. *)
Theorem delete_failure_is_silent options blob w img :
  validateMimeType blob = true -> stored_image w (BlobKey blob) = Some img ->
  any_fault 6 (faults w) = false -> nth_fault 6 (faults w) = true ->
  let newKey := fresh (dom (store w)) in
  exists w',
    handleBlob options blob w = Some (mkBlobInfo newKey "image/jpeg", w') /\
    last (trace w') = Some (EvDelete (BlobKey blob) false) /\
    store w' !! BlobKey blob = store w !! BlobKey blob /\
    is_Some (store w' !! BlobKey blob) /\
    store w' !! newKey =
      Some (mkStored "image/jpeg" (JpegBytes (Quality options) (resized options img))).
Proof.
  intros Hv Himg Hany Hdel newKey.
  destruct (handleBlob_table options blob w img Hv) as (blob' & w' & evs & Hrun & Htr & Htab);
    [by apply (any_fault_nth 6 _ 0%nat); [|lia]|done|].
  cbv zeta in Htab.
  rewrite !(any_fault_nth 6 _ _ Hany) in Htab by lia. rewrite Hdel in Htab.
  destruct Htab as (-> & Hst & ->). exists w'. split; [done|].
  assert (is_Some (store w !! BlobKey blob)) as Hold.
  { unfold stored_image in Himg. destruct (store w !! BlobKey blob); [eauto|discriminate]. }
  split; [rewrite Htr, !last_app; reflexivity|].
  rewrite Hst. split; [by apply lookup_insert_fresh|].
  split; [by rewrite lookup_insert_fresh|]. apply lookup_insert_eq.
Qed.

(** X8.  When the new object has been written and closed and the call for
    its key or for its metadata then fails, [handleBlob] returns the
    reference it was given and removes nothing: the new JPEG stays in the
    store, under a key no reference holds. *)
Theorem late_failure_leaves_orphan options blob w img :
  validateMimeType blob = true -> stored_image w (BlobKey blob) = Some img ->
  any_fault 4 (faults w) = false ->
  nth_fault 4 (faults w) = true \/ nth_fault 5 (faults w) = true ->
  exists w',
    handleBlob options blob w = Some (blob, w') /\
    store w' =
      <[fresh (dom (store w)) :=
          mkStored "image/jpeg" (JpegBytes (Quality options) (resized options img))]> (store w) /\
    (forall k ok, EvDelete k ok ∉ drop (length (trace w)) (trace w')).
Proof.
  intros Hv Himg Hany Hlate.
  destruct (handleBlob_table options blob w img Hv) as (blob' & w' & evs & Hrun & Htr & Htab);
    [by apply (any_fault_nth 4 _ 0%nat); [|lia]|done|].
  cbv zeta in Htab.
  rewrite !(any_fault_nth 4 _ _ Hany) in Htab by lia.
  exists w'. rewrite Htr, drop_app_length.
  assert (forall k ok, EvDelete k ok ∉ EvDecode (BlobKey blob) true :: resize_events options img) as Hpre.
  { intros k ok Hin. apply elem_of_cons in Hin as [?|Hin]; [discriminate|].
    apply resize_events_elem in Hin as (? & ? & ? & _). discriminate. }
  destruct (nth_fault 4 (faults w)) eqn:F4.
  - destruct Htab as (-> & Hst & ->). repeat (split; [done|]).
    intros k ok Hin. apply elem_of_app in Hin as [Hin|Hin]; [by eapply Hpre|].
    repeat (apply elem_of_cons in Hin as [?|Hin]; [discriminate|]). by apply elem_of_nil in Hin.
  - destruct Hlate as [?|F5]; [done|]. rewrite F5 in Htab.
    destruct Htab as (-> & Hst & ->). repeat (split; [done|]).
    intros k ok Hin. apply elem_of_app in Hin as [Hin|Hin]; [by eapply Hpre|].
    repeat (apply elem_of_cons in Hin as [?|Hin]; [discriminate|]). by apply elem_of_nil in Hin.
Qed.

(** ** Writers and keys *)

(** X9.  No run of [handleBlob] leaves a writer open: the writer it creates
    is closed exactly once, also when [jpeg.Encode] fails, and nothing is
    closed that was not created. *)
Theorem writer_always_closed options blob w :
  exists blob' w' evs,
    handleBlob options blob w = Some (blob', w') /\
    trace w' = trace w ++ evs /\
    open_writers 0 evs = Some 0%nat /\
    length (List.filter is_open evs) = length (List.filter is_close evs) /\
    (length (List.filter is_close evs) <= 1)%nat.
Proof.
  destruct (validateMimeType blob) eqn:Hv.
  2:{ destruct (handleBlob_run options blob w)
        as (blob' & w' & evs & Hrun & Htr & _ & _ & _ & Hshape & _).
      exists blob', w', evs. repeat (split; [done|]).
      destruct Hshape as [[_ ->]|[(? & _)|(? & _)]]; [|congruence..]. cbn. repeat split; lia. }
  destruct (hd false (faults w)) eqn:F1;
    [|destruct (stored_image w (BlobKey blob)) as [img|] eqn:Himg].
  1,3: (edestruct (handleBlob_no_image options blob w) as (w' & Hrun & _ & _ & _ & _ & Htr);
    [eauto|]; destruct (Htr Hv) as [Ht _];
    exists blob, w', [EvDecode (BlobKey blob) false]; repeat (split; [done|]);
    cbn; repeat split; lia).
  destruct (handleBlob_table options blob w img Hv F1 Himg)
    as (blob' & w' & evs & Hrun & Htr & Htab).
  cbv zeta in Htab. eexists blob', w', _. split; [done|]. split; [exact Htr|].
  unfold resize_events.
  destruct (targetSize (Size options) (MaxX img) (MaxY img)) as [[x y]|].
  all: repeat match type of Htab with
       | if ?b then _ else _ => destruct b
       | _ /\ _ /\ _ = _ => destruct Htab as (_ & _ & ->)
       | _ /\ _ /\ _ => destruct Htab as (_ & _ & Htab)
       end.
  all: cbn; repeat split; lia.
Qed.

(** X10.  [handleBlob] returns either the very reference it was given or a
    reference to a new object: its key was not in use before the call (so it
    differs from the key handed in, whose object was there), and the object it
    names is in the store when [handleBlob] returns. *)
Theorem replacement_has_new_key options blob w blob' w' :
  handleBlob options blob w = Some (blob', w') ->
  blob' = blob \/
  (BlobKey blob' <> BlobKey blob /\
   store w !! BlobKey blob' = None /\
   is_Some (store w !! BlobKey blob) /\
   is_Some (store w' !! BlobKey blob')).
Proof.
  intros Hrun1.
  destruct (handleBlob_run options blob w)
    as (blob1 & w1 & evs & Hrun & _ & _ & _ & _ & _ & Hout).
  rewrite Hrun1 in Hrun. injection Hrun as <- <-.
  destruct Hout as [(-> & _)|(img & deleted & Himg & -> & _ & Hst & _)]; [by left|right].
  assert (is_Some (store w !! BlobKey blob)) as Hold.
  { unfold stored_image in Himg. destruct (store w !! BlobKey blob); [eauto|discriminate]. }
  cbn. split; [by apply fresh_key_ne|].
  split; [apply not_elem_of_dom, is_fresh|]. split; [done|].
  rewrite Hst. destruct deleted.
  - rewrite lookup_delete_ne by (by apply not_eq_sym, fresh_key_ne).
    rewrite lookup_insert_eq. eauto.
  - rewrite lookup_insert_eq. eauto.
Qed.

(** X15.  The calls of a run of [handleBlob] come in the order decode,
    resize, create, encode, close, key, stat, delete, each at most once and
    at most eight in all; and [handleBlob] stops at the first call whose
    failure it looks at: such a call is the last one of the run, except a
    failed [jpeg.Encode], which is followed by the [Close] of the writer and
    by nothing else. *)
Theorem calls_in_order_fail_fast options blob w :
  exists blob' w' evs,
    handleBlob options blob w = Some (blob', w') /\
    trace w' = trace w ++ evs /\
    increasing (rank <$> evs) /\
    (length evs <= 8)%nat /\
    (forall i ev, evs !! i = Some ev -> failed_step ev = true ->
       S i = length evs \/
       (exists q img ok,
          ev = EvEncode q img false /\ evs !! S i = Some (EvClose ok) /\
          S (S i) = length evs)).
Proof.
  destruct (validateMimeType blob) eqn:Hv.
  2:{ exists blob, w, []. rewrite handleBlob_unsupported by done. rewrite app_nil_r.
      split; [done|]. split; [done|]. split; [exact I|]. split; [cbn; lia|].
      intros i ev Hi. by destruct i. }
  destruct (hd false (faults w)) eqn:F1;
    [|destruct (stored_image w (BlobKey blob)) as [img|] eqn:Himg].
  1,3: (edestruct (handleBlob_no_image options blob w) as (w' & Hrun & _ & _ & _ & _ & Htr);
    [eauto|]; destruct (Htr Hv) as [Ht _];
    exists blob, w', [EvDecode (BlobKey blob) false];
    split; [done|]; split; [done|]; split; [exact I|]; split; [cbn; lia|];
    intros i ev Hi Hf; destruct i as [|i]; [by left|by destruct i]).
  destruct (handleBlob_table options blob w img Hv F1 Himg)
    as (blob' & w' & evs & Hrun & Htr & Htab).
  cbv zeta in Htab. eexists blob', w', _. split; [done|]. split; [exact Htr|].
  unfold resize_events.
  destruct (targetSize (Size options) (MaxX img) (MaxY img)) as [[x y]|].
  all: repeat match type of Htab with
       | if ?b then _ else _ => destruct b
       | _ /\ _ /\ _ = _ => destruct Htab as (_ & _ & ->)
       | _ /\ _ /\ _ => destruct Htab as (_ & _ & Htab)
       end.
  all: split; [cbn; repeat split; lia|]; split; [cbn; lia|].
  all: intros i ev Hi Hf.
  all: do 9 (destruct i as [|i]; cbn in Hi;
             [first [discriminate Hi
                    |injection Hi as <-;
                     first [discriminate Hf | by left | right; by eexists _, _, _]]|]).
  all: discriminate Hi.
Qed.

(** ** The guard of the scaler, and the keys a run touches *)

Lemma targetSize_Some S w h x y :
  targetSize S w h = Some (x, y) -> 0 < S /\ (S < w \/ S < h).
Proof.
  intros Hts. destruct (Z_lt_le_dec 0 S) as [HS|HS].
  - split; [done|]. destruct (Z_lt_le_dec S w); [by left|].
    destruct (Z_lt_le_dec S h); [by right|].
    assert (targetSize S w h = None) as HN by (apply targetSize_None; lia). congruence.
  - assert (targetSize S w h = None) as HN by (apply targetSize_None; lia). congruence.
Qed.

(** X17.  [handleBlob] asks for a resize exactly when the object of a
    supported reference has been decoded, [Size] is positive and one of the
    dimensions of the image is strictly above [Size]; an image of exactly
    [Size] in its larger dimension is encoded at its own size.  The size
    asked for is the one the two passes compute. *)
Theorem resize_exactly_when_exceeding options blob w :
  exists blob' w' evs,
    handleBlob options blob w = Some (blob', w') /\
    trace w' = trace w ++ evs /\
    forall x y,
      EvResize x y ∈ evs <->
      validateMimeType blob = true /\ hd false (faults w) = false /\
      exists img,
        stored_image w (BlobKey blob) = Some img /\
        0 < Size options /\ (Size options < MaxX img \/ Size options < MaxY img) /\
        targetSize (Size options) (MaxX img) (MaxY img) = Some (x, y).
Proof.
  destruct (validateMimeType blob) eqn:Hv.
  2:{ exists blob, w, []. rewrite handleBlob_unsupported by done. rewrite app_nil_r.
      split; [done|]. split; [done|]. intros x y. split.
      - intros Hin. by apply elem_of_nil in Hin.
      - by intros [? _]. }
  destruct (hd false (faults w)) eqn:F1;
    [|destruct (stored_image w (BlobKey blob)) as [img|] eqn:Himg].
  1,3: (edestruct (handleBlob_no_image options blob w) as (w' & Hrun & _ & _ & _ & _ & Htr);
    [eauto|]; destruct (Htr Hv) as [Ht _];
    exists blob, w', [EvDecode (BlobKey blob) false];
    split; [done|]; split; [done|]; intros x y; split;
    [intros Hin; apply list_elem_of_singleton in Hin; discriminate
    |intros (_ & ? & ? & ? & _); congruence]).
  destruct (handleBlob_table options blob w img Hv F1 Himg)
    as (blob' & w' & evs & Hrun & Htr & Htab).
  cbv zeta in Htab. eexists blob', w', _. split; [done|]. split; [exact Htr|].
  assert (forall x y, EvResize x y ∉ evs) as Htl.
  { intros x y Hin.
    repeat match type of Htab with
           | if ?b then _ else _ => destruct b
           | _ /\ _ /\ _ = _ => destruct Htab as (_ & _ & ->)
           | _ /\ _ /\ _ => destruct Htab as (_ & _ & Htab)
           end;
      repeat (apply elem_of_cons in Hin as [?|Hin]; [discriminate|]);
      by apply elem_of_nil in Hin. }
  intros x y. split.
  - intros Hin. apply elem_of_app in Hin as [Hin|Hin]; [|by apply Htl in Hin].
    apply elem_of_cons in Hin as [?|Hin]; [discriminate|].
    apply resize_events_elem in Hin as (x' & y' & [= <- <-] & Hts).
    split; [done|]. split; [done|]. exists img. split; [done|].
    destruct (targetSize_Some _ _ _ _ _ Hts) as [HS Hex]. by repeat split.
  - intros (_ & _ & img' & Himg' & _ & _ & Hts). injection Himg' as <-.
    apply elem_of_app. left. apply elem_of_cons. right.
    unfold resize_events. rewrite Hts. by apply list_elem_of_singleton.
Qed.

(** X18.  A run of [handleBlob] touches at most two keys of the store: the
    key it was handed, whose object it leaves as it is or deletes, and one
    key that was not in use, under which it may store a new object.  Every
    other object is left as it was, whatever calls fail. *)
Theorem handleBlob_touches_two_keys options blob w :
  exists blob' w',
    handleBlob options blob w = Some (blob', w') /\
    (forall k, k <> BlobKey blob -> k <> fresh (dom (store w)) ->
       store w' !! k = store w !! k) /\
    (store w' !! BlobKey blob = store w !! BlobKey blob \/ store w' !! BlobKey blob = None) /\
    store w !! fresh (dom (store w)) = None.
Proof.
  assert (store w !! fresh (dom (store w)) = None) as Hfresh
    by apply not_elem_of_dom, is_fresh.
  destruct (validateMimeType blob) eqn:Hv.
  2:{ exists blob, w. rewrite handleBlob_unsupported by done. split; [done|].
      split; [done|]. split; [by left|done]. }
  destruct (hd false (faults w)) eqn:F1;
    [|destruct (stored_image w (BlobKey blob)) as [img|] eqn:Himg].
  1,3: (edestruct (handleBlob_no_image options blob w) as (w' & Hrun & Hst & _);
    [eauto|]; exists blob, w'; rewrite Hst; split; [done|]; split; [done|];
    split; [by left|done]).
  destruct (handleBlob_table options blob w img Hv F1 Himg)
    as (blob' & w' & evs & Hrun & _ & Htab).
  cbv zeta in Htab. exists blob', w'. split; [done|].
  assert (is_Some (store w !! BlobKey blob)) as Hold
    by (apply stored_image_is_Some; rewrite Himg; eauto).
  assert (fresh (dom (store w)) <> BlobKey blob) as Hne by (by apply fresh_key_ne).
  repeat match type of Htab with
         | if ?b then _ else _ => destruct b
         | _ /\ ?S = _ /\ _ => destruct Htab as (_ & -> & _)
         end.
  all: repeat match goal with |- context [if ?b then _ else _] => destruct b end.
  all: split; [intros k Hk Hk'; rewrite ?lookup_delete_ne, ?lookup_insert_ne by done; done|].
  all: split; [|done].
  all: first [left; rewrite ?lookup_insert_ne by done; reflexivity
             |right; apply lookup_delete_eq].
Qed.

(** ** The batch on uploads without images *)

Lemma set_arrays_id w l arr :
  arrays w !! l = Some arr -> set_arrays (insert l arr) w = w.
Proof. intros Hl. destruct w. unfold set_arrays. cbn in *. by rewrite insert_id. Qed.

Lemma set_gomaps_id w l m :
  gomaps w !! l = Some m -> set_gomaps (insert l m) w = w.
Proof. intros Hl. destruct w. unfold set_gomaps. cbn in *. by rewrite insert_id. Qed.

(** Writing back what was read leaves the heap as it is. *)
Lemma slice_loop_unsupported options s w arr cnt : forall start,
  arrays w !! sl_array s = Some arr ->
  (start + cnt <= sl_len s)%nat ->
  (forall i, (i < sl_len s)%nat ->
     exists x, arr !! (sl_offset s + i)%nat = Some x /\ validateMimeType x = false) ->
  for_each (seq start cnt) (slice_body options s) w = Some (tt, w).
Proof.
  induction cnt as [|cnt IH]; intros start Harr Hcnt Hall; [done|].
  cbn [seq for_each]. apply bind_Some. exists tt, w. split; [|apply IH; [done|lia|done]].
  destruct (Hall start ltac:(lia)) as (x & Hx & Hv).
  apply slice_body_Some. exists arr, x, x, w. split; [lia|]. split; [done|]. split; [done|].
  split; [by apply handleBlob_unsupported|].
  rewrite list_insert_id by done. symmetry. by apply set_arrays_id.
Qed.

Lemma handleBlobSlice_unsupported options s w xs :
  slice_elems w s = Some xs -> (forall x, x ∈ xs -> validateMimeType x = false) ->
  handleBlobSlice options s w = Some (s, w).
Proof.
  unfold slice_elems. destruct (arrays w !! sl_array s) as [arr|] eqn:Harr; [|done].
  case_decide as Hin; [|done]. intros [= <-] Hall.
  rewrite handleBlobSlice_unfold.
  rewrite (slice_loop_unsupported options s w arr (sl_len s) 0); [done..|lia|].
  intros i Hi. destruct (lookup_lt_is_Some_2 arr (sl_offset s + i)%nat ltac:(lia)) as [x Hx].
  exists x. split; [done|]. apply Hall.
  apply (list_elem_of_lookup_2 _ i). rewrite lookup_take_lt by done. by rewrite lookup_drop.
Qed.

Lemma field_loop_unsupported options mref m w keys F :
  gomaps w !! mref = Some m -> denotes w m F ->
  (forall k, k ∈ keys -> is_Some (m !! k)) ->
  (forall k xs x, F !! k = Some xs -> x ∈ xs -> validateMimeType x = false) ->
  for_each keys (field_body options mref) w = Some (tt, w).
Proof.
  intros Hm [Hd1 Hd2] Hin Hall.
  induction keys as [|k keys IH]; [done|].
  cbn [for_each]. apply bind_Some. exists tt, w. split.
  - destruct (Hin k ltac:(by apply elem_of_cons; left)) as [s Hs].
    destruct (Hd1 _ _ Hs) as (xs & Hxs & HF).
    unfold field_body. apply bind_Some. exists s, w. split.
    + unfold map_get. rewrite Hm. cbn. by rewrite Hs.
    + apply bind_Some. exists s, w. split.
      * apply (handleBlobSlice_unsupported _ _ _ xs); [done|]. intros x Hx. by eapply Hall.
      * unfold map_set. rewrite Hm. cbn. rewrite (insert_id m) by done.
        by rewrite set_gomaps_id.
  - apply IH. intros k' Hk'. apply Hin. by apply elem_of_cons; right.
Qed.

(** X11.  An upload that holds no object of a supported type passes through
    [ParseBlobs] as through [blobstore.ParseUpload] itself: the same results,
    and the same state (no further call to the blobstore, the heap as the
    collaborator left it). *)
Theorem unsupported_upload_passes_through options w :
  (forall k xs x, req_blobs (Request options) !! k = Some xs -> x ∈ xs ->
     validateMimeType x = false) ->
  ParseBlobs options w = blobstore_ParseUpload (Request options) w.
Proof.
  intros Hall. rewrite ParseBlobs_unfold.
  destruct (ParseUpload_spec (Request options) w)
    as [(Hf & e & Hpu)|(Hf & mref & m & w1 & Hpu & Hm & _ & Hden & _)].
  - by rewrite Hpu.
  - rewrite Hpu.
    destruct (map_range_keys mref m w1 Hm) as (keys & Hkeys & _ & Hin).
    unfold mbind, M_bind. rewrite Hkeys.
    rewrite (field_loop_unsupported options mref m w1 keys (req_blobs (Request options)));
      [done..| |done].
    intros k Hk. by apply Hin.
Qed.

(** ** The batch on a slice of images *)

Ltac hb_consumed k :=
  eexists _, _, k; split; [reflexivity|]; split; [lia|reflexivity].

(** [handleBlob] consults the outcomes of at most seven calls, in order. *)
Lemma handleBlob_faults options blob w :
  exists blob' w' k,
    handleBlob options blob w = Some (blob', w') /\ (k <= 7)%nat /\
    faults w' = Nat.iter k (@tail bool) (faults w).
Proof.
  unfold handleBlob.
  destruct (validateMimeType blob) eqn:Hv; cbn [negb]; [|hb_consumed 0%nat].
  unfold image_Decode, blobstore_Create, jpeg_Encode, writer_Close, writer_Key, blobstore_Stat,
    deleteOldBlob, blobstore_Delete, resize_Resize, next_fault, get_store, modify_store, emit.
  unfold mbind, M_bind, mret, M_ret. cbn.
  destruct (hd false (faults w)) eqn:F1; cbn; [hb_consumed 1%nat|].
  destruct (store w !! BlobKey blob) as [sb|] eqn:Hst; cbn; [|hb_consumed 1%nat].
  destruct (decodeBytes (blob_data sb)) as [img|] eqn:Hdec; cbn; [|hb_consumed 1%nat].
  destruct (targetSize (Size options) (MaxX img) (MaxY img)) as [[size_x size_y]|] eqn:Hts; cbn.
  all: destruct (hd false (tail (faults w))) eqn:F2; cbn; [hb_consumed 2%nat|].
  all: destruct (hd false (tail (tail (faults w)))) eqn:F3; cbn;
    [destruct (hd false (tail (tail (tail (faults w))))) eqn:F4; cbn; hb_consumed 4%nat|].
  all: destruct (hd false (tail (tail (tail (faults w))))) eqn:F4; cbn; [hb_consumed 4%nat|].
  all: destruct (hd false (tail (tail (tail (tail (faults w)))))) eqn:F5; cbn; [hb_consumed 5%nat|].
  all: rewrite lookup_insert_eq; cbn.
  all: destruct (hd false (tail (tail (tail (tail (tail (faults w))))))) eqn:F6; cbn;
    [hb_consumed 6%nat|].
  all: destruct (hd false (tail (tail (tail (tail (tail (tail (faults w)))))))) eqn:F7; cbn;
    hb_consumed 7%nat.
Qed.

Lemma no_faults_iter_tail k : forall l,
  Forall (fun b => b = false) l -> Forall (fun b : bool => b = false) (Nat.iter k (@tail bool) l).
Proof.
  induction k as [|k IH]; intros l Hl; [done|]. cbn. apply Forall_tail. by apply IH.
Qed.

Lemma handleBlob_no_faults options blob w blob' w' :
  handleBlob options blob w = Some (blob', w') -> no_faults w -> no_faults w'.
Proof.
  intros Hrun Hnf.
  destruct (handleBlob_faults options blob w) as (b & w1 & k & Hrun' & _ & Hf).
  rewrite Hrun in Hrun'. injection Hrun' as <- <-.
  unfold no_faults. rewrite Hf. by apply no_faults_iter_tail.
Qed.

(** The loop over the indices [start .. start + cnt - 1] of a slice whose
    entries have keys of their own, those of a supported type holding an
    image that decodes, without faults: every entry it visits is dealt with
    as [entry_done] says, the new objects stay in the store while the loop
    goes on, the objects the slice has no image for are left alone, and the
    store keeps its size. *)
Lemma slice_loop_images options s arr0 w0 cnt : forall start w arr,
  (sl_offset s + sl_len s <= length arr0)%nat ->
  NoDup (BlobKey <$> take (sl_len s) (drop (sl_offset s) arr0)) ->
  (forall i x, (i < sl_len s)%nat -> arr0 !! (sl_offset s + i)%nat = Some x ->
     validateMimeType x = true -> is_Some (stored_image w0 (BlobKey x))) ->
  (start + cnt <= sl_len s)%nat ->
  arrays w !! sl_array s = Some arr -> length arr = length arr0 ->
  no_faults w ->
  size (store w) = size (store w0) ->
  (forall j, (sl_offset s + start <= j)%nat -> arr !! j = arr0 !! j) ->
  (forall i x, (start <= i < sl_len s)%nat -> arr0 !! (sl_offset s + i)%nat = Some x ->
     validateMimeType x = true -> store w !! BlobKey x = store w0 !! BlobKey x) ->
  (forall k, is_Some (store w0 !! k) -> image_free s arr0 k -> store w !! k = store w0 !! k) ->
  (forall i, (i < start)%nat -> entry_done options s arr0 w0 w arr i) ->
  exists arr' w',
    for_each (seq start cnt) (slice_body options s) w = Some (tt, w') /\
    arrays w' !! sl_array s = Some arr' /\ length arr' = length arr0 /\
    no_faults w' /\
    size (store w') = size (store w0) /\
    (forall k, is_Some (store w0 !! k) -> image_free s arr0 k -> store w' !! k = store w0 !! k) /\
    (forall i, (i < start + cnt)%nat -> entry_done options s arr0 w0 w' arr' i).
Proof.
  induction cnt as [|cnt IH];
    intros start w arr Hin Hnd Himgs Hcnt Harr Hlen Hnf Hsize Hsame Hrest Hout Hdone.
  { exists arr, w. cbn. rewrite Nat.add_0_r. by repeat (split; [done|]). }
  cbn [seq for_each].
  destruct (lookup_lt_is_Some_2 arr0 (sl_offset s + start)%nat ltac:(lia)) as [x Hx0].
  assert (arr !! (sl_offset s + start)%nat = Some x) as Hx by (rewrite Hsame by lia; done).
  destruct (validateMimeType x) eqn:Hv.
  - (* an image: it is replaced *)
    destruct (Himgs start x ltac:(lia) Hx0 Hv) as [img Himg0].
    assert (store w !! BlobKey x = store w0 !! BlobKey x) as Hkx
      by (apply (Hrest start); [lia|done..]).
    assert (stored_image w (BlobKey x) = Some img) as Himg
      by (rewrite <- Himg0; by apply stored_image_store).
    destruct (handleBlob_success options x w img Hv Himg Hnf) as (w1 & Hhb & Hst1 & Ha1 & Hm1).
    pose proof (handleBlob_no_faults _ _ _ _ _ Hhb Hnf) as Hnf1.
    set (nk := fresh (dom (store w))) in *.
    set (obj := mkStored "image/jpeg" (JpegBytes (Quality options) (resized options img))) in *.
    set (y := mkBlobInfo nk "image/jpeg") in *.
    set (arr1 := <[(sl_offset s + start)%nat := y]> arr).
    set (w2 := set_arrays (insert (sl_array s) arr1) w1).
    assert (slice_body options s start w = Some (tt, w2)) as Hbody.
    { apply slice_body_Some. exists arr, x, y, w1. repeat split; try done. lia. }
    assert (is_Some (store w !! BlobKey x)) as Hxin
      by (apply stored_image_is_Some; rewrite Himg; eauto).
    assert (nk <> BlobKey x) as Hnkx by (by apply fresh_key_ne).
    assert (forall k, k <> BlobKey x -> is_Some (store w !! k) -> store w2 !! k = store w !! k)
      as Hkeep.
    { intros k Hk Hsome. cbn. rewrite Hst1, lookup_delete_ne by done.
      by apply lookup_insert_fresh. }
    assert (store w2 !! nk = Some obj) as Hnew.
    { cbn. rewrite Hst1, lookup_delete_ne by done. apply lookup_insert_eq. }
    (* the keys of the images still to come *)
    assert (forall j x', (start < j < sl_len s)%nat -> arr0 !! (sl_offset s + j)%nat = Some x' ->
              validateMimeType x' = true ->
              BlobKey x' <> BlobKey x /\ is_Some (store w !! BlobKey x')) as Hlater.
    { intros j x' Hj Hx' Hv'. split.
      - intros Heq. assert (j = start); [|lia].
        apply (NoDup_lookup _ _ _ (BlobKey x) Hnd);
          rewrite list_lookup_fmap, lookup_take_lt, lookup_drop by lia.
        + rewrite Hx'. cbn. by rewrite Heq.
        + by rewrite Hx0.
      - rewrite (Hrest j x') by (done || lia).
        apply stored_image_is_Some. by apply (Himgs j); [lia|..]. }
    destruct (IH (S start) w2 arr1)
      as (arr' & w' & Hloop & Harr' & Hlen' & Hnf' & Hsize' & Hout' & Hall); try done.
    + lia.
    + cbn. apply lookup_insert_eq.
    + unfold arr1. by rewrite length_insert.
    + cbn. rewrite Hst1. rewrite map_size_delete_Some.
      * rewrite map_size_insert_None by apply not_elem_of_dom, is_fresh. cbn. done.
      * rewrite lookup_insert_ne by done. done.
    + intros j Hj. unfold arr1. rewrite list_lookup_insert_ne by lia. apply Hsame. lia.
    + intros i x' Hi Hx' Hv'. destruct (Hlater i x' ltac:(lia) Hx' Hv') as [Hne Hsome].
      rewrite Hkeep by done. apply (Hrest i); [lia|done..].
    + intros k Hk Hfar. rewrite Hkeep.
      * by apply Hout.
      * apply not_eq_sym. apply (Hfar start); [lia|done..].
      * rewrite Hout by done. done.
    + intros i Hi. destruct (decide (i = start)) as [->|Hne].
      * exists x, y. split; [done|]. split.
        { unfold arr1. apply list_lookup_insert_eq. by apply lookup_lt_Some in Hx. }
        split; [congruence|]. intros _.
        split; [done|]. split; [by exists img|]. split; [|split].
        -- intros j x' Hj Hx' Hv'. destruct (Hlater j x' ltac:(lia) Hx' Hv') as [_ Hsome].
           cbn. by apply fresh_key_ne.
        -- intros i' x' y' Hi' Hx' Hv' Hy'. unfold arr1 in Hy'.
           rewrite list_lookup_insert_ne in Hy' by lia.
           destruct (Hdone i' Hi') as (x'' & y'' & Hx'' & Hy'' & _ & Him).
           rewrite Hx' in Hx''. injection Hx'' as <-. rewrite Hy' in Hy''. injection Hy'' as <-.
           destruct (Him Hv') as (_ & (? & _ & Hst'') & _). cbn.
           apply not_eq_sym, fresh_key_ne. rewrite Hst''. eauto.
        -- intros k Hk Hfar. cbn. apply fresh_key_ne. rewrite Hout by done. done.
      * destruct (Hdone i ltac:(lia)) as (xi & yi & Hxi & Hyi & Hun & Him).
        exists xi, yi. split; [done|]. split.
        { unfold arr1. rewrite list_lookup_insert_ne by lia. done. }
        split; [done|]. intros Hvi.
        destruct (Him Hvi) as (Hct & (imgi & Himgi & Hsti) & Hlate & Hearly & Hfar).
        split; [done|]. split.
        { exists imgi. split; [done|].
          rewrite Hkeep; [done| |rewrite Hsti; eauto]. apply (Hlate start); [lia|done..]. }
        split; [|split; [|done]].
        -- intros j x' Hj Hx' Hv'. apply (Hlate j); [lia|done..].
        -- intros i' x' y' Hi' Hx' Hv' Hy'. unfold arr1 in Hy'.
           rewrite list_lookup_insert_ne in Hy' by lia. by apply (Hearly i' x').
    + exists arr', w'. split; [apply bind_Some; by exists tt, w2|].
      repeat (split; [done|]).
      intros i Hi. apply Hall. lia.
  - (* another kind of object: the entry is written back as it was *)
    assert (slice_body options s start w = Some (tt, w)) as Hbody.
    { apply slice_body_Some. exists arr, x, x, w. split; [lia|]. split; [done|].
      split; [done|]. split; [by apply handleBlob_unsupported|].
      rewrite list_insert_id by done. symmetry. by apply set_arrays_id. }
    destruct (IH (S start) w arr)
      as (arr' & w' & Hloop & Harr' & Hlen' & Hnf' & Hsize' & Hout' & Hall); try done.
    + lia.
    + intros j Hj. apply Hsame. lia.
    + intros i x' Hi. apply Hrest. lia.
    + intros i Hi. destruct (decide (i = start)) as [->|Hne]; [|apply Hdone; lia].
      exists x, x. split; [done|]. split; [done|]. split; [done|]. congruence.
    + exists arr', w'. split; [apply bind_Some; by exists tt, w|].
      repeat (split; [done|]).
      intros i Hi. apply Hall. lia.
Qed.

(** [handleBlobSlice] on a slice whose entries have keys of their own,
    those of a supported type holding an image that decodes, in the middle
    of a batch without faults. *)
Lemma handleBlobSlice_images options s w xs :
  slice_elems w s = Some xs ->
  NoDup (BlobKey <$> xs) ->
  (forall x, x ∈ xs -> validateMimeType x = true -> is_Some (stored_image w (BlobKey x))) ->
  no_faults w ->
  exists ys w',
    handleBlobSlice options s w = Some (s, w') /\
    slice_elems w' s = Some ys /\ length ys = length xs /\
    no_faults w' /\
    size (store w') = size (store w) /\
    (forall k, is_Some (store w !! k) ->
       (forall x, x ∈ xs -> validateMimeType x = true -> BlobKey x <> k) ->
       store w' !! k = store w !! k) /\
    (forall i x y, xs !! i = Some x -> ys !! i = Some y ->
       (validateMimeType x = false -> y = x) /\
       (validateMimeType x = true ->
        ContentType y = "image/jpeg"%string /\
        (exists img, stored_image w (BlobKey x) = Some img /\
           store w' !! BlobKey y =
             Some (mkStored "image/jpeg" (JpegBytes (Quality options) (resized options img)))) /\
        (forall k, is_Some (store w !! k) ->
           (forall x0, x0 ∈ xs -> validateMimeType x0 = true -> BlobKey x0 <> k) ->
           BlobKey y <> k))) /\
    (forall i j xi xj yi yj, (i < j)%nat ->
       xs !! i = Some xi -> xs !! j = Some xj -> ys !! i = Some yi -> ys !! j = Some yj ->
       validateMimeType xi = true -> validateMimeType xj = true -> BlobKey yi <> BlobKey yj).
Proof.
  unfold slice_elems. destruct (arrays w !! sl_array s) as [arr|] eqn:Harr; [|done].
  case_decide as Hin; [|done]. intros [= <-] Hnd Himgs Hnf.
  set (xs := take (sl_len s) (drop (sl_offset s) arr)) in *.
  assert (forall i x, xs !! i = Some x <->
            (i < sl_len s)%nat /\ arr !! (sl_offset s + i)%nat = Some x) as Hxs.
  { intros i x. unfold xs. rewrite lookup_take_Some, lookup_drop. tauto. }
  assert (forall k, (forall x, x ∈ xs -> validateMimeType x = true -> BlobKey x <> k) ->
            image_free s arr k) as Hfar.
  { intros k Hk i x Hi Hx. apply Hk. apply (list_elem_of_lookup_2 _ i). by apply Hxs. }
  destruct (slice_loop_images options s arr w (sl_len s) 0 w arr)
    as (arr' & w' & Hloop & Harr' & Hlen' & Hnf' & Hsize & Hout & Hall); try done.
  { intros i x Hi Hx. apply Himgs. apply (list_elem_of_lookup_2 _ i). by apply Hxs. }
  { intros i Hi. lia. }
  set (ys := take (sl_len s) (drop (sl_offset s) arr')).
  assert (forall i y, ys !! i = Some y <->
            (i < sl_len s)%nat /\ arr' !! (sl_offset s + i)%nat = Some y) as Hys.
  { intros i y. unfold ys. rewrite lookup_take_Some, lookup_drop. tauto. }
  exists ys, w'.
  rewrite handleBlobSlice_unfold, Hloop. split; [done|].
  rewrite Harr'. split; [case_decide; [done|lia]|].
  split; [unfold xs, ys; rewrite !length_take, !length_drop; lia|].
  split; [done|]. split; [done|].
  split; [intros k Hk Hx; apply Hout; [done|by apply Hfar]|].
  split.
  - intros i x y Hx Hy. apply Hxs in Hx as [Hi Hx]. apply Hys in Hy as [_ Hy].
    destruct (Hall i ltac:(lia)) as (x' & y' & Hx' & Hy' & Hun & Him).
    rewrite Hx in Hx'. injection Hx' as <-. rewrite Hy in Hy'. injection Hy' as <-.
    split; [done|]. intros Hv. destruct (Him Hv) as (Hct & Himg & _ & _ & Hav).
    split; [done|]. split; [done|]. intros k Hk Hxk. apply Hav; [done|by apply Hfar].
  - intros i j xi xj yi yj Hij Hxi Hxj Hyi Hyj Hvi Hvj.
    apply Hxs in Hxi as [Hi Hxi]. apply Hxs in Hxj as [Hj Hxj].
    apply Hys in Hyi as [_ Hyi]. apply Hys in Hyj as [_ Hyj].
    destruct (Hall j ltac:(lia)) as (x' & y' & Hx' & Hy' & _ & Him).
    rewrite Hxj in Hx'. injection Hx' as <-. rewrite Hyj in Hy'. injection Hy' as <-.
    destruct (Him Hvj) as (_ & _ & _ & Hearly & _). by apply (Hearly i xi yi).
Qed.

(** X12.  A slice of references with keys of their own, each of a supported
    type and holding an image that decodes, is replaced as a whole when no
    call fails: [handleBlobSlice] returns the slice it was given, every entry
    is now a reference of type image/jpeg to a stored JPEG, at
    [options.Quality], of the resized source at the same index; the new
    references have keys of their own; the objects the slice does not refer to
    are left as they were; and the store holds as many objects as before (one
    written and one deleted per entry). *)
Theorem slice_of_images_is_replaced options s w xs :
  slice_elems w s = Some xs ->
  NoDup (BlobKey <$> xs) ->
  (forall x, x ∈ xs -> validateMimeType x = true /\ is_Some (stored_image w (BlobKey x))) ->
  no_faults w ->
  exists ys w',
    handleBlobSlice options s w = Some (s, w') /\
    slice_elems w' s = Some ys /\
    Forall2 (fun x y =>
      ContentType y = "image/jpeg"%string /\
      exists img, stored_image w (BlobKey x) = Some img /\
        store w' !! BlobKey y =
          Some (mkStored "image/jpeg" (JpegBytes (Quality options) (resized options img))))
      xs ys /\
    NoDup (BlobKey <$> ys) /\
    (forall k, is_Some (store w !! k) -> (forall x, x ∈ xs -> BlobKey x <> k) ->
       store w' !! k = store w !! k) /\
    size (store w') = size (store w).
Proof.
  intros Hxs Hnd Himgs Hnf.
  destruct (handleBlobSlice_images options s w xs Hxs Hnd)
    as (ys & w' & Hrun & Hys & Hlen & _ & Hsize & Hout & Hall & Hdist); [|done|].
  { intros x Hx _. by apply Himgs. }
  assert (forall i x, xs !! i = Some x -> validateMimeType x = true) as Hv.
  { intros i x Hx. apply Himgs. by apply (list_elem_of_lookup_2 _ i). }
  exists ys, w'. repeat (split; [done|]).
  split; [|split; [|split; [|done]]].
  - apply Forall2_same_length_lookup. split; [done|].
    intros i x y Hx Hy. destruct (Hall i x y Hx Hy) as [_ Him].
    destruct (Him (Hv i x Hx)) as (Hct & Himg & _). by split.
  - apply NoDup_alt. intros i j k Hi Hj.
    rewrite list_lookup_fmap in Hi, Hj.
    destruct (ys !! i) as [yi|] eqn:Hyi; [|done]. destruct (ys !! j) as [yj|] eqn:Hyj; [|done].
    cbn in Hi, Hj. injection Hi as <-. injection Hj as Hj.
    destruct (lookup_lt_is_Some_2 xs i) as [xi Hxi];
      [rewrite <- Hlen; by apply lookup_lt_Some in Hyi|].
    destruct (lookup_lt_is_Some_2 xs j) as [xj Hxj];
      [rewrite <- Hlen; by apply lookup_lt_Some in Hyj|].
    destruct (Nat.lt_trichotomy i j) as [Hlt|[->|Hgt]]; [exfalso|done|exfalso].
    + by apply (Hdist i j xi xj yi yj Hlt Hxi Hxj Hyi Hyj (Hv _ _ Hxi) (Hv _ _ Hxj)).
    + by apply (Hdist j i xj xi yj yi Hgt Hxj Hxi Hyj Hyi (Hv _ _ Hxj) (Hv _ _ Hxi)).
  - intros k Hk Hfar. apply Hout; [done|]. intros x Hx _. by apply Hfar.
Qed.

(** ** The batch on a whole upload *)

Lemma handleBlobSlice_frame options s w r w' :
  handleBlobSlice options s w = Some (r, w') ->
  gomaps w' = gomaps w /\ (forall l, l <> sl_array s -> arrays w' !! l = arrays w !! l).
Proof.
  intros Hrun. rewrite handleBlobSlice_unfold in Hrun.
  destruct (for_each _ _ w) as [[[] w'']|] eqn:Hloop; [|done]. injection Hrun as <- <-.
  apply slice_loop_frame in Hloop as (Hm & _ & Hother & _). by split.
Qed.

Lemma NoDup_fmap_elem_eq {A B} (f : A -> B) (l : list A) x y :
  NoDup (f <$> l) -> x ∈ l -> y ∈ l -> f x = f y -> x = y.
Proof.
  intros Hnd Hx Hy Heq.
  apply list_elem_of_lookup in Hx as [i Hi]. apply list_elem_of_lookup in Hy as [j Hj].
  assert (i = j) as ->; [|congruence].
  apply (NoDup_lookup _ _ _ (f x) Hnd); rewrite list_lookup_fmap.
  - by rewrite Hi.
  - rewrite Hj. cbn. by rewrite Heq.
Qed.

(** The walk over the fields [keys] of an upload, the other fields being
    done: in every field the images end up replaced by references to their
    JPEGs and the other entries are as they were; the JPEGs written for one
    field outlive the walk over the fields that follow, and the objects that
    are no image of the upload are left alone. *)
Lemma field_loop_images options mref (m : gmap string Slice)
    (F0 : gmap string (list BlobInfo)) w1 keys : forall w,
  separate m ->
  (forall k s, m !! k = Some s -> is_Some (F0 !! k)) ->
  (forall k xs, F0 !! k = Some xs -> NoDup (BlobKey <$> xs)) ->
  (forall k1 k2 xs1 xs2 x1 x2,
     F0 !! k1 = Some xs1 -> F0 !! k2 = Some xs2 -> x1 ∈ xs1 -> x2 ∈ xs2 ->
     BlobKey x1 = BlobKey x2 -> k1 = k2) ->
  (forall k xs x, F0 !! k = Some xs -> x ∈ xs -> validateMimeType x = true ->
     is_Some (stored_image w1 (BlobKey x))) ->
  NoDup keys -> (forall k, k ∈ keys -> is_Some (m !! k)) ->
  gomaps w !! mref = Some m -> no_faults w -> size (store w) = size (store w1) ->
  (forall k0, is_Some (store w1 !! k0) ->
     (forall k xs x, F0 !! k = Some xs -> x ∈ xs -> validateMimeType x = true ->
        BlobKey x <> k0) ->
     store w !! k0 = store w1 !! k0) ->
  (forall k s xs, k ∈ keys -> m !! k = Some s -> F0 !! k = Some xs ->
     slice_elems w s = Some xs /\
     forall x, x ∈ xs -> validateMimeType x = true ->
       store w !! BlobKey x = store w1 !! BlobKey x) ->
  (forall k s xs, k ∉ keys -> m !! k = Some s -> F0 !! k = Some xs ->
     exists ys, slice_elems w s = Some ys /\
       Forall2 (fun x y =>
         (validateMimeType x = false -> y = x) /\
         (validateMimeType x = true ->
          ContentType y = "image/jpeg"%string /\
          (exists img, stored_image w1 (BlobKey x) = Some img /\
             store w !! BlobKey y =
               Some (mkStored "image/jpeg"
                       (JpegBytes (Quality options) (resized options img)))) /\
          (forall k' xs' x', k' ∈ keys -> F0 !! k' = Some xs' -> x' ∈ xs' ->
             validateMimeType x' = true -> BlobKey y <> BlobKey x'))) xs ys) ->
  exists w',
    for_each keys (field_body options mref) w = Some (tt, w') /\
    gomaps w' !! mref = Some m /\ size (store w') = size (store w1) /\
    (forall k0, is_Some (store w1 !! k0) ->
       (forall k xs x, F0 !! k = Some xs -> x ∈ xs -> validateMimeType x = true ->
          BlobKey x <> k0) ->
       store w' !! k0 = store w1 !! k0) /\
    (forall k s xs, m !! k = Some s -> F0 !! k = Some xs ->
       exists ys, slice_elems w' s = Some ys /\
         Forall2 (fun x y =>
           (validateMimeType x = false -> y = x) /\
           (validateMimeType x = true ->
            ContentType y = "image/jpeg"%string /\
            exists img, stored_image w1 (BlobKey x) = Some img /\
              store w' !! BlobKey y =
                Some (mkStored "image/jpeg"
                        (JpegBytes (Quality options) (resized options img)))))
           xs ys).
Proof.
  induction keys as [|k keys IH];
    intros w Hsep HF Hnd1 Hnd2 Himgs Hnd Hin Hm Hnf Hsize Hglob Htodo Hdone.
  - exists w. repeat (split; [done|]).
    intros k s xs Hs Hxs.
    destruct (Hdone k s xs ltac:(apply not_elem_of_nil) Hs Hxs) as (ys & Hys & Hall).
    exists ys. split; [done|].
    eapply Forall2_impl; [exact Hall|]. intros x y [Hun Him]. split; [done|].
    intros Hv. destruct (Him Hv) as (Hct & Himg & _). by split.
  - apply NoDup_cons in Hnd as [Hk Hnd].
    destruct (Hin k ltac:(by apply elem_of_cons; left)) as [s Hs].
    destruct (HF k s Hs) as [xs Hxs].
    destruct (Htodo k s xs ltac:(by apply elem_of_cons; left) Hs Hxs) as [Helems Hstore].
    (* the images of the fields still to come are where they were *)
    assert (forall k2 xs2 x2, k2 ∈ k :: keys -> F0 !! k2 = Some xs2 -> x2 ∈ xs2 ->
              validateMimeType x2 = true ->
              store w !! BlobKey x2 = store w1 !! BlobKey x2 /\
              is_Some (store w !! BlobKey x2)) as Hthere.
    { intros k2 xs2 x2 Hk2 Hxs2 Hx2 Hv2. destruct (Hin k2 Hk2) as [s2 Hs2].
      destruct (Htodo k2 s2 xs2 Hk2 Hs2 Hxs2) as [_ Hst2].
      split; [by apply Hst2|]. rewrite Hst2 by done.
      apply stored_image_is_Some. by apply (Himgs k2 xs2). }
    destruct (handleBlobSlice_images options s w xs Helems (Hnd1 _ _ Hxs))
      as (ys & w' & Hrun & Hys & Hlen & Hnf' & Hsize' & Hout & Hall & _); [|done|].
    { intros x Hx Hv. rewrite (stored_image_store w1 w) by (by apply Hstore).
      by apply (Himgs k xs). }
    destruct (handleBlobSlice_frame _ _ _ _ _ Hrun) as [Hm' Hother].
    assert (field_body options mref k w = Some (tt, w')) as Hbody.
    { unfold field_body. apply bind_Some. exists s, w. split.
      - unfold map_get. rewrite Hm. cbn. by rewrite Hs.
      - apply bind_Some. exists s, w'. split; [done|].
        unfold map_set. rewrite Hm', Hm. cbn. rewrite (insert_id m) by done.
        rewrite set_gomaps_id; [done|by rewrite Hm']. }
    (* slices of the other fields lie in other arrays *)
    assert (forall k' s', k' <> k -> m !! k' = Some s' ->
              slice_elems w' s' = slice_elems w s') as Helse.
    { intros k' s' Hne Hs'. apply slice_elems_arrays. apply Hother.
      intros Heq. apply Hne. by apply (Hsep k' k s' s). }
    (* the objects of the other fields are not those of this one *)
    assert (forall k' xs' x', k' <> k -> F0 !! k' = Some xs' -> x' ∈ xs' ->
              forall x, x ∈ xs -> BlobKey x <> BlobKey x') as Hother_keys.
    { intros k' xs' x' Hne Hxs' Hx' x Hx Heq. apply Hne. symmetry.
      by apply (Hnd2 k k' xs xs' x x'). }
    destruct (IH w') as (w'' & Hloop & Hm'' & Hsize'' & Hglob'' & Hfinal); try done.
    + intros k' Hk'. apply Hin. by apply elem_of_cons; right.
    + by rewrite Hm'.
    + by rewrite Hsize'.
    + intros k0 Hk0 Hfree. rewrite Hout; [by apply Hglob|by rewrite Hglob|].
      intros x Hx Hv. by apply (Hfree k xs).
    + intros k' s' xs' Hk' Hs' Hxs'.
      assert (k' <> k) as Hne by (intros ->; done).
      destruct (Htodo k' s' xs' ltac:(by apply elem_of_cons; right) Hs' Hxs') as [He Hst].
      split; [by rewrite (Helse k' s')|].
      intros x' Hx' Hv'.
      destruct (Hthere k' xs' x' ltac:(by apply elem_of_cons; right) Hxs' Hx' Hv') as [Heq Hsome].
      rewrite Hout; [done..|]. intros x Hx _. by apply (Hother_keys k' xs').
    + intros k' s' xs' Hk' Hs' Hxs'. destruct (decide (k' = k)) as [->|Hne].
      * rewrite Hs in Hs'. injection Hs' as <-. rewrite Hxs in Hxs'. injection Hxs' as <-.
        exists ys. split; [done|].
        apply Forall2_same_length_lookup. split; [done|].
        intros i x y Hx Hy. destruct (Hall i x y Hx Hy) as [Hun Him].
        assert (x ∈ xs) as Hxin by (by apply (list_elem_of_lookup_2 _ i)).
        split; [done|]. intros Hv. destruct (Him Hv) as (Hct & (img & Himg & Hst) & Hav).
        split; [done|]. split.
        -- exists img. split; [|done].
           by rewrite <- (stored_image_store w1 w) by (by apply Hstore).
        -- intros k2 xs2 x2 Hk2 Hxs2 Hx2 Hv2.
           assert (k2 <> k) as Hne2 by (intros ->; done).
           destruct (Hthere k2 xs2 x2 ltac:(by apply elem_of_cons; right) Hxs2 Hx2 Hv2)
             as [_ Hsome].
           apply Hav; [done|]. intros x0 Hx0 _. by apply (Hother_keys k2 xs2).
      * destruct (Hdone k' s' xs') as (ys' & Hys' & Hall'); [|done..|].
        { intros Hk2. apply elem_of_cons in Hk2 as [?|?]; done. }
        exists ys'. split; [by rewrite (Helse k' s')|].
        eapply Forall2_impl; [exact Hall'|].
        intros x y [Hun Him]. split; [done|]. intros Hv.
        destruct (Him Hv) as (Hct & (img & Himg & Hst) & Hav).
        split; [done|]. split.
        -- exists img. split; [done|]. rewrite Hout; [done|rewrite Hst; eauto|].
           intros x0 Hx0 Hv0 Heq. by apply (Hav k xs x0); [apply elem_of_cons; left|..].
        -- intros k2 xs2 x2 Hk2 Hxs2 Hx2 Hv2. apply (Hav k2 xs2); [|done..].
           by apply elem_of_cons; right.
    + exists w''. split; [apply bind_Some; by exists tt, w'|]. by repeat split.
Qed.

(** X16.  An upload is dealt with as a whole.  Let every uploaded reference
    name a stored object, under a key of its own, let the objects of a
    supported type hold images that decode, and let no call fail.  Then
    [ParseBlobs] returns the map of the upload, with the other values, in
    which, index by index, every reference of a supported type has become a
    reference of type image/jpeg to a stored JPEG, at [options.Quality], of
    the resized source, and every other reference is the one uploaded, its
    object untouched; and the store holds as many objects as before. *)
Theorem upload_is_replaced options w :
  no_faults w ->
  (forall k xs, req_blobs (Request options) !! k = Some xs -> NoDup (BlobKey <$> xs)) ->
  (forall k1 k2 xs1 xs2 x1 x2,
     req_blobs (Request options) !! k1 = Some xs1 ->
     req_blobs (Request options) !! k2 = Some xs2 ->
     x1 ∈ xs1 -> x2 ∈ xs2 -> BlobKey x1 = BlobKey x2 -> k1 = k2) ->
  (forall k xs x, req_blobs (Request options) !! k = Some xs -> x ∈ xs ->
     is_Some (store w !! BlobKey x) /\
     (validateMimeType x = true -> is_Some (stored_image w (BlobKey x)))) ->
  exists mref w' F',
    ParseBlobs options w = Some (Some mref, req_other (Request options), None, w') /\
    map_elems w' mref = Some F' /\
    (forall k, option_Forall2 (Forall2 (batch_result options w w'))
                 (req_blobs (Request options) !! k) (F' !! k)) /\
    size (store w') = size (store w).
Proof.
  intros Hnf Hnd1 Hnd2 Himgs.
  destruct (ParseUpload_spec (Request options) w)
    as [(Hf & _)|(_ & mref & m & w1 & Hpu & Hm & _ & [Hd1 Hd2] & Hsep & Hst1 & _ & _ & Hf1)].
  { destruct (no_faults_next 0 (faults w) Hnf) as [_ Hh]. cbn in Hh. congruence. }
  assert (forall k, stored_image w1 k = stored_image w k) as Hsi
    by (intros k; apply stored_image_store; by rewrite Hst1).
  destruct (map_range_keys mref m w1 Hm) as (keys & Hkeys & Hndk & Hin).
  destruct (field_loop_images options mref m (req_blobs (Request options)) w1 keys w1)
    as (w' & Hloop & Hm' & Hsize & Hglob & Hfinal); try done.
  - intros k s Hs. destruct (Hd1 _ _ Hs) as (xs & _ & ->). eauto.
  - intros k xs x Hxs Hx Hv. rewrite Hsi. by apply (Himgs k xs).
  - intros k. apply Hin.
  - by apply (no_faults_tail w).
  - intros k s xs _ Hs Hxs. destruct (Hd1 _ _ Hs) as (xs' & Hxs' & HF).
    rewrite Hxs in HF. injection HF as <-. by split.
  - intros k s xs Hk Hs _. exfalso. apply Hk. apply Hin. eauto.
  - exists mref, w', (omap (slice_elems w') m).
    rewrite ParseBlobs_unfold, Hpu. unfold mbind, M_bind. rewrite Hkeys, Hloop.
    split; [done|]. split; [unfold map_elems; by rewrite Hm'|].
    split; [|by rewrite Hsize, Hst1].
    intros k. rewrite lookup_omap.
    destruct (m !! k) as [s|] eqn:Hs; cbn; [|rewrite (Hd2 _ Hs); constructor].
    destruct (Hd1 _ _ Hs) as (xs & _ & Hxs). rewrite Hxs.
    destruct (Hfinal k s xs Hs Hxs) as (ys & -> & Hall). constructor.
    apply Forall2_same_length_lookup in Hall as [Hlen Hall].
    apply Forall2_same_length_lookup. split; [done|].
    intros i x y Hx Hy. destruct (Hall i x y Hx Hy) as [Hun Him].
    assert (x ∈ xs) as Hxin by (by apply (list_elem_of_lookup_2 _ i)).
    unfold batch_result. destruct (validateMimeType x) eqn:Hv.
    + destruct (Him eq_refl) as (Hct & img & Himg & Hst). split; [done|].
      exists img. by rewrite <- Hsi.
    + split; [by apply Hun|]. rewrite <- Hst1. apply Hglob.
      * rewrite Hst1. by apply (Himgs k xs).
      * intros k' xs' x' Hxs' Hx' Hv' Heq.
        assert (k' = k) as -> by (by apply (Hnd2 k' k xs' xs x' x)).
        rewrite Hxs in Hxs'. injection Hxs' as <-.
        assert (x' = x) as -> by (by apply (NoDup_fmap_elem_eq BlobKey xs); [apply Hnd1 with k|..]).
        congruence.
Qed.

(** ** The two revisions of the package *)

Lemma validateMimeType_rev1_eq blob : validateMimeType_rev1 blob = validateMimeType blob.
Proof. unfold validateMimeType_rev1, validateMimeType. by destruct (default false _). Qed.

Ltac rev_same :=
  eexists _, _, _; split; [reflexivity|]; split; [reflexivity|]; left; reflexivity.

Ltac rev_encode :=
  eexists _, _, _; split; [reflexivity|]; split; [reflexivity|]; right;
  split; [reflexivity|]; eexists _, _; cbn;
  split; [rewrite <- ?app_assoc; reflexivity|];
  split; [rewrite <- ?app_assoc; reflexivity|];
  split; [eexists _, _; reflexivity|];
  split; [reflexivity|]; split; reflexivity.

(** X13.  The two revisions of [validateMimeType] are the same function, and
    the two revisions of [handleBlob] return the same reference from the same
    state.  They leave the same state too, unless [jpeg.Encode] fails: then
    the first revision returns with its writer still open, having left the
    store alone, and the second makes one more call, the [Close] of that
    writer. *)
Theorem revisions_agree options blob w :
  validateMimeType_rev1 blob = validateMimeType blob /\
  exists blob' w1 w2,
    handleBlob_rev1 options blob w = Some (blob', w1) /\
    handleBlob options blob w = Some (blob', w2) /\
    (w1 = w2 \/
     (blob' = blob /\
      exists evs ok,
        trace w1 = trace w ++ evs /\
        trace w2 = trace w ++ evs ++ [EvClose ok] /\
        (exists q img, last evs = Some (EvEncode q img false)) /\
        open_writers 0 evs = Some 1%nat /\
        open_writers 0 (evs ++ [EvClose ok]) = Some 0%nat /\
        store w1 = store w)).
Proof.
  split; [apply validateMimeType_rev1_eq|].
  unfold handleBlob_rev1, handleBlob. rewrite validateMimeType_rev1_eq.
  destruct (validateMimeType blob) eqn:Hv; cbn [negb]; [|rev_same].
  unfold image_Decode, blobstore_Create, jpeg_Encode, writer_Close, writer_Key, blobstore_Stat,
    deleteOldBlob, blobstore_Delete, resize_Resize, next_fault, get_store, modify_store, emit.
  unfold mbind, M_bind, mret, M_ret. cbn.
  destruct (hd false (faults w)) eqn:F1; cbn; [rev_same|].
  destruct (store w !! BlobKey blob) as [sb|] eqn:Hst; cbn; [|rev_same].
  destruct (decodeBytes (blob_data sb)) as [img|] eqn:Hdec; cbn; [|rev_same].
  destruct (targetSize (Size options) (MaxX img) (MaxY img)) as [[size_x size_y]|] eqn:Hts; cbn.
  all: destruct (hd false (tail (faults w))) eqn:F2; cbn; [rev_same|].
  all: destruct (hd false (tail (tail (faults w)))) eqn:F3; cbn;
    [destruct (hd false (tail (tail (tail (faults w))))) eqn:F4; cbn; rev_encode|].
  all: destruct (hd false (tail (tail (tail (faults w))))) eqn:F4; cbn; [rev_same|].
  all: destruct (hd false (tail (tail (tail (tail (faults w)))))) eqn:F5; cbn; [rev_same|].
  all: rewrite lookup_insert_eq; cbn.
  all: destruct (hd false (tail (tail (tail (tail (tail (faults w))))))) eqn:F6; cbn; [rev_same|].
  all: destruct (hd false (tail (tail (tail (tail (tail (tail (faults w)))))))) eqn:F7; cbn;
    rev_same.
Qed.

(** Short of a failing [jpeg.Encode], the two revisions of [handleBlob] are
    the same computation. *)
Lemma handleBlob_rev1_eq options blob w :
  nth_fault 2 (faults w) = false ->
  handleBlob_rev1 options blob w = handleBlob options blob w.
Proof.
  cbn [nth_fault]. intros F3.
  unfold handleBlob_rev1, handleBlob. rewrite validateMimeType_rev1_eq.
  destruct (validateMimeType blob) eqn:Hv; cbn [negb]; [|done].
  unfold image_Decode, blobstore_Create, jpeg_Encode, writer_Close, writer_Key, blobstore_Stat,
    deleteOldBlob, blobstore_Delete, resize_Resize, next_fault, get_store, modify_store, emit.
  unfold mbind, M_bind, mret, M_ret. cbn.
  destruct (hd false (faults w)) eqn:F1; cbn; [done|].
  destruct (store w !! BlobKey blob) as [sb|] eqn:Hst; cbn; [|done].
  destruct (decodeBytes (blob_data sb)) as [img|] eqn:Hdec; cbn; [|done].
  destruct (targetSize (Size options) (MaxX img) (MaxY img)) as [[size_x size_y]|] eqn:Hts; cbn.
  all: destruct (hd false (tail (faults w))) eqn:F2; cbn; [done|].
  all: rewrite F3; cbn; done.
Qed.

(** Two loop bodies that agree on the states of an invariant the second
    keeps give the same loop. *)
Lemma for_each_agree {A} (P : World -> Prop) (body1 body2 : A -> M unit) (l : list A) :
  (forall x w, P w -> body1 x w = body2 x w) ->
  (forall x w w', P w -> body2 x w = Some (tt, w') -> P w') ->
  forall w, P w ->
    for_each l body1 w = for_each l body2 w /\
    (forall w', for_each l body2 w = Some (tt, w') -> P w').
Proof.
  intros Heq Hkeep. induction l as [|x l IH]; intros w Hw.
  - split; [done|]. by intros w' [= <-].
  - cbn [for_each]. unfold mbind, M_bind. rewrite Heq by done.
    destruct (body2 x w) as [[[] w1]|] eqn:Hb; [|done].
    destruct (IH w1 (Hkeep _ _ _ Hw Hb)) as [Hl Hp]. split; [done|]. apply Hp.
Qed.

Lemma no_faults_encode w : no_faults w -> nth_fault 2 (faults w) = false.
Proof. intros Hnf. by destruct (no_faults_next 2 (faults w) Hnf). Qed.

Lemma slice_body_no_faults options s i w w' :
  no_faults w -> slice_body options s i w = Some (tt, w') -> no_faults w'.
Proof.
  intros Hnf Hb. apply slice_body_Some in Hb as (arr & x & y & w1 & _ & _ & _ & Hhb & ->).
  by apply (handleBlob_no_faults _ _ _ _ _ Hhb).
Qed.

Lemma handleBlobArray_eq options s w :
  no_faults w ->
  handleBlobArray options s w = handleBlobSlice options s w /\
  (forall r w', handleBlobSlice options s w = Some (r, w') -> no_faults w').
Proof.
  intros Hnf.
  destruct (for_each_agree no_faults (array_body options s) (slice_body options s)
              (seq 0 (sl_len s))) with (w := w) as [Heq Hkeep]; [| |done|].
  - intros i w0 Hw0. unfold array_body, slice_body. unfold mbind, M_bind.
    destruct (slice_get s i w0) as [[x w1]|] eqn:Hget; [|done].
    assert (w1 = w0) as ->.
    { unfold slice_get in Hget. case_decide; [|done].
      destruct (arrays w0 !! sl_array s) as [arr|]; [|done]. cbn in Hget.
      destruct (arr !! (sl_offset s + i)%nat); [|done]. by injection Hget. }
    by rewrite handleBlob_rev1_eq by (by apply no_faults_encode).
  - intros i w0 w' Hw0. by apply slice_body_no_faults.
  - unfold handleBlobArray. rewrite handleBlobSlice_unfold.
    unfold mbind, M_bind, mret, M_ret. cbv zeta. rewrite Heq.
    destruct (for_each (seq 0 (sl_len s)) (slice_body options s) w) as [[[] w1]|] eqn:Hloop;
      [|done].
    split; [done|]. intros r w' Hrun.
    injection Hrun as <- <-. by apply Hkeep.
Qed.

Lemma field_body_rev1_eq options mref k w :
  no_faults w ->
  field_body_rev1 options mref k w = field_body options mref k w /\
  (forall w', field_body options mref k w = Some (tt, w') -> no_faults w').
Proof.
  intros Hnf. unfold field_body_rev1, field_body. unfold mbind, M_bind.
  destruct (map_get mref k w) as [[s w1]|] eqn:Hget; [|done].
  assert (w1 = w) as ->.
  { unfold map_get in Hget. destruct (gomaps w !! mref); [|done]. by injection Hget. }
  destruct (handleBlobArray_eq options s w Hnf) as [-> Hkeep].
  split; [done|]. intros w' Hrun.
  destruct (handleBlobSlice options s w) as [[r w1]|] eqn:Hs; [|done].
  pose proof (Hkeep _ _ eq_refl) as Hnf1.
  unfold map_set in Hrun. destruct (gomaps w1 !! mref); [|done]. by injection Hrun as <-.
Qed.

Lemma ParseBlobs_rev1_unfold options w :
  ParseBlobs_rev1 options w =
  match blobstore_ParseUpload (Request options) w with
  | Some (blobs, other, Some e, w1) => Some (blobs, other, Some e, w1)
  | Some (None, other, None, w1) => Some (None, other, None, w1)
  | Some (Some mref, other, None, w1) =>
      match (keys ← map_range mref; for_each keys (field_body_rev1 options mref)) w1 with
      | Some (_, w') => Some (Some mref, other, None, w')
      | None => None
      end
  | None => None
  end.
Proof.
  unfold ParseBlobs_rev1. unfold mbind at 1, M_bind at 1.
  destruct (blobstore_ParseUpload (Request options) w) as [[[[[mref|] other] [e|]] w1]|];
    reflexivity.
Qed.

(** X14.  When no collaborator call fails, the two revisions of [ParseBlobs]
    are the same computation: from the same state they return the same
    results and leave the same state. *)
Theorem ParseBlobs_revisions_agree options w :
  no_faults w -> ParseBlobs_rev1 options w = ParseBlobs options w.
Proof.
  intros Hnf. rewrite ParseBlobs_rev1_unfold, ParseBlobs_unfold.
  destruct (ParseUpload_spec (Request options) w)
    as [(Hf & e & Hpu)|(Hf & mref & m & w1 & Hpu & Hm & _ & _ & _ & _ & _ & _ & Hf1)];
    rewrite Hpu; [done|].
  assert (no_faults w1) as Hnf1 by (by apply (no_faults_tail w)).
  unfold mbind, M_bind. destruct (map_range mref w1) as [[keys w2]|] eqn:Hr; [|done].
  assert (w2 = w1) as ->.
  { unfold map_range in Hr. destruct (gomaps w1 !! mref); [|done]. by injection Hr. }
  destruct (for_each_agree no_faults (field_body_rev1 options mref) (field_body options mref)
              keys) with (w := w1) as [-> _]; [| |done..].
  - intros k w0 Hw0. by apply field_body_rev1_eq.
  - intros k w0 w' Hw0. by apply field_body_rev1_eq.
Qed.

End Optimg.

(* ================================================================== *)
(** * Part III.  The model at work: runs on concrete inputs            *)
(* ================================================================== *)

(** The expression of lines 303 and 308 on a few inputs. *)
Example scaleDim_photo : scaleDim 2000 1600 3000 = 1066.
Proof. vm_compute. reflexivity. Qed.

Example scaleDim_square : scaleDim 1122 1024 1122 = 1023.
Proof. vm_compute. reflexivity. Qed.

Example scaleDim_49 : scaleDim 49 1 49 = 0.
Proof. vm_compute. reflexivity. Qed.

(** On dimensions far beyond those of images the product can also be
    rounded up to the next integer. *)
Example scaleDim_above :
  scaleDim 1756458601 1038888007 1557535984 = 1171570862 /\
  exactScale 1756458601 1038888007 1557535984 = 1171570861.
Proof. split; vm_compute; reflexivity. Qed.

Example validateMimeType_upper :
  validateMimeType ascii_only (mkBlobInfo "k" "IMAGE/Jpeg") = true.
Proof. reflexivity. Qed.

Example validateMimeType_pdf :
  validateMimeType ascii_only (mkBlobInfo "k" "application/pdf") = false.
Proof. reflexivity. Qed.

(** C1 at work: [targetSize_two_pass] on a 3000x2000 image at 1600. *)
Lemma targetSize_two_pass_photo :
  0 < 1600 /\ 1600 < 3000 < 2 ^ 31 /\ 1600 < 2000 < 2 ^ 31 /\
  let h1 := scaleDim 2000 1600 3000 in
  exactScale 2000 1600 3000 - 1 <= h1 <= exactScale 2000 1600 3000 + 1 /\
  (2000 * 1600 + 3000 <= 2 ^ 51 -> h1 <= exactScale 2000 1600 3000) /\
  h1 <= 2000 /\
  (h1 <= 1600 -> targetSize 1600 3000 2000 = Some (1600, h1)) /\
  (1600 < h1 ->
   targetSize 1600 3000 2000 = Some (scaleDim 1600 1600 h1, 1600) /\
   0 <= scaleDim 1600 1600 h1 <= 1600) /\
  (forall x y, targetSize 1600 3000 2000 = Some (x, y) -> Z.max x y = 1600).
Proof.
  assert (0 < 1600) as H1 by reflexivity.
  assert (1600 < 3000 < 2 ^ 31) as H2 by (split; reflexivity).
  assert (1600 < 2000 < 2 ^ 31) as H3 by (split; reflexivity).
  split; [exact H1|]. split; [exact H2|]. split; [exact H3|].
  exact (targetSize_two_pass 1600 3000 2000 H1 H2 H3).
Defined.

(** C1, where the code leaves the exact floor.  The specification puts the
    height of the first pass at the exact [floor (height * maxDimension /
    width)].  A square 1122x1122 image scaled to 1024 gets, in the code, the
    height 1023: the quotient 1024/1122 is rounded to binary64 before it is
    multiplied, and the product lands just below 1024; the exact floor gives
    1024x1024. *)
Lemma targetSize_not_exact_floor :
  targetSize 1024 1122 1122 = Some (1024, 1023) /\
  specTargetSize 1024 1122 1122 = Some (1024, 1024) /\
  targetSize 1024 1122 1122 <> specTargetSize 1024 1122 1122.
Proof.
  assert (targetSize 1024 1122 1122 = Some (1024, 1023)) as H1 by (vm_compute; reflexivity).
  assert (specTargetSize 1024 1122 1122 = Some (1024, 1024)) as H2 by (vm_compute; reflexivity).
  split; [exact H1|]. split; [exact H2|]. rewrite H1, H2. discriminate.
Qed.

(** C2 at work: [photo_scenario] on the store that holds the one photo. *)
Lemma photo_scenario_run :
  Size photo_options = 1600 /\
  req_blobs (Request photo_options) = {[ "photo"%string := [mkBlobInfo photo_key "image/jpeg"] ]} /\
  store photo_world !! photo_key =
    Some (mkStored "image/jpeg" (JpegBytes 90 (mkImage 3000 2000))) /\
  no_faults photo_world /\
  exists mref w' new,
    ParseBlobs ascii_only photo_options photo_world =
      Some (Some mref, req_other (Request photo_options), None, w') /\
    map_elems w' mref = Some {[ "photo"%string := [new] ]} /\
    ContentType new = "image/jpeg"%string /\
    store w' !! BlobKey new =
      Some (mkStored "image/jpeg" (JpegBytes (Quality photo_options) (mkImage 1600 1066))) /\
    store w' !! photo_key = None.
Proof.
  assert (Size photo_options = 1600) as H1 by reflexivity.
  assert (req_blobs (Request photo_options) =
          {[ "photo"%string := [mkBlobInfo photo_key "image/jpeg"] ]}) as H2 by reflexivity.
  assert (store photo_world !! photo_key =
          Some (mkStored "image/jpeg" (JpegBytes 90 (mkImage 3000 2000)))) as H3
    by (vm_compute; reflexivity).
  assert (no_faults photo_world) as H4 by constructor.
  split; [exact H1|]. split; [exact H2|]. split; [exact H3|]. split; [exact H4|].
  exact (photo_scenario ascii_only photo_options photo_world photo_key 90 H1 H2 H3 H4).
Defined.

(** C2, the figure of the specification.  The specification expects an
    object of 1600x1067.  In the scenario the run ends with exactly one object
    in the store, a JPEG of 1600x1066 (the floor of 1066.67), so the object
    the field "photo" holds is not of 1600x1067. *)
Lemma photo_not_1067 :
  ~ exists mref other w' new q,
      ParseBlobs ascii_only photo_options photo_world = Some (Some mref, other, None, w') /\
      map_elems w' mref = Some {[ "photo"%string := [new] ]} /\
      store w' !! BlobKey new =
        Some (mkStored "image/jpeg" (JpegBytes q (mkImage 1600 1067))).
Proof.
  intros (mref & other & w' & new & q & Hrun & Hmap & Hst).
  destruct (ParseBlobs ascii_only photo_options photo_world) as [[[[r1 r2] r3] w0]|] eqn:Hpb;
    [|discriminate].
  assert (map_to_list (store w0) =
          [("0"%string, mkStored "image/jpeg" (JpegBytes 75 (mkImage 1600 1066)))]) as Hstore.
  { assert (Some (map_to_list (store w0)) =
            (fun r => map_to_list (store (snd r))) <$>
              ParseBlobs ascii_only photo_options photo_world) as Heq by (by rewrite Hpb).
    vm_compute in Heq. by injection Heq. }
  injection Hrun as -> -> -> ->.
  assert ((BlobKey new, mkStored "image/jpeg" (JpegBytes q (mkImage 1600 1067)))
            ∈ map_to_list (store w')) as Hin by (by apply elem_of_map_to_list).
  rewrite Hstore in Hin. apply list_elem_of_singleton in Hin. discriminate.
Qed.

(** C7 at work: [replace_again_is_stable] on the photo, replaced once. *)
Lemma replace_again_photo :
  (forall img, stored_image photo_world (BlobKey photo_info) = Some img -> decodable img) /\
  exists blob1 w1,
    handleBlob ascii_only photo_options photo_info photo_world = Some (blob1, w1) /\
    blob1 <> photo_info /\
    exists img1,
      store w1 !! BlobKey blob1 =
        Some (mkStored "image/jpeg" (JpegBytes (Quality photo_options) img1)) /\
      ContentType blob1 = "image/jpeg"%string /\
      targetSize (Size photo_options) (MaxX img1) (MaxY img1) = None /\
      forall w2, store w2 !! BlobKey blob1 = store w1 !! BlobKey blob1 ->
        exists blob2 w3 evs,
          handleBlob ascii_only photo_options blob1 w2 = Some (blob2, w3) /\
          trace w3 = trace w2 ++ evs /\
          (forall x y, EvResize x y ∉ evs) /\
          (forall q img ok, EvEncode q img ok ∈ evs -> q = Quality photo_options /\ img = img1) /\
          (blob2 <> blob1 ->
           ContentType blob2 = "image/jpeg"%string /\
           store w3 !! BlobKey blob2 =
             Some (mkStored "image/jpeg" (JpegBytes (Quality photo_options) img1))).
Proof.
  assert (forall img, stored_image photo_world (BlobKey photo_info) = Some img -> decodable img)
    as Hdec.
  { intros img Himg. vm_compute in Himg. injection Himg as <-.
    unfold decodable. cbn. split; split; reflexivity || discriminate. }
  split; [exact Hdec|].
  destruct (handleBlob ascii_only photo_options photo_info photo_world) as [[blob1 w1]|] eqn:Hrun.
  - assert (blob1 <> photo_info) as Hne.
    { assert (Some (BlobKey blob1) =
              (fun r => BlobKey (fst r)) <$>
                handleBlob ascii_only photo_options photo_info photo_world) as Heq
        by (by rewrite Hrun).
      vm_compute in Heq. injection Heq as Hk. intros Hb. rewrite Hb in Hk. discriminate Hk. }
    exists blob1, w1. split; [reflexivity|]. split; [exact Hne|].
    exact (replace_again_is_stable ascii_only photo_options photo_info photo_world blob1 w1
             Hdec Hrun Hne).
  - exfalso. vm_compute in Hrun. discriminate.
Defined.

(** C6 at work: [ParseBlobs_preserves_shape] on the upload of a PNG, of a
    GIF and of a PDF, one to a field.  The two images are replaced by
    references of type image/jpeg, the PDF is as it was. *)
Lemma ParseBlobs_on_album :
  hd false (faults album_world) = false /\
  exists mref w' w1 order out w'',
    ParseBlobs ascii_only album_options album_world =
      Some (Some mref, req_other album_request, None, w') /\
    blobstore_ParseUpload album_request album_world =
      Some (Some mref, req_other album_request, None, w1) /\
    order ≡ₚ map_to_list (req_blobs album_request) /\
    specProcess ascii_only album_options order w1 = Some (out, w'') /\
    map_elems w' mref = Some (list_to_map out) /\
    map_elems w' mref =
      Some {[ "front"%string := [mkBlobInfo "0" "image/jpeg"];
              "back"%string := [mkBlobInfo "1" "image/jpeg"];
              "notes"%string := [mkBlobInfo "blob-c" "application/pdf"] ]} /\
    store w' = store w'' /\ trace w' = trace w''.
Proof.
  split; [reflexivity|].
  destruct (ParseBlobs_preserves_shape ascii_only album_options album_world)
    as (blobs & other & err & w' & Hrun & _ & Hok).
  destruct (Hok eq_refl)
    as (-> & -> & mref & F' & w1 & order & out & w'' & -> & Hmap & _ & Hpu & _ & _ &
        Hperm & Hproc & -> & Hst & Htr).
  assert ((fun r => map_elems r.2 (default 0%nat r.1.1.1)) <$>
            ParseBlobs ascii_only album_options album_world =
          Some (Some {[ "front"%string := [mkBlobInfo "0" "image/jpeg"];
                        "back"%string := [mkBlobInfo "1" "image/jpeg"];
                        "notes"%string := [mkBlobInfo "blob-c" "application/pdf"] ]})) as Hc
    by (vm_compute; reflexivity).
  rewrite Hrun in Hc. cbn in Hc. injection Hc as Hc.
  exists mref, w', w1, order, out, w''.
  split; [exact Hrun|]. split; [exact Hpu|]. split; [exact Hperm|]. split; [exact Hproc|].
  split; [exact Hmap|]. split; [exact Hc|]. split; [exact Hst|exact Htr].
Defined.

(** C8 at work: [replacement_is_jpeg] on a PNG, on a GIF declared as
    IMAGE/GIF and on a JPEG of another quality. *)
Lemma png_gif_jpeg_become_jpeg :
  (exists blob' w',
     handleBlob ascii_only album_options (mkBlobInfo "blob-a" "image/png") album_world =
       Some (blob', w') /\
     blob' <> mkBlobInfo "blob-a" "image/png" /\ ContentType blob' = "image/jpeg"%string /\
     store w' !! BlobKey blob' =
       Some (mkStored "image/jpeg" (JpegBytes 60 (mkImage 800 600)))) /\
  (exists blob' w',
     handleBlob ascii_only album_options (mkBlobInfo "blob-b" "IMAGE/GIF") album_world =
       Some (blob', w') /\
     blob' <> mkBlobInfo "blob-b" "IMAGE/GIF" /\ ContentType blob' = "image/jpeg"%string /\
     store w' !! BlobKey blob' =
       Some (mkStored "image/jpeg" (JpegBytes 60 (mkImage 1024 256)))) /\
  (exists blob' w',
     handleBlob ascii_only photo_options photo_info photo_world = Some (blob', w') /\
     blob' <> photo_info /\ ContentType blob' = "image/jpeg"%string /\
     store w' !! BlobKey blob' =
       Some (mkStored "image/jpeg" (JpegBytes 75 (mkImage 1600 1066)))).
Proof.
  split; [|split].
  - destruct (replacement_is_jpeg ascii_only album_options (mkBlobInfo "blob-a" "image/png")
                album_world) as (blob' & w' & evs & Hrun & _ & _ & _ & _ & Hnew).
    destruct (Hnew (mkStored "image/png" (PngBytes (mkImage 800 600))) (mkImage 800 600))
      as (Hne & Hct & _ & _ & Hst).
    + vm_compute. reflexivity.
    + vm_compute. reflexivity.
    + left. reflexivity.
    + reflexivity.
    + exists blob', w'. split; [exact Hrun|]. split; [exact Hne|]. split; [exact Hct|].
      exact Hst.
  - destruct (replacement_is_jpeg ascii_only album_options (mkBlobInfo "blob-b" "IMAGE/GIF")
                album_world) as (blob' & w' & evs & Hrun & _ & _ & _ & _ & Hnew).
    destruct (Hnew (mkStored "IMAGE/GIF" (GifBytes (mkImage 4000 1000))) (mkImage 4000 1000))
      as (Hne & Hct & _ & _ & Hst).
    + vm_compute. reflexivity.
    + vm_compute. reflexivity.
    + right. left. reflexivity.
    + reflexivity.
    + assert (resized album_options (mkImage 4000 1000) = mkImage 1024 256) as Hr
        by (vm_compute; reflexivity).
      rewrite Hr in Hst.
      exists blob', w'. split; [exact Hrun|]. split; [exact Hne|]. split; [exact Hct|].
      exact Hst.
  - destruct (replacement_is_jpeg ascii_only photo_options photo_info photo_world)
      as (blob' & w' & evs & Hrun & _ & _ & _ & _ & Hnew).
    destruct (Hnew (mkStored "image/jpeg" (JpegBytes 90 (mkImage 3000 2000))) (mkImage 3000 2000))
      as (Hne & Hct & _ & _ & Hst).
    + vm_compute. reflexivity.
    + vm_compute. reflexivity.
    + right. right. exists 90. reflexivity.
    + reflexivity.
    + assert (resized photo_options (mkImage 3000 2000) = mkImage 1600 1066) as Hr
        by (vm_compute; reflexivity).
      rewrite Hr in Hst.
      exists blob', w'. split; [exact Hrun|]. split; [exact Hne|]. split; [exact Hct|].
      exact Hst.
Defined.

(** C10 at work: [batch_works_in_place] on the slice of the PNG and the
    GIF, and on the upload of the album.  The array the slice lies in holds
    the two new references; and the slices the collaborator put in its map
    denote the new references. *)
Lemma album_overwritten_in_place :
  arrays album_world !! sl_array album_slice = Some album /\
  (sl_offset album_slice + sl_len album_slice <= length album)%nat /\
  hd false (faults album_world) = false /\
  (exists w',
     handleBlobSlice ascii_only album_options album_slice album_world =
       Some (album_slice, w') /\
     arrays w' !! sl_array album_slice =
       Some [mkBlobInfo "0" "image/jpeg"; mkBlobInfo "1" "image/jpeg"]) /\
  (exists mref m w1 w',
     blobstore_ParseUpload album_request album_world =
       Some (Some mref, req_other album_request, None, w1) /\
     ParseBlobs ascii_only album_options album_world =
       Some (Some mref, req_other album_request, None, w') /\
     gomaps w1 !! mref = Some m /\ gomaps w' !! mref = Some m /\
     denotes w1 m (req_blobs album_request) /\
     denotes w' m {[ "front"%string := [mkBlobInfo "0" "image/jpeg"];
                     "back"%string := [mkBlobInfo "1" "image/jpeg"];
                     "notes"%string := [mkBlobInfo "blob-c" "application/pdf"] ]}).
Proof.
  assert (arrays album_world !! sl_array album_slice = Some album) as H1
    by (vm_compute; reflexivity).
  assert (sl_offset album_slice + sl_len album_slice <= length album)%nat as H2
    by (cbn; lia).
  assert (hd false (faults album_world) = false) as H3 by reflexivity.
  split; [exact H1|]. split; [exact H2|]. split; [exact H3|].
  destruct (batch_works_in_place ascii_only) as (_ & Hslice & _ & Hupload).
  split.
  - destruct (Hslice album_options album_slice album_world album H1 H2)
      as (ys & w' & w'' & Hrun & Hspec & _ & Harr & _).
    assert (fst <$> specReplaceEach ascii_only album_options
                      (take (sl_len album_slice) (drop (sl_offset album_slice) album))
                      album_world =
            Some [mkBlobInfo "0" "image/jpeg"; mkBlobInfo "1" "image/jpeg"]) as Hc
      by (vm_compute; reflexivity).
    rewrite Hspec in Hc. cbn in Hc. injection Hc as ->.
    exists w'. split; [exact Hrun|]. exact Harr.
  - destruct (Hupload album_options album_world H3)
      as (mref & m & other & w1 & w' & order & out & w'' &
          Hpu & Hrun & Hm1 & Hm' & Hden1 & _ & _ & Hden' & _).
    assert (other = req_other album_request) as ->.
    { assert ((fun r => r.1.1.2) <$> blobstore_ParseUpload album_request album_world =
              Some (req_other album_request)) as Hc by (vm_compute; reflexivity).
      change (Request album_options) with album_request in Hpu.
      rewrite Hpu in Hc. cbn in Hc. by injection Hc. }
    assert ((fun r => map_elems r.2 (default 0%nat r.1.1.1)) <$>
              ParseBlobs ascii_only album_options album_world =
            Some (Some {[ "front"%string := [mkBlobInfo "0" "image/jpeg"];
                          "back"%string := [mkBlobInfo "1" "image/jpeg"];
                          "notes"%string := [mkBlobInfo "blob-c" "application/pdf"] ]})) as Hc
      by (vm_compute; reflexivity).
    rewrite Hrun in Hc. cbn in Hc. injection Hc as Hc.
    rewrite (denotes_map_elems w' m (list_to_map out) mref Hm' Hden') in Hc.
    injection Hc as Hc. rewrite Hc in Hden'.
    exists mref, m, w1, w'. split; [exact Hpu|]. split; [exact Hrun|].
    split; [exact Hm1|]. split; [exact Hm'|]. split; [exact Hden1|]. exact Hden'.
Defined.

(** ** The further properties at work *)

(** X1 at work: the photo of 3000x2000 at 1600. *)
Lemma targetSize_shrinks_photo :
  0 <= 3000 < 2 ^ 31 /\ 0 <= 2000 < 2 ^ 31 /\
  targetSize 1600 3000 2000 = Some (1600, 1066) /\
  0 <= 1600 <= Z.min 3000 1600 /\ 0 <= 1066 <= Z.min 2000 1600 /\
  (1600 < 3000 \/ 1066 < 2000).
Proof.
  assert (0 <= 3000 < 2 ^ 31) as H1 by (split; [discriminate|reflexivity]).
  assert (0 <= 2000 < 2 ^ 31) as H2 by (split; [discriminate|reflexivity]).
  assert (targetSize 1600 3000 2000 = Some (1600, 1066)) as H3 by (vm_compute; reflexivity).
  split; [exact H1|]. split; [exact H2|]. split; [exact H3|].
  exact (targetSize_shrinks_only 1600 3000 2000 1600 1066 H1 H2 H3).
Defined.

(** X2 at work: the same photo goes through the first pass alone. *)
Lemma landscape_photo :
  0 < 1600 < 3000 /\ 0 <= 2000 <= 3000 /\ 3000 < 2 ^ 31 /\
  targetSize 1600 3000 2000 = Some (1600, scaleDim 2000 1600 3000) /\
  0 <= scaleDim 2000 1600 3000 <= Z.min 2000 1600.
Proof.
  assert (0 < 1600 < 3000) as H1 by (split; reflexivity).
  assert (0 <= 2000 <= 3000) as H2 by (split; discriminate).
  assert (3000 < 2 ^ 31) as H3 by reflexivity.
  split; [exact H1|]. split; [exact H2|]. split; [exact H3|].
  exact (landscape_single_pass 1600 3000 2000 H1 H2 H3).
Defined.

(** X3 at work: a portrait of 1200x2400 at 1600 becomes 800x1600. *)
Lemma portrait_1200_2400 :
  0 < 1200 <= 1600 /\ 1600 < 2400 < 2 ^ 31 /\
  targetSize 1600 1200 2400 = Some (scaleDim 1200 1600 2400, 1600) /\
  exactScale 1200 1600 2400 - 1 <= scaleDim 1200 1600 2400 <= exactScale 1200 1600 2400 + 1 /\
  0 <= scaleDim 1200 1600 2400 <= 1200.
Proof.
  assert (0 < 1200 <= 1600) as H1 by (split; [reflexivity|discriminate]).
  assert (1600 < 2400 < 2 ^ 31) as H2 by (split; reflexivity).
  split; [exact H1|]. split; [exact H2|].
  exact (portrait_second_pass_only 1600 1200 2400 H1 H2).
Defined.

(** X4 at work: the options [NewCompressionOptions] returns, on the photo. *)
Lemma default_options_on_photo :
  Size (NewCompressionOptions photo_request)
    <= Size (NewCompressionOptions (Request (NewCompressionOptions photo_request))) /\
  exists blob' w' evs,
    handleBlob ascii_only (NewCompressionOptions photo_request) photo_info photo_world
      = Some (blob', w') /\
    trace w' = trace photo_world ++ evs /\
    (forall x y, EvResize x y ∉ evs) /\
    (forall q img ok, EvEncode q img ok ∈ evs ->
       q = Quality (NewCompressionOptions photo_request) /\
       stored_image photo_world (BlobKey photo_info) = Some img) /\
    (blob' <> photo_info ->
     exists src,
       stored_image photo_world (BlobKey photo_info) = Some src /\
       store w' !! BlobKey blob' =
         Some (mkStored "image/jpeg"
                 (JpegBytes (Quality (NewCompressionOptions photo_request)) src))).
Proof.
  assert (Size (NewCompressionOptions photo_request)
            <= Size (NewCompressionOptions (Request (NewCompressionOptions photo_request))))
    as H1 by discriminate.
  split; [exact H1|].
  exact (default_size_keeps_dimensions ascii_only (NewCompressionOptions photo_request)
           photo_info photo_world H1).
Defined.

(** X5 at work: a reference declared image/png whose object is not there. *)
Lemma undecodable_png :
  validateMimeType ascii_only (mkBlobInfo "gone" "image/png") = true /\
  stored_image photo_world (BlobKey (mkBlobInfo "gone" "image/png")) = None /\
  exists w',
    handleBlob ascii_only photo_options (mkBlobInfo "gone" "image/png") photo_world
      = Some (mkBlobInfo "gone" "image/png", w') /\
    store w' = store photo_world /\
    trace w' = trace photo_world ++ [EvDecode "gone" false] /\
    faults w' = tail (faults photo_world).
Proof.
  assert (validateMimeType ascii_only (mkBlobInfo "gone" "image/png") = true) as H1
    by reflexivity.
  assert (stored_image photo_world (BlobKey (mkBlobInfo "gone" "image/png")) = None) as H2
    by (vm_compute; reflexivity).
  split; [exact H1|]. split; [exact H2|].
  exact (undecodable_left_alone ascii_only photo_options (mkBlobInfo "gone" "image/png")
           photo_world H1 H2).
Defined.

(** X6 at work: the photo, replaced once and handed in again. *)
Lemma stale_photo :
  exists blob1 w1,
    handleBlob ascii_only photo_options photo_info photo_world = Some (blob1, w1) /\
    blob1 <> photo_info /\
    last (trace w1) = Some (EvDelete (BlobKey photo_info) true) /\
    store w1 !! BlobKey photo_info = None /\
    exists w2,
      handleBlob ascii_only photo_options photo_info w1 = Some (photo_info, w2) /\
      store w2 = store w1 /\
      trace w2 = trace w1 ++ [EvDecode (BlobKey photo_info) false].
Proof.
  destruct (handleBlob ascii_only photo_options photo_info photo_world) as [[blob1 w1]|] eqn:Hrun.
  - assert ((fun r => (BlobKey (fst r), last (trace (snd r)))) <$>
              handleBlob ascii_only photo_options photo_info photo_world =
            Some ("0"%string, Some (EvDelete photo_key true))) as Heq
      by (vm_compute; reflexivity).
    rewrite Hrun in Heq. cbn in Heq. injection Heq as Hk Hl.
    assert (blob1 <> photo_info) as Hne.
    { intros Hb. rewrite Hb in Hk. discriminate Hk. }
    assert (last (trace w1) = Some (EvDelete (BlobKey photo_info) true)) as Hlast
      by exact Hl.
    exists blob1, w1. split; [reflexivity|]. split; [exact Hne|]. split; [exact Hlast|].
    exact (replaced_reference_is_stale ascii_only photo_options photo_info photo_world blob1 w1
             Hrun Hne Hlast).
  - exfalso. vm_compute in Hrun. discriminate.
Defined.

(** X7 at work: the photo, with a delete that fails. *)
Lemma delete_fails_on_photo :
  let w := photo_world_failing [false; false; false; false; false; false; true] in
  validateMimeType ascii_only photo_info = true /\
  stored_image w (BlobKey photo_info) = Some (mkImage 3000 2000) /\
  any_fault 6 (faults w) = false /\ nth_fault 6 (faults w) = true /\
  exists w',
    handleBlob ascii_only photo_options photo_info w
      = Some (mkBlobInfo (fresh (dom (store w))) "image/jpeg", w') /\
    last (trace w') = Some (EvDelete (BlobKey photo_info) false) /\
    store w' !! BlobKey photo_info = store w !! BlobKey photo_info /\
    is_Some (store w' !! BlobKey photo_info) /\
    store w' !! fresh (dom (store w)) =
      Some (mkStored "image/jpeg"
              (JpegBytes (Quality photo_options) (resized photo_options (mkImage 3000 2000)))).
Proof.
  intros w.
  assert (validateMimeType ascii_only photo_info = true) as H1 by reflexivity.
  assert (stored_image w (BlobKey photo_info) = Some (mkImage 3000 2000)) as H2
    by (vm_compute; reflexivity).
  assert (any_fault 6 (faults w) = false) as H3 by reflexivity.
  assert (nth_fault 6 (faults w) = true) as H4 by reflexivity.
  split; [exact H1|]. split; [exact H2|]. split; [exact H3|]. split; [exact H4|].
  exact (delete_failure_is_silent ascii_only photo_options photo_info w (mkImage 3000 2000)
           H1 H2 H3 H4).
Defined.

(** X8 at work: the photo, with a failing call for the key of the writer. *)
Lemma key_fails_on_photo :
  let w := photo_world_failing [false; false; false; false; true] in
  validateMimeType ascii_only photo_info = true /\
  stored_image w (BlobKey photo_info) = Some (mkImage 3000 2000) /\
  any_fault 4 (faults w) = false /\
  (nth_fault 4 (faults w) = true \/ nth_fault 5 (faults w) = true) /\
  exists w',
    handleBlob ascii_only photo_options photo_info w = Some (photo_info, w') /\
    store w' =
      <[fresh (dom (store w)) :=
          mkStored "image/jpeg"
            (JpegBytes (Quality photo_options) (resized photo_options (mkImage 3000 2000)))]>
        (store w) /\
    (forall k ok, EvDelete k ok ∉ drop (length (trace w)) (trace w')).
Proof.
  intros w.
  assert (validateMimeType ascii_only photo_info = true) as H1 by reflexivity.
  assert (stored_image w (BlobKey photo_info) = Some (mkImage 3000 2000)) as H2
    by (vm_compute; reflexivity).
  assert (any_fault 4 (faults w) = false) as H3 by reflexivity.
  assert (nth_fault 4 (faults w) = true \/ nth_fault 5 (faults w) = true) as H4
    by (left; reflexivity).
  split; [exact H1|]. split; [exact H2|]. split; [exact H3|]. split; [exact H4|].
  exact (late_failure_leaves_orphan ascii_only photo_options photo_info w (mkImage 3000 2000)
           H1 H2 H3 H4).
Defined.

(** X10 at work: the key of the replaced photo. *)
Lemma new_key_of_photo :
  exists blob' w',
    handleBlob ascii_only photo_options photo_info photo_world = Some (blob', w') /\
    (blob' = photo_info \/
     (BlobKey blob' <> BlobKey photo_info /\
      store photo_world !! BlobKey blob' = None /\
      is_Some (store photo_world !! BlobKey photo_info) /\
      is_Some (store w' !! BlobKey blob'))).
Proof.
  destruct (handleBlob ascii_only photo_options photo_info photo_world) as [[blob' w']|] eqn:Hrun.
  - exists blob', w'. split; [reflexivity|].
    exact (replacement_has_new_key ascii_only photo_options photo_info photo_world blob' w' Hrun).
  - exfalso. vm_compute in Hrun. discriminate.
Defined.

(** X11 at work: the upload of one PDF. *)
Lemma pdf_passes_through :
  (forall k xs x, req_blobs pdf_request !! k = Some xs -> x ∈ xs ->
     validateMimeType ascii_only x = false) /\
  ParseBlobs ascii_only (mkOptions 75 1600 pdf_request) pdf_world =
  blobstore_ParseUpload pdf_request pdf_world.
Proof.
  assert (forall k xs x, req_blobs pdf_request !! k = Some xs -> x ∈ xs ->
            validateMimeType ascii_only x = false) as H1.
  { intros k xs x Hk Hx. cbn in Hk.
    apply lookup_singleton_Some in Hk as [_ <-].
    apply list_elem_of_singleton in Hx. rewrite Hx. reflexivity. }
  split; [exact H1|].
  exact (unsupported_upload_passes_through ascii_only (mkOptions 75 1600 pdf_request)
           pdf_world H1).
Defined.

(** X12 at work: a PNG of 800x600 and a GIF of 4000x1000 in one slice. *)
Lemma album_is_replaced :
  slice_elems album_world album_slice = Some album /\
  NoDup (BlobKey <$> album) /\
  (forall x, x ∈ album ->
     validateMimeType ascii_only x = true /\ is_Some (stored_image album_world (BlobKey x))) /\
  no_faults album_world /\
  exists ys w',
    handleBlobSlice ascii_only photo_options album_slice album_world = Some (album_slice, w') /\
    slice_elems w' album_slice = Some ys /\
    Forall2 (fun x y =>
      ContentType y = "image/jpeg"%string /\
      exists img, stored_image album_world (BlobKey x) = Some img /\
        store w' !! BlobKey y =
          Some (mkStored "image/jpeg"
                  (JpegBytes (Quality photo_options) (resized photo_options img))))
      album ys /\
    NoDup (BlobKey <$> ys) /\
    (forall k, is_Some (store album_world !! k) -> (forall x, x ∈ album -> BlobKey x <> k) ->
       store w' !! k = store album_world !! k) /\
    size (store w') = size (store album_world).
Proof.
  assert (slice_elems album_world album_slice = Some album) as H1 by (vm_compute; reflexivity).
  assert (NoDup (BlobKey <$> album)) as H2.
  { cbn. apply NoDup_cons. split.
    - intros Hin. apply list_elem_of_singleton in Hin. discriminate.
    - apply NoDup_singleton. }
  assert (forall x, x ∈ album ->
            validateMimeType ascii_only x = true /\
            is_Some (stored_image album_world (BlobKey x))) as H3.
  { intros x Hx. unfold album in Hx.
    apply elem_of_cons in Hx as [->|Hx]; [|apply list_elem_of_singleton in Hx as ->].
    - split; [reflexivity|]. exists (mkImage 800 600). vm_compute. reflexivity.
    - split; [reflexivity|]. exists (mkImage 4000 1000). vm_compute. reflexivity. }
  assert (no_faults album_world) as H4 by constructor.
  split; [exact H1|]. split; [exact H2|]. split; [exact H3|]. split; [exact H4|].
  exact (slice_of_images_is_replaced ascii_only photo_options album_slice album_world album
           H1 H2 H3 H4).
Defined.

(** X14 at work: the two revisions on the upload of the photo. *)
Lemma revisions_on_photo :
  no_faults photo_world /\
  ParseBlobs_rev1 ascii_only photo_options photo_world =
  ParseBlobs ascii_only photo_options photo_world.
Proof.
  assert (no_faults photo_world) as H1 by constructor.
  split; [exact H1|].
  exact (ParseBlobs_revisions_agree ascii_only photo_options photo_world H1).
Defined.

(** X16 at work: the upload of the PNG, of the GIF and of a PDF. *)
Lemma album_upload_is_replaced :
  no_faults album_world /\
  exists mref w' F',
    ParseBlobs ascii_only album_options album_world =
      Some (Some mref, req_other (Request album_options), None, w') /\
    map_elems w' mref = Some F' /\
    (forall k, option_Forall2 (Forall2 (batch_result ascii_only album_options album_world w'))
                 (req_blobs (Request album_options) !! k) (F' !! k)) /\
    size (store w') = size (store album_world).
Proof.
  assert (no_faults album_world) as H1 by constructor.
  assert (forall k xs, req_blobs (Request album_options) !! k = Some xs ->
            xs = [mkBlobInfo "blob-a" "image/png"] /\ k = "front"%string \/
            xs = [mkBlobInfo "blob-b" "IMAGE/GIF"] /\ k = "back"%string \/
            xs = [mkBlobInfo "blob-c" "application/pdf"] /\ k = "notes"%string) as Hreq.
  { intros k xs Hk. cbn in Hk.
    apply lookup_insert_Some in Hk as [[<- <-]|[_ Hk]]; [by left|].
    apply lookup_insert_Some in Hk as [[<- <-]|[_ Hk]]; [by right; left|].
    apply lookup_singleton_Some in Hk as [<- <-]. by right; right. }
  assert (forall k xs, req_blobs (Request album_options) !! k = Some xs ->
            NoDup (BlobKey <$> xs)) as H2.
  { intros k xs Hk. destruct (Hreq k xs Hk) as [[-> _]|[[-> _]|[-> _]]]; apply NoDup_singleton. }
  assert (forall k1 k2 xs1 xs2 x1 x2,
            req_blobs (Request album_options) !! k1 = Some xs1 ->
            req_blobs (Request album_options) !! k2 = Some xs2 ->
            x1 ∈ xs1 -> x2 ∈ xs2 -> BlobKey x1 = BlobKey x2 -> k1 = k2) as H3.
  { intros k1 k2 xs1 xs2 x1 x2 Hk1 Hk2 Hx1 Hx2 Heq.
    destruct (Hreq k1 xs1 Hk1) as [[-> ->]|[[-> ->]|[-> ->]]],
             (Hreq k2 xs2 Hk2) as [[-> ->]|[[-> ->]|[-> ->]]];
      apply list_elem_of_singleton in Hx1, Hx2; subst x1 x2; done. }
  assert (forall k xs x, req_blobs (Request album_options) !! k = Some xs -> x ∈ xs ->
            is_Some (store album_world !! BlobKey x) /\
            (validateMimeType ascii_only x = true ->
             is_Some (stored_image album_world (BlobKey x)))) as H4.
  { intros k xs x Hk Hx.
    destruct (Hreq k xs Hk) as [[-> _]|[[-> _]|[-> _]]];
      apply list_elem_of_singleton in Hx; subst x.
    - split; [eexists; vm_compute; reflexivity|]. intros _.
      exists (mkImage 800 600). vm_compute. reflexivity.
    - split; [eexists; vm_compute; reflexivity|]. intros _.
      exists (mkImage 4000 1000). vm_compute. reflexivity.
    - split; [eexists; vm_compute; reflexivity|]. intros Hv. discriminate Hv. }
  split; [exact H1|].
  exact (upload_is_replaced ascii_only album_options album_world H1 H2 H3 H4).
Defined.
